(** * Time-lapse camera: capture loop, file naming and video assembly

    A shallow embedding of [timelapse_camera.py] (the command-line front-end),
    of the recording worker of [timelapse_gui.py] (the graphical front-end)
    and of the capture loop of [test_timelapse.py] (the smoke test).

    The camera, the image codec, the clock and the other threads are the
    environment: every call into them takes its result from an oracle, so a
    statement quantified over the oracles holds for every behaviour of the
    environment.  The program's own state ([is_recording], [frame_count]),
    the messages it prints and the files it creates are threaded explicitly. *)

From stdpp Require Import base option list gmap strings sorting.
From Stdlib Require Import ZArith NArith QArith_base Ascii String Lia.

Set Warnings "-clear-no-such-hyp".

Local Open Scope string_scope.
Local Open Scope list_scope.
Local Open Scope Z_scope.

(** ** Strings: the Python string operations the program uses *)

Module Str.

(** [s.endswith(suffix)]: [s] is [suffix], or what follows its first
    character ends with [suffix]. *)
Fixpoint endswith (s suffix : string) : bool :=
  String.eqb s suffix ||
  match s with
  | EmptyString => false
  | String _ s' => endswith s' suffix
  end.

(** [s.startswith(p)] *)
Definition startswith (s p : string) : bool := String.prefix p s.

Definition lower_ascii (c : ascii) : ascii :=
  let n := N_of_ascii c in
  if ((65 <=? n) && (n <=? 90))%N then ascii_of_N (n + 32) else c.

(** [s.lower()], on the ASCII letters. *)
Fixpoint lower (s : string) : string :=
  match s with
  | EmptyString => EmptyString
  | String c s' => String (lower_ascii c) (lower s')
  end.

Fixpoint zeros (k : nat) : string :=
  match k with
  | O => ""
  | S k' => String "0" (zeros k')
  end.

Definition digit_char (d : N) : ascii := ascii_of_N (48 + d).

(** Decimal digits of [n], most significant first, pushed in front of
    [acc]; [fuel] bounds the number of digits produced. *)
Fixpoint decimal_go (fuel : nat) (n : N) (acc : string) : string :=
  match fuel with
  | O => acc
  | S fuel' =>
      let acc' := String (digit_char (n mod 10)) acc in
      if (n / 10 =? 0)%N then acc' else decimal_go fuel' (n / 10)%N acc'
  end.

(** [str(n)] for a non-negative integer: a number has no more decimal
    digits than binary ones. *)
Definition decimal (n : N) : string := decimal_go (S (N.to_nat (N.log2 n))) n "".

(** The format specification [0<w>d]: decimal, padded with zeros on the left
    up to a width of at least [w]. *)
Definition zero_padded (w : nat) (n : N) : string :=
  let s := decimal n in zeros (w - String.length s) +:+ s.

(** [f"{n:06d}"] *)
Definition format_06d (n : N) : string := zero_padded 6 n.

Definition digit_value (c : ascii) : N := (N_of_ascii c - 48)%N.

Definition is_digit (c : ascii) : bool :=
  let n := N_of_ascii c in ((48 <=? n) && (n <=? 57))%N.

(** The number a string of digits denotes (what [int(s)] returns). *)
Fixpoint value_go (acc : N) (s : string) : N :=
  match s with
  | EmptyString => acc
  | String c s' => value_go (acc * 10 + digit_value c)%N s'
  end.

Definition value (s : string) : N := value_go 0 s.

Fixpoint all_digits (s : string) : bool :=
  match s with
  | EmptyString => true
  | String c s' => is_digit c && all_digits s'
  end.

End Str.

(** ** Paths, after [posixpath.join] with two arguments *)

Module Path.

Definition join (a b : string) : string :=
  if Str.startswith b "/" then b
  else if String.eqb a "" || Str.endswith a "/" then a +:+ b
  else a +:+ "/" +:+ b.

End Path.


(** ** The clock: [datetime.now().strftime("%Y%m%d_%H%M%S")] *)

Module Clock.

Record datetime := {
  year : N; month : N; day : N;
  hour : N; minute : N; second : N
}.

Definition strftime (t : datetime) : string :=
  Str.zero_padded 4 (year t) +:+ Str.zero_padded 2 (month t) +:+
  Str.zero_padded 2 (day t) +:+ "_" +:+
  Str.zero_padded 2 (hour t) +:+ Str.zero_padded 2 (minute t) +:+
  Str.zero_padded 2 (second t).


End Clock.

(** ** The configuration dictionary

    One record holds the keys of both front-ends: [preview_window] is read by
    the command line only, [use_time_limit] and [recording_time_limit] by the
    GUI only.  The command line's nested ["resolution"] entry is flattened
    into [width] and [height].  Intervals and durations are whole seconds and
    minutes. *)

Module Config.

(** The text of the GUI's [recording_time_limit] entry, as the worker reads
    it: a text without the unit (the entry "unlimited"), [<m>] followed by the
    unit, or the unit with something [int()] rejects. *)
Inductive time_limit :=
| Unlimited
| Minutes (m : Z)
| Malformed.

Record t := {
  camera_index : Z;
  interval_seconds : Z;
  duration_minutes : Z;
  width : Z;
  height : Z;
  output_dir : string;
  image_format : string;
  image_quality : Z;
  filename_prefix : string;
  auto_exposure : bool;
  brightness : Z;
  contrast : Z;
  saturation : Z;
  create_video : bool;
  video_fps : Z;
  video_format : string;
  cleanup_images : bool;
  preview_window : bool;
  use_time_limit : bool;
  recording_time_limit : time_limit
}.

End Config.

(** ** Observable behaviour *)

Inductive exn :=
| CvError          (* cv2.error *)
| ValueError
| AttributeError
| OSError
| ZeroDivisionError.

(** The result of a call into the environment. *)
Inductive io (A : Type) :=
| Returns (a : A)
| Raises (e : exn).
Arguments Returns {A} a.
Arguments Raises {A} e.

Inductive cam_prop :=
| FRAME_WIDTH | FRAME_HEIGHT | AUTO_EXPOSURE | BRIGHTNESS | CONTRAST | SATURATION.

Inductive message :=
| CannotOpenCamera (index : Z)
| CameraReady
| CameraInitFailed (e : exn)
| OutputDirCreated (path : string)
| ConfigSaved (path : string)
| ConfigSaveFailed (e : exn)
| ConfigLoaded (path : string)
| ConfigLoadFailed (e : exn)
| RecordingStarted (estimated_frames : option Z)
| CannotReadFrame
| FrameSaved (n : N)
| SaveFailed (path : string)
| CaptureFailed (e : exn)
| EscPressed
| SignalReceived
| RecordingDone (frames : N)
| RecordingError (e : exn)
| CreatingVideo
| NoImagesFound
| VideoProgress (done total : nat)
| VideoCreated (path : string)
| CleaningImages
| ImagesCleaned
| VideoFailed (e : exn)
| ResourcesReleased
| SmokeFrameSaved (i : nat)
| SmokeSaveFailed (i : nat)
| SmokeReadFailed (i : nat)
| SmokeDone.

(** What a run does to the outside world, in order. *)
Inductive event :=
| VideoCapture (index : Z)
| CameraSet (p : cam_prop) (v : Q)
| Mkdir (path : string)
| JsonLoad (path : string)
| JsonDump (path : string)
| CameraRead
| Imwrite (frame_number : N) (path : string) (params : list Z) (r : io bool)
| Preview
| Sleep (seconds : Z)
| Output (m : message)
| Imread (path : string)
| WriterOpen (path : string) (fps : Z)
| WriterWrite (path : string)
| WriterRelease
| Remove (path : string)
| CameraRelease
| DestroyAllWindows
| FlagWritten (b : bool).

(** The program state ([self.is_recording], [self.frame_count]), the
    events so far (oldest first) and the file system: the directories and
    the regular files that exist, by path. *)
Record world := {
  is_recording : bool;
  frame_count : N;
  trace : list event;
  dirs : gset string;
  files : gset string
}.

Definition set_recording (b : bool) (w : world) : world :=
  {| is_recording := b; frame_count := frame_count w; trace := trace w;
     dirs := dirs w; files := files w |}.

Definition set_frame_count (n : N) (w : world) : world :=
  {| is_recording := is_recording w; frame_count := n; trace := trace w;
     dirs := dirs w; files := files w |}.

Definition emit (e : event) (w : world) : world :=
  {| is_recording := is_recording w; frame_count := frame_count w;
     trace := trace w ++ [e]; dirs := dirs w; files := files w |}.

Definition set_dirs (d : gset string) (w : world) : world :=
  {| is_recording := is_recording w; frame_count := frame_count w;
     trace := trace w; dirs := d; files := files w |}.

Definition set_files (f : gset string) (w : world) : world :=
  {| is_recording := is_recording w; frame_count := frame_count w;
     trace := trace w; dirs := dirs w; files := f |}.

(** ** Programs: state passing with exceptions *)

Inductive result (A : Type) :=
| Ok (a : A)
| Raise (e : exn).
Arguments Ok {A} a.
Arguments Raise {A} e.

Definition prog (A : Type) : Type := world -> result A * world.

Definition pure {A} (a : A) : prog A := fun w => (Ok a, w).

Definition bind {A B} (m : prog A) (f : A -> prog B) : prog B :=
  fun w =>
    match m w with
    | (Ok a, w') => f a w'
    | (Raise e, w') => (Raise e, w')
    end.

Declare Scope prog_scope.
Delimit Scope prog_scope with prog.
Bind Scope prog_scope with prog.
Notation "x <- m ; k" := (bind m (fun x => k))
  (at level 20, m at level 100, k at level 200, only parsing) : prog_scope.
Notation "m ;; k" := (bind m (fun _ => k))
  (at level 100, k at level 200, only parsing, right associativity) : prog_scope.
Local Open Scope prog_scope.

Definition raise {A} (e : exn) : prog A := fun w => (Raise e, w).

(** [try: body  except Exception as e: handler e] *)
Definition try_except {A} (body : prog A) (handler : exn -> prog A) : prog A :=
  fun w =>
    match body w with
    | (Ok a, w') => (Ok a, w')
    | (Raise e, w') => handler e w'
    end.

(** [try: body  finally: cleanup] *)
Definition try_finally {A} (body : prog A) (cleanup : prog unit) : prog A :=
  fun w =>
    match body w with
    | (Ok a, w') =>
        match cleanup w' with
        | (Ok _, w'') => (Ok a, w'')
        | (Raise e, w'') => (Raise e, w'')
        end
    | (Raise e, w') =>
        match cleanup w' with
        | (Ok _, w'') => (Raise e, w'')
        | (Raise e', w'') => (Raise e', w'')
        end
    end.

Definition act (e : event) : prog unit := fun w => (Ok tt, emit e w).

Definition output (m : message) : prog unit := act (Output m).

Definition modify (f : world -> world) : prog unit := fun w => (Ok tt, f w).

Definition gets {A} (f : world -> A) : prog A := fun w => (Ok (f w), w).

Definition when (b : bool) (p : prog unit) : prog unit :=
  if b then p else pure tt.

(** A call into the environment: the event is recorded, the oracle decides. *)
Definition call {A} (e : event) (r : io A) : prog A :=
  fun w =>
    match r with
    | Returns a => (Ok a, emit e w)
    | Raises x => (Raise x, emit e w)
    end.

(** ** Calls shared by the front-ends *)

Definition IMWRITE_JPEG_QUALITY : Z := 1.
Definition IMWRITE_PNG_COMPRESSION : Z := 16.

(** The PNG compression level derived from the quality setting. *)
Definition png_compression (image_quality : Z) : Z := 9 - image_quality / 10.

(** The encoder parameters both capture loops build before [cv2.imwrite]. *)
Definition encode_params (cfg : Config.t) : list Z :=
  if String.eqb (Str.lower (Config.image_format cfg)) "jpg" then
    [IMWRITE_JPEG_QUALITY; Config.image_quality cfg]
  else if String.eqb (Str.lower (Config.image_format cfg)) "png" then
    [IMWRITE_PNG_COMPRESSION; png_compression (Config.image_quality cfg)]
  else [].

(** The name both capture loops give to frame [frame_number]. *)
Definition image_filename (cfg : Config.t) (frame_number : N) : string :=
  Config.filename_prefix cfg +:+ "_" +:+ Str.format_06d frame_number +:+ "." +:+
  Config.image_format cfg.

(** The name of a session directory created at [now]. *)
Definition session_dirname (cfg : Config.t) (now : Clock.datetime) : string :=
  Config.filename_prefix cfg +:+ "_" +:+ Clock.strftime now.

(** [cv2.imwrite(filepath, frame, params)].  [frame_number] is the number the
    file name was built from; it is recorded with the event. *)
Definition cv2_imwrite (frame_number : N) (filepath : string) (params : list Z)
    (r : io bool) : prog bool :=
  fun w =>
    let w' := emit (Imwrite frame_number filepath params r) w in
    match r with
    | Returns true => (Ok true, set_files ({[filepath]} ∪ files w') w')
    | Returns false => (Ok false, w')
    | Raises e => (Raise e, w')
    end.

(** [Path(path).mkdir(parents=True, exist_ok=True)]: an existing directory
    is left as it is. *)
Definition mkdir (path : string) (r : io unit) : prog unit :=
  fun w =>
    match r with
    | Returns _ => (Ok tt, set_dirs ({[path]} ∪ dirs w) (emit (Mkdir path) w))
    | Raises e => (Raise e, emit (Mkdir path) w)
    end.

(** [a // b] *)
Definition floor_div (a b : Z) : prog Z :=
  if b =? 0 then raise ZeroDivisionError else pure (a / b).

(** [time.sleep(seconds)] rejects a negative argument. *)
Definition time_sleep (seconds : Z) : prog unit :=
  act (Sleep seconds);;
  if seconds <? 0 then raise ValueError else pure tt.

(** ** The directory listing *)

Fixpoint strip_prefix (p s : string) : option string :=
  match p, s with
  | EmptyString, _ => Some s
  | String a p', String b s' =>
      if Ascii.eqb a b then strip_prefix p' s' else None
  | String _ _, EmptyString => None
  end.

Fixpoint has_slash (s : string) : bool :=
  match s with
  | EmptyString => false
  | String c s' => Ascii.eqb c "/" || has_slash s'
  end.

(** The name under which [path] is an entry of directory [d], if it is one. *)
Definition entry_of (d path : string) : option string :=
  let base := if String.eqb d "" || Str.endswith d "/" then d else d +:+ "/" in
  match strip_prefix base path with
  | Some name =>
      if String.eqb name "" || has_slash name then None else Some name
  | None => None
  end.

(** [os.listdir(d)]: the names of the files and directories in [d], in the
    order the file system happens to give. *)
Definition listing (d : string) (w : world) : list string :=
  omap (entry_of d) (elements (files w ∪ dirs w)).

Definition listdir (d : string) : prog (list string) :=
  fun w =>
    if decide (d ∈ dirs w) then (Ok (listing d w), w) else (Raise OSError, w).

(** [sorted(names)]: strings compare by code point. *)
Definition sorted (names : list string) : list string :=
  merge_sort String.le names.

(** The files video assembly enumerates:
    [sorted([f for f in names if f.endswith("." + image_format)])]. *)
Definition image_files_of (image_format : string) (names : list string) : list string :=
  sorted (List.filter (fun f => Str.endswith f ("." +:+ image_format)) names).

(** ** Video assembly: the body shared by [create_video] and [_create_video] *)

Record video_env := {
  imread_result : string -> io bool;  (* [cv2.imread]: an image, [None] ([false]), or an exception *)
  writer_opened : bool;               (* the [VideoWriter] could create its file *)
  write_result : string -> io unit;   (* [video_writer.write] of the frame read from this path *)
  remove_result : string -> io unit   (* [os.remove] *)
}.

(** [cv2.imread(path)] *)
Definition cv2_imread (v : video_env) (path : string) : prog bool :=
  call (Imread path) (imread_result v path).

(** [cv2.VideoWriter(video_path, fourcc, fps, size)] *)
Definition open_writer (v : video_env) (video_path : string) (fps : Z) : prog unit :=
  fun w =>
    let w' := emit (WriterOpen video_path fps) w in
    (Ok tt, if writer_opened v then set_files ({[video_path]} ∪ files w') w' else w').

(** [video_writer.write(frame)] for the frame read from [image_path]: what the
    writer does with it, an image or [None], is the environment's. *)
Definition writer_write (v : video_env) (image_path : string) (frame : bool)
    : prog unit :=
  call (WriterWrite image_path) (write_result v image_path).

(** [image.shape]: [None] has no such attribute. *)
Definition image_shape (image : bool) : prog unit :=
  if image then pure tt else raise AttributeError.

(** [os.remove(path)] *)
Definition os_remove (v : video_env) (path : string) : prog unit :=
  fun w =>
    let w' := emit (Remove path) w in
    if decide (path ∈ files w) then
      match remove_result v path with
      | Returns _ => (Ok tt, set_files (files w' ∖ {[path]}) w')
      | Raises e => (Raise e, w')
      end
    else (Raise OSError, w').

(** [for i, image_file in enumerate(image_files)]: read, write, report.
    Progress is reported every [every]-th frame. *)
Fixpoint write_frames (v : video_env) (every total : nat) (output_dir : string)
    (i : nat) (image_files : list string) : prog unit :=
  match image_files with
  | [] => pure tt
  | image_file :: rest =>
      let image_path := Path.join output_dir image_file in
      frame <- cv2_imread v image_path;
      writer_write v image_path frame;;
      when (Nat.eqb (i mod every) 0) (output (VideoProgress (S i) total));;
      write_frames v every total output_dir (S i) rest
  end.

(** [for image_file in image_files: os.remove(os.path.join(output_dir, image_file))] *)
Fixpoint remove_images (v : video_env) (output_dir : string)
    (image_files : list string) : prog unit :=
  match image_files with
  | [] => pure tt
  | image_file :: rest =>
      os_remove v (Path.join output_dir image_file);;
      remove_images v output_dir rest
  end.

(** The statements of the [try] block of video assembly. *)
Definition assemble (cfg : Config.t) (v : video_env) (every : nat)
    (video_filename : string) (output_dir : string) : prog unit :=
  output CreatingVideo;;
  names <- listdir output_dir;
  let image_files := image_files_of (Config.image_format cfg) names in
  match image_files with
  | [] => output NoImagesFound
  | first :: _ =>
      first_image <- cv2_imread v (Path.join output_dir first);
      image_shape first_image;;
      let video_path := Path.join output_dir video_filename in
      open_writer v video_path (Config.video_fps cfg);;
      write_frames v every (List.length image_files) output_dir 0 image_files;;
      act WriterRelease;;
      output (VideoCreated video_path);;
      when (Config.cleanup_images cfg)
        (output CleaningImages;;
         remove_images v output_dir image_files;;
         output ImagesCleaned)
  end.

(** How a capture loop came to its end. *)
Inductive loop_exit :=
| Cancelled            (* [is_recording] was found false *)
| TimeLimit            (* the clock reached [end_time] *)
| FrameLimit           (* the frame counter reached its bound *)
| Raised (e : exn).    (* an exception left the loop body *)

Inductive loop_state :=
| Pending (w : world)                  (* the observation ends inside the loop *)
| Exited (by_ : loop_exit) (w : world).

(** A run of a front-end. *)
Inductive session :=
| NotStarted             (* the run ended before its capture loop *)
| Recording              (* the observation ends inside the loop *)
| Ended (by_ : loop_exit).

(** ** The command-line front-end: class [TimelapseCamera] *)

Module Camera.

Definition load_default_config : Config.t := {|
  Config.camera_index := 0;
  Config.interval_seconds := 5;
  Config.duration_minutes := 60;
  Config.width := 1920;
  Config.height := 1080;
  Config.output_dir := "./timelapse_output";
  Config.image_format := "jpg";
  Config.image_quality := 95;
  Config.filename_prefix := "timelapse";
  Config.auto_exposure := true;
  Config.brightness := 0;
  Config.contrast := 0;
  Config.saturation := 0;
  Config.create_video := true;
  Config.video_fps := 30;
  Config.video_format := "mp4";
  Config.cleanup_images := false;
  Config.preview_window := true;
  Config.use_time_limit := false;
  Config.recording_time_limit := Config.Unlimited
|}.

(** What the environment does during one iteration of the capture loop. *)
Record tick := {
  now : Z;             (* [datetime.now()] in the loop condition, seconds after [start_time] *)
  read : io bool;      (* [camera.read()]: the flag [ret] *)
  imwrite : io bool;   (* [cv2.imwrite] *)
  preview : io Z;      (* [resize], [putText], [imshow], then the key of [waitKey(1)] *)
  signal : bool        (* SIGINT or SIGTERM is delivered during the iteration *)
}.

(** The environment of one run of [start_recording]. *)
Record env := {
  camera_opened : io bool;           (* [VideoCapture(...)] and [isOpened()] *)
  started : Clock.datetime;          (* the clock when the directory is named *)
  mkdir_result : io unit;
  config_saved : io unit;            (* [open] and [json.dump] *)
  ticks : list tick;
  video : video_env
}.

(** [load_config]: [user_config] is the update the file's keys make. *)
Definition load_config (cfg : Config.t) (config_file : string)
    (r : io (Config.t -> Config.t)) : prog Config.t :=
  try_except
    (user_config <- call (JsonLoad config_file) r;
     output (ConfigLoaded config_file);;
     pure (user_config cfg))
    (fun e => output (ConfigLoadFailed e);; pure cfg).

Definition save_config (config_file : string) (r : io unit) : prog unit :=
  try_except
    (call (JsonDump config_file) r;;
     modify (fun w => set_files ({[config_file]} ∪ files w) w);;
     output (ConfigSaved config_file))
    (fun e => output (ConfigSaveFailed e)).

Definition initialize_camera (cfg : Config.t) (opened : io bool) : prog bool :=
  try_except
    (is_opened <- call (VideoCapture (Config.camera_index cfg)) opened;
     if negb is_opened then
       output (CannotOpenCamera (Config.camera_index cfg));; pure false
     else
       act (CameraSet FRAME_WIDTH (inject_Z (Config.width cfg)));;
       act (CameraSet FRAME_HEIGHT (inject_Z (Config.height cfg)));;
       when (negb (Config.auto_exposure cfg))
         (act (CameraSet AUTO_EXPOSURE (1 # 4)));;
       when (negb (Config.brightness cfg =? 0))
         (act (CameraSet BRIGHTNESS (Config.brightness cfg # 100)));;
       when (negb (Config.contrast cfg =? 0))
         (act (CameraSet CONTRAST (Config.contrast cfg # 100)));;
       when (negb (Config.saturation cfg =? 0))
         (act (CameraSet SATURATION (Config.saturation cfg # 100)));;
       output CameraReady;;
       pure true)
    (fun e => output (CameraInitFailed e);; pure false).

Definition create_output_directory (cfg : Config.t) (now : Clock.datetime)
    (r : io unit) : prog string :=
  let output_dir := Path.join (Config.output_dir cfg) (session_dirname cfg now) in
  mkdir output_dir r;;
  output (OutputDirCreated output_dir);;
  pure output_dir.

Definition capture_frame (cfg : Config.t) (tk : tick) (output_dir : string)
    (frame_number : N) : prog bool :=
  try_except
    (ret <- call CameraRead (read tk);
     if negb ret then
       output CannotReadFrame;; pure false
     else
       let filename := image_filename cfg frame_number in
       let filepath := Path.join output_dir filename in
       success <- cv2_imwrite frame_number filepath (encode_params cfg) (imwrite tk);
       if success then
         output (FrameSaved frame_number);;
         when (Config.preview_window cfg)
           (key <- call Preview (preview tk);
            when (Z.land key 255 =? 27)
              (output EscPressed;; modify (set_recording false)));;
         pure true
       else
         output (SaveFailed filepath);; pure false)
    (fun e => output (CaptureFailed e);; pure false).

Definition video_filename (cfg : Config.t) : string :=
  if String.eqb (Str.lower (Config.video_format cfg)) "mp4" then
    Config.filename_prefix cfg +:+ "_timelapse.mp4"
  else if String.eqb (Str.lower (Config.video_format cfg)) "avi" then
    Config.filename_prefix cfg +:+ "_timelapse.avi"
  else Config.filename_prefix cfg +:+ "_timelapse.mp4".

Definition create_video (cfg : Config.t) (v : video_env) (output_dir : string)
    : prog unit :=
  try_except
    (assemble cfg v 1 (video_filename cfg) output_dir)
    (fun e => output (VideoFailed e)).

Definition signal_handler : prog unit :=
  output SignalReceived;;
  modify (set_recording false).

Definition cleanup (cfg : Config.t) : prog unit :=
  modify (set_recording false);;
  act CameraRelease;;
  when (Config.preview_window cfg) (act DestroyAllWindows);;
  output ResourcesReleased.

(** The body of the [while] loop.  A signal handler runs between two
    instructions of the iteration; it only clears the flag, which the body
    does not read, so it is run once, before the sleep. *)
Definition iteration (cfg : Config.t) (output_dir : string) (tk : tick)
    : prog unit :=
  frame_number <- gets frame_count;
  saved <- capture_frame cfg tk output_dir frame_number;
  when saved (modify (fun w => set_frame_count (frame_count w + 1) w));;
  when (signal tk) signal_handler;;
  time_sleep (Config.interval_seconds cfg).

(** [while self.is_recording and datetime.now() < end_time: ...] *)
Fixpoint capture_loop (cfg : Config.t) (output_dir : string) (end_time : Z)
    (ticks : list tick) (w : world) {struct ticks} : loop_state :=
  if negb (is_recording w) then Exited Cancelled w
  else
    match ticks with
    | [] => Pending w
    | tk :: rest =>
        if negb (now tk <? end_time) then Exited TimeLimit w
        else
          match iteration cfg output_dir tk w with
          | (Ok _, w') => capture_loop cfg output_dir end_time rest w'
          | (Raise e, w') => Exited (Raised e) w'
          end
    end.

(** The statements after the loop, inside the [try]. *)
Definition after_loop (cfg : Config.t) (v : video_env) (output_dir : string)
    : prog bool :=
  frames <- gets frame_count;
  output (RecordingDone frames);;
  when (Config.create_video cfg && (0 <? frames)%N)
    (create_video cfg v output_dir);;
  pure true.

(** The statements before the loop, after the camera is initialised. *)
Definition before_loop (cfg : Config.t) (E : env) : prog string :=
  output_dir <- create_output_directory cfg (started E) (mkdir_result E);
  save_config (Path.join output_dir "config.json") (config_saved E);;
  modify (set_recording true);;
  modify (set_frame_count 0);;
  let total_seconds := Config.duration_minutes cfg * 60 in
  estimated_frames <- floor_div total_seconds (Config.interval_seconds cfg);
  output (RecordingStarted (Some estimated_frames));;
  pure output_dir.

(** [start_recording]: how the run ended, what it returned or raised, and
    the final state. *)
Definition start_recording (cfg : Config.t) (E : env) (w : world)
    : session * result bool * world :=
  match initialize_camera cfg (camera_opened E) w with
  | (Ok true, w1) =>
      match before_loop cfg E w1 with
      | (Ok output_dir, w2) =>
          let end_time := Config.duration_minutes cfg * 60 in
          match capture_loop cfg output_dir end_time (ticks E) w2 with
          | Pending w3 => (Recording, Ok true, w3)
          | Exited (Raised e) w3 =>
              let '(r, w4) := try_finally (raise e) (cleanup cfg) w3 in
              (Ended (Raised e), r, w4)
          | Exited by_ w3 =>
              let '(r, w4) :=
                try_finally (after_loop cfg (video E) output_dir) (cleanup cfg) w3 in
              (Ended by_, r, w4)
          end
      | (Raise e, w2) => (NotStarted, Raise e, w2)
      end
  | (Ok false, w1) => (NotStarted, Ok false, w1)
  | (Raise e, w1) => (NotStarted, Raise e, w1)
  end.

End Camera.

(** ** The graphical front-end: the recording worker of class [TimelapseGUI] *)

Module Gui.

(** The initial values of the GUI's configuration variables. *)
Definition default_config : Config.t := {|
  Config.camera_index := 0;
  Config.interval_seconds := 5;
  Config.duration_minutes := 60;
  Config.width := 1920;
  Config.height := 1080;
  Config.output_dir := "./timelapse_output";
  Config.image_format := "jpg";
  Config.image_quality := 95;
  Config.filename_prefix := "timelapse";
  Config.auto_exposure := true;
  Config.brightness := 0;
  Config.contrast := 0;
  Config.saturation := 0;
  Config.create_video := true;
  Config.video_fps := 30;
  Config.video_format := "mp4";
  Config.cleanup_images := true;
  Config.preview_window := false;
  Config.use_time_limit := false;
  Config.recording_time_limit := Config.Unlimited
|}.

(** What the environment does during one iteration of the worker's loop. *)
Record tick := {
  now : Z;                  (* [datetime.now()] in the loop condition, seconds after [start_time] *)
  read : io bool;           (* [recording_camera.read()]: the flag [ret] *)
  imwrite : io bool;        (* [cv2.imwrite] *)
  gui_thread : option bool  (* the last value the GUI thread stores in
                               [is_recording] during the iteration:
                               [stop_recording] and [on_closing] store
                               [false], [start_recording] stores [true] *)
}.

Record env := {
  camera_opened : io bool;
  started : Clock.datetime;
  mkdir_result : io unit;
  config_saved : io unit;
  ticks : list tick;
  video : video_env
}.

Definition video_filename (cfg : Config.t) : string :=
  if String.eqb (Str.lower (Config.video_format cfg)) "mp4" then
    Config.filename_prefix cfg +:+ "_timelapse.mp4"
  else Config.filename_prefix cfg +:+ "_timelapse.avi".

Definition _create_video (cfg : Config.t) (v : video_env) (output_dir : string)
    : prog unit :=
  try_except
    (assemble cfg v 5 (video_filename cfg) output_dir)
    (fun e => output (VideoFailed e)).

(** [end_time], in seconds after [start_time] ([None] is no limit), with the
    messages that announce the recording. *)
Definition end_time_of (cfg : Config.t) : prog (option Z) :=
  if Config.use_time_limit cfg then
    match Config.recording_time_limit cfg with
    | Config.Minutes minutes =>
        let total_seconds := minutes * 60 in
        estimated_frames <- floor_div total_seconds (Config.interval_seconds cfg);
        output (RecordingStarted (Some estimated_frames));;
        pure (Some total_seconds)
    | Config.Unlimited => output (RecordingStarted None);; pure None
    | Config.Malformed => raise ValueError
    end
  else output (RecordingStarted None);; pure None.

(** [recording_camera = cv2.VideoCapture(...)] and [isOpened()]. *)
Definition open_camera (cfg : Config.t) (E : env) : prog bool :=
  call (VideoCapture (Config.camera_index cfg)) (camera_opened E).

(** The statements of the worker between opening the camera and its loop;
    [None] is the early [return] taken when the camera is not opened. *)
Definition before_loop (cfg : Config.t) (E : env) (is_opened : bool)
    : prog (option (string * option Z)) :=
  if negb is_opened then
    output (CannotOpenCamera (Config.camera_index cfg));; pure None
  else
    act (CameraSet FRAME_WIDTH (inject_Z (Config.width cfg)));;
    act (CameraSet FRAME_HEIGHT (inject_Z (Config.height cfg)));;
    when (negb (Config.auto_exposure cfg))
      (act (CameraSet AUTO_EXPOSURE (1 # 4)));;
    act (CameraSet BRIGHTNESS (Config.brightness cfg # 100));;
    act (CameraSet CONTRAST (Config.contrast cfg # 100));;
    act (CameraSet SATURATION (Config.saturation cfg # 100));;
    let output_dir :=
      Path.join (Config.output_dir cfg) (session_dirname cfg (started E)) in
    mkdir output_dir (mkdir_result E);;
    output (OutputDirCreated output_dir);;
    let config_path := Path.join output_dir "config.json" in
    call (JsonDump config_path) (config_saved E);;
    modify (fun w => set_files ({[config_path]} ∪ files w) w);;
    modify (set_recording true);;
    modify (set_frame_count 0);;
    end_time <- end_time_of cfg;
    pure (Some (output_dir, end_time)).

(** A store into [is_recording] by the GUI thread. *)
Definition gui_store (b : option bool) : prog unit :=
  match b with
  | Some b => act (FlagWritten b);; modify (set_recording b)
  | None => pure tt
  end.

(** The body of the worker's [while] loop.  The GUI thread's store is placed
    before the sleep: the body does not read the flag. *)
Definition iteration (cfg : Config.t) (output_dir : string) (tk : tick)
    : prog unit :=
  ret <- call CameraRead (read tk);
  (if ret then
     frame_number <- gets frame_count;
     let filename := image_filename cfg frame_number in
     let filepath := Path.join output_dir filename in
     success <- cv2_imwrite frame_number filepath (encode_params cfg) (imwrite tk);
     if success then
       modify (fun w => set_frame_count (frame_count w + 1) w);;
       logged <- gets frame_count;
       output (FrameSaved logged)
     else output (SaveFailed filepath)
   else output CannotReadFrame);;
  gui_store (gui_thread tk);;
  time_sleep (Config.interval_seconds cfg).

(** [while self.is_recording and (end_time is None or datetime.now() < end_time): ...] *)
Fixpoint capture_loop (cfg : Config.t) (output_dir : string) (end_time : option Z)
    (ticks : list tick) (w : world) {struct ticks} : loop_state :=
  if negb (is_recording w) then Exited Cancelled w
  else
    match ticks with
    | [] => Pending w
    | tk :: rest =>
        if negb (match end_time with
                 | None => true
                 | Some t => now tk <? t
                 end)
        then Exited TimeLimit w
        else
          match iteration cfg output_dir tk w with
          | (Ok _, w') => capture_loop cfg output_dir end_time rest w'
          | (Raise e, w') => Exited (Raised e) w'
          end
    end.

Definition after_loop (cfg : Config.t) (v : video_env) (output_dir : string)
    : prog unit :=
  frames <- gets frame_count;
  output (RecordingDone frames);;
  when (Config.create_video cfg && (0 <? frames)%N)
    (_create_video cfg v output_dir).

(** The [finally] block of the worker; [camera] tells whether
    [recording_camera] was assigned. *)
Definition release (camera : bool) : prog unit :=
  modify (set_recording false);;
  when camera (act CameraRelease).

(** The [except Exception] clause of the worker. *)
Definition on_error (e : exn) : prog unit := output (RecordingError e).

(** [_recording_worker]: how the run ended and the final state.  The worker
    returns nothing and lets no exception out. *)
Definition _recording_worker (cfg : Config.t) (E : env) (w : world)
    : session * world :=
  match open_camera cfg E w with
  | (Ok is_opened, w0) =>
      match before_loop cfg E is_opened w0 with
      | (Ok (Some (output_dir, end_time)), w1) =>
          match capture_loop cfg output_dir end_time (ticks E) w1 with
          | Pending w2 => (Recording, w2)
          | Exited (Raised e) w2 =>
              (Ended (Raised e),
               snd (try_finally (on_error e) (release true) w2))
          | Exited by_ w2 =>
              (Ended by_,
               snd (try_finally
                      (try_except (after_loop cfg (video E) output_dir) on_error)
                      (release true) w2))
          end
      | (Ok None, w1) =>
          (NotStarted, snd (try_finally (pure tt) (release true) w1))
      | (Raise e, w1) =>
          (NotStarted, snd (try_finally (on_error e) (release true) w1))
      end
  | (Raise e, w0) =>
      (NotStarted, snd (try_finally (on_error e) (release false) w0))
  end.

End Gui.

(** ** The smoke test: [test_short_timelapse] *)

Module SmokeTest.

Definition interval : Z := 2.
Definition total_frames : nat := 5.

Record tick := {
  read : io bool;
  imwrite : io bool
}.

Record env := {
  camera_opened : io bool;
  started : Clock.datetime;
  mkdir_result : io unit;
  ticks : list tick
}.

(** [f"frame_{i+1:03d}.jpg"] *)
Definition frame_filename (i : nat) : string :=
  "frame_" +:+ Str.zero_padded 3 (N.of_nat (i + 1)) +:+ ".jpg".

(** The body of [for i in range(total_frames)]. *)
Definition iteration (output_dir : string) (i : nat) (tk : tick) : prog unit :=
  ret <- call CameraRead (read tk);
  (if ret then
     let filename := frame_filename i in
     let filepath := Path.join output_dir filename in
     success <- cv2_imwrite (N.of_nat (i + 1)) filepath [] (imwrite tk);
     if success then output (SmokeFrameSaved (i + 1))
     else output (SmokeSaveFailed (i + 1))
   else output (SmokeReadFailed (i + 1)));;
  when (i <? total_frames - 1)%nat (time_sleep interval).

Fixpoint capture_loop (output_dir : string) (i : nat) (ticks : list tick)
    (w : world) {struct ticks} : loop_state :=
  if (total_frames <=? i)%nat then Exited FrameLimit w
  else
    match ticks with
    | [] => Pending w
    | tk :: rest =>
        match iteration output_dir i tk w with
        | (Ok _, w') => capture_loop output_dir (S i) rest w'
        | (Raise e, w') => Exited (Raised e) w'
        end
    end.

Definition before_loop (E : env) : prog (option string) :=
  is_opened <- call (VideoCapture 0) (camera_opened E);
  if negb is_opened then
    output (CannotOpenCamera 0);; pure None
  else
    let output_dir := "./test_output/timelapse_test_" +:+ Clock.strftime (started E) in
    mkdir output_dir (mkdir_result E);;
    pure (Some output_dir).

Definition after_loop : prog bool :=
  act CameraRelease;;
  output SmokeDone;;
  pure true.

Definition test_short_timelapse (E : env) (w : world)
    : session * result bool * world :=
  match before_loop E w with
  | (Ok (Some output_dir), w1) =>
      match capture_loop output_dir 0 (ticks E) w1 with
      | Pending w2 => (Recording, Ok true, w2)
      | Exited (Raised e) w2 => (Ended (Raised e), Raise e, w2)
      | Exited by_ w2 =>
          let '(r, w3) := after_loop w2 in (Ended by_, r, w3)
      end
  | (Ok None, w1) => (NotStarted, Ok false, w1)
  | (Raise e, w1) => (NotStarted, Raise e, w1)
  end.

End SmokeTest.

(** ** Observations on a trace *)

(** The frame numbers of the image files written successfully, in order. *)
Definition saved_frame (e : event) : option N :=
  match e with
  | Imwrite n _ _ (Returns true) => Some n
  | _ => None
  end.

Definition saved_frames (tr : list event) : list N := omap saved_frame tr.

(** The paths of the image files written successfully, with their numbers. *)
Definition saved_file (e : event) : option (N * string) :=
  match e with
  | Imwrite n path _ (Returns true) => Some (n, path)
  | _ => None
  end.

Definition saved_files (tr : list event) : list (N * string) := omap saved_file tr.

(** The frames handed to the video writer, in order. *)
Definition written_frame (e : event) : option string :=
  match e with
  | WriterWrite path => Some path
  | _ => None
  end.

Definition written_frames (tr : list event) : list string := omap written_frame tr.

Definition writer_opening (e : event) : option string :=
  match e with
  | WriterOpen path _ => Some path
  | _ => None
  end.

Definition writers_opened (tr : list event) : list string := omap writer_opening tr.

Definition removal (e : event) : option string :=
  match e with
  | Remove path => Some path
  | _ => None
  end.

Definition removals (tr : list event) : list string := omap removal tr.

Definition printed (e : event) : option message :=
  match e with
  | Output m => Some m
  | _ => None
  end.

Definition messages (tr : list event) : list message := omap printed tr.

(** Video assembly was entered: its first statement announces it. *)
Definition video_invoked (tr : list event) : Prop := Output CreatingVideo ∈ tr.

(** The steps of the capture algorithm a trace goes through. *)
Inductive step :=
| OpenDevice
| SetProperty (p : cam_prop)
| ReadFrame
| WriteFile
| DoSleep
| EncodeVideo.

Definition step_of (e : event) : option step :=
  match e with
  | VideoCapture _ => Some OpenDevice
  | CameraSet p _ => Some (SetProperty p)
  | CameraRead => Some ReadFrame
  | Imwrite _ _ _ _ => Some WriteFile
  | Sleep _ => Some DoSleep
  | Output CreatingVideo => Some EncodeVideo
  | _ => None
  end.

Definition steps (tr : list event) : list step := omap step_of tr.




(** The algorithm as the front-ends run it: the properties set depend on the
    front-end and the configuration; an iteration writes only when the read
    gave a frame. *)
Definition iteration_steps (write : bool) : list step :=
  [ReadFrame] ++ (if write then [WriteFile] else []) ++ [DoSleep].

Definition run_steps (props : list cam_prop) (writes : list bool) (encode : bool)
    : list step :=
  [OpenDevice] ++ map SetProperty props ++ List.concat (map iteration_steps writes) ++
  (if encode then [EncodeVideo] else []).

Definition cli_properties (cfg : Config.t) : list cam_prop :=
  [FRAME_WIDTH; FRAME_HEIGHT] ++
  (if Config.auto_exposure cfg then [] else [AUTO_EXPOSURE]) ++
  (if Config.brightness cfg =? 0 then [] else [BRIGHTNESS]) ++
  (if Config.contrast cfg =? 0 then [] else [CONTRAST]) ++
  (if Config.saturation cfg =? 0 then [] else [SATURATION]).

Definition gui_properties (cfg : Config.t) : list cam_prop :=
  [FRAME_WIDTH; FRAME_HEIGHT] ++
  (if Config.auto_exposure cfg then [] else [AUTO_EXPOSURE]) ++
  [BRIGHTNESS; CONTRAST; SATURATION].

(** A world before any run: nothing recorded, an empty file system. *)
Definition initial_world : world := {|
  is_recording := false;
  frame_count := 0;
  trace := [];
  dirs := ∅;
  files := ∅
|}.

(** The state a loop was last seen in. *)
Definition final (st : loop_state) : world :=
  match st with
  | Pending w => w
  | Exited _ w => w
  end.

(** [n], [n + 1], ... : [k] consecutive frame numbers. *)
Fixpoint count_from (n : N) (k : nat) : list N :=
  match k with
  | O => []
  | S k' => n :: count_from (n + 1) k'
  end.

(** The events of [w'] that follow those of [w]. *)
Definition events_since (w w' : world) : list event :=
  drop (List.length (trace w)) (trace w').

(** ** Configurations and environments used as examples *)

Definition with_image (image_format : string) (image_quality : Z)
    (cfg : Config.t) : Config.t := {|
  Config.camera_index := Config.camera_index cfg;
  Config.interval_seconds := Config.interval_seconds cfg;
  Config.duration_minutes := Config.duration_minutes cfg;
  Config.width := Config.width cfg;
  Config.height := Config.height cfg;
  Config.output_dir := Config.output_dir cfg;
  Config.image_format := image_format;
  Config.image_quality := image_quality;
  Config.filename_prefix := Config.filename_prefix cfg;
  Config.auto_exposure := Config.auto_exposure cfg;
  Config.brightness := Config.brightness cfg;
  Config.contrast := Config.contrast cfg;
  Config.saturation := Config.saturation cfg;
  Config.create_video := Config.create_video cfg;
  Config.video_fps := Config.video_fps cfg;
  Config.video_format := Config.video_format cfg;
  Config.cleanup_images := Config.cleanup_images cfg;
  Config.preview_window := Config.preview_window cfg;
  Config.use_time_limit := Config.use_time_limit cfg;
  Config.recording_time_limit := Config.recording_time_limit cfg
|}.

Definition with_interval (interval_seconds : Z) (cfg : Config.t) : Config.t := {|
  Config.camera_index := Config.camera_index cfg;
  Config.interval_seconds := interval_seconds;
  Config.duration_minutes := Config.duration_minutes cfg;
  Config.width := Config.width cfg;
  Config.height := Config.height cfg;
  Config.output_dir := Config.output_dir cfg;
  Config.image_format := Config.image_format cfg;
  Config.image_quality := Config.image_quality cfg;
  Config.filename_prefix := Config.filename_prefix cfg;
  Config.auto_exposure := Config.auto_exposure cfg;
  Config.brightness := Config.brightness cfg;
  Config.contrast := Config.contrast cfg;
  Config.saturation := Config.saturation cfg;
  Config.create_video := Config.create_video cfg;
  Config.video_fps := Config.video_fps cfg;
  Config.video_format := Config.video_format cfg;
  Config.cleanup_images := Config.cleanup_images cfg;
  Config.preview_window := Config.preview_window cfg;
  Config.use_time_limit := Config.use_time_limit cfg;
  Config.recording_time_limit := Config.recording_time_limit cfg
|}.


(** 20 January 2025, 09:05:07. *)
Definition a_morning : Clock.datetime := {|
  Clock.year := 2025; Clock.month := 1; Clock.day := 20;
  Clock.hour := 9; Clock.minute := 5; Clock.second := 7
|}.

(** A file system in which every image decodes, every frame is accepted and
    every removal succeeds. *)
Definition video_ok : video_env := {|
  imread_result := fun _ => Returns true;
  writer_opened := true;
  write_result := fun _ => Returns tt;
  remove_result := fun _ => Returns tt
|}.

(** An iteration at clock [t] in which the camera, the codec and the preview
    window work and no key is pressed. *)
Definition cli_tick (t : Z) : Camera.tick := {|
  Camera.now := t;
  Camera.read := Returns true;
  Camera.imwrite := Returns true;
  Camera.preview := Returns (-1);
  Camera.signal := false
|}.

(** The same, on a build of the library without window support: [imshow] raises. *)
Definition cli_tick_no_window (t : Z) : Camera.tick := {|
  Camera.now := t;
  Camera.read := Returns true;
  Camera.imwrite := Returns true;
  Camera.preview := Raises CvError;
  Camera.signal := false
|}.

(** The same as [cli_tick], with the Escape key pressed in the preview window. *)
Definition cli_tick_esc (t : Z) : Camera.tick := {|
  Camera.now := t;
  Camera.read := Returns true;
  Camera.imwrite := Returns true;
  Camera.preview := Returns 27;
  Camera.signal := false
|}.

Definition cli_env (ticks : list Camera.tick) : Camera.env := {|
  Camera.camera_opened := Returns true;
  Camera.started := a_morning;
  Camera.mkdir_result := Returns tt;
  Camera.config_saved := Returns tt;
  Camera.ticks := ticks;
  Camera.video := video_ok
|}.

Definition gui_tick (t : Z) : Gui.tick := {|
  Gui.now := t;
  Gui.read := Returns true;
  Gui.imwrite := Returns true;
  Gui.gui_thread := None
|}.


(** An iteration in which [cv2.imwrite] raises. *)
Definition gui_tick_write_raises (t : Z) : Gui.tick := {|
  Gui.now := t;
  Gui.read := Returns true;
  Gui.imwrite := Raises CvError;
  Gui.gui_thread := None
|}.

Definition gui_env (ticks : list Gui.tick) : Gui.env := {|
  Gui.camera_opened := Returns true;
  Gui.started := a_morning;
  Gui.mkdir_result := Returns tt;
  Gui.config_saved := Returns tt;
  Gui.ticks := ticks;
  Gui.video := video_ok
|}.

Definition smoke_tick : SmokeTest.tick := {|
  SmokeTest.read := Returns true;
  SmokeTest.imwrite := Returns true
|}.

Definition smoke_env (ticks : list SmokeTest.tick) : SmokeTest.env := {|
  SmokeTest.camera_opened := Returns true;
  SmokeTest.started := a_morning;
  SmokeTest.mkdir_result := Returns tt;
  SmokeTest.ticks := ticks
|}.

(** ** The capture loop of a run, when the run reaches it *)

Definition cli_session_loop (cfg : Config.t) (E : Camera.env) (w : world)
    : option loop_state :=
  match Camera.initialize_camera cfg (Camera.camera_opened E) w with
  | (Ok true, w1) =>
      match Camera.before_loop cfg E w1 with
      | (Ok output_dir, w2) =>
          Some (Camera.capture_loop cfg output_dir
                  (Config.duration_minutes cfg * 60) (Camera.ticks E) w2)
      | (Raise _, _) => None
      end
  | _ => None
  end.

Definition gui_session_loop (cfg : Config.t) (E : Gui.env) (w : world)
    : option loop_state :=
  match Gui.open_camera cfg E w with
  | (Ok is_opened, w0) =>
      match Gui.before_loop cfg E is_opened w0 with
      | (Ok (Some (output_dir, end_time)), w1) =>
          Some (Gui.capture_loop cfg output_dir end_time (Gui.ticks E) w1)
      | _ => None
      end
  | (Raise _, _) => None
  end.


(** How a run ended, read off its capture loop. *)
Definition session_of (loop : option loop_state) : session :=
  match loop with
  | None => NotStarted
  | Some (Pending _) => Recording
  | Some (Exited by_ _) => Ended by_
  end.

(** The preview of the command line cannot fail in this iteration: it is
    switched off, or its calls return. *)
Definition preview_returns (cfg : Config.t) (tk : Camera.tick) : Prop :=
  Config.preview_window cfg = false \/ exists key, Camera.preview tk = Returns key.


(** ** Reading video assembly off its inputs *)

(** The files the frame loop calls the writer for: those in front of the
    first call that raises, and the file of that call when it is the write. *)
Fixpoint frames_handed (v : video_env) (d : string) (fs : list string)
    : list string :=
  match fs with
  | [] => []
  | f :: rest =>
      match imread_result v (Path.join d f) with
      | Raises _ => []
      | Returns _ =>
          f :: match write_result v (Path.join d f) with
               | Raises _ => []
               | Returns _ => frames_handed v d rest
               end
      end
  end.

(** The first call of the frame loop that raises, and its exception. *)
Fixpoint first_failure (v : video_env) (d : string) (fs : list string)
    : option (event * exn) :=
  match fs with
  | [] => None
  | f :: rest =>
      match imread_result v (Path.join d f) with
      | Raises e => Some (Imread (Path.join d f), e)
      | Returns _ =>
          match write_result v (Path.join d f) with
          | Raises e => Some (WriterWrite (Path.join d f), e)
          | Returns _ => first_failure v d rest
          end
      end
  end.

(** The files video assembly calls the writer for: none unless the first
    image could be read for its size. *)
Definition frames_written (v : video_env) (d : string) (fs : list string)
    : list string :=
  match fs with
  | [] => []
  | first :: _ =>
      match imread_result v (Path.join d first) with
      | Returns true => frames_handed v d fs
      | _ => []
      end
  end.

(** The exception that stops the encoding of the enumerated files, if any:
    that of reading the first image, that of taking the size of [None], or
    the first one of the frame loop. *)
Definition encoding_failure (v : video_env) (d : string) (fs : list string)
    : option exn :=
  match fs with
  | [] => None
  | first :: _ =>
      match imread_result v (Path.join d first) with
      | Raises e => Some e
      | Returns false => Some AttributeError
      | Returns true => option_map snd (first_failure v d fs)
      end
  end.

(** Video assembly ran to its end: it announced the video and reported no
    failure. *)
Definition assembly_succeeded (l : list event) : Prop :=
  (exists path, Output (VideoCreated path) ∈ l) /\
  forall e, Output (VideoFailed e) ∉ l.

(** The events of the frame loop of video assembly. *)
Definition frame_event (e : event) : bool :=
  match e with
  | Imread _ | WriterWrite _ | Output (VideoProgress _ _) => true
  | _ => false
  end.

(** The events of the clean-up loop of video assembly. *)
Definition removal_event (e : event) : bool :=
  match e with
  | Remove _ => true
  | _ => false
  end.

(** Nothing but the trace differs between two worlds. *)
Definition same_state (w w' : world) : Prop :=
  files w' = files w /\ dirs w' = dirs w /\
  frame_count w' = frame_count w /\ is_recording w' = is_recording w.

(** Nothing but the trace and the files differs between two worlds. *)
Definition same_program_state (w w' : world) : Prop :=
  dirs w' = dirs w /\ frame_count w' = frame_count w /\
  is_recording w' = is_recording w.

(** A session directory after two frames were saved: the configuration, the
    two images and a file that does not belong to the session. *)
Definition a_session_directory : world := {|
  is_recording := false;
  frame_count := 2;
  trace := [];
  dirs := {[ "out" ]};
  files := {[ "out/config.json"; "out/timelapse_000001.jpg";
              "out/timelapse_000000.jpg"; "out/notes.txt" ]}
|}.








(** The ways video assembly under its handler can go in a directory that
    exists.  Every one of them returns normally. *)
Inductive assembly_run (cfg : Config.t) (v : video_env) (name d : string)
    (w w' : world) (l : list event) : Prop :=
| NoImages :
    image_files_of (Config.image_format cfg) (listing d w) = [] ->
    l = [Output CreatingVideo; Output NoImagesFound] ->
    files w' = files w ->
    assembly_run cfg v name d w w' l
| FirstImageFails (first : string) (rest : list string) (e : exn) :
    image_files_of (Config.image_format cfg) (listing d w) = first :: rest ->
    encoding_failure v d (first :: rest) = Some e ->
    frames_written v d (first :: rest) = [] ->
    l = [Output CreatingVideo; Imread (Path.join d first); Output (VideoFailed e)] ->
    files w' = files w ->
    assembly_run cfg v name d w w' l
| FrameLoopFails (fs lw : list string) (lf : list event) (e : exn) :
    image_files_of (Config.image_format cfg) (listing d w) = fs ->
    encoding_failure v d fs = Some e ->
    frames_written v d fs = lw ->
    Forall (fun e => frame_event e = true) lf ->
    written_frames lf = map (Path.join d) lw ->
    l = [Output CreatingVideo; Imread (Path.join d (List.hd "" fs));
         WriterOpen (Path.join d name) (Config.video_fps cfg)] ++ lf ++
        [Output (VideoFailed e)] ->
    files w' = (if writer_opened v then {[Path.join d name]} else ∅) ∪ files w ->
    assembly_run cfg v name d w w' l
| Encoded (fs : list string) (lf : list event) :
    image_files_of (Config.image_format cfg) (listing d w) = fs ->
    fs <> [] ->
    encoding_failure v d fs = None ->
    Config.cleanup_images cfg = false ->
    Forall (fun e => frame_event e = true) lf ->
    written_frames lf = map (Path.join d) fs ->
    l = [Output CreatingVideo; Imread (Path.join d (List.hd "" fs));
         WriterOpen (Path.join d name) (Config.video_fps cfg)] ++ lf ++
        [WriterRelease; Output (VideoCreated (Path.join d name))] ->
    files w' = (if writer_opened v then {[Path.join d name]} else ∅) ∪ files w ->
    assembly_run cfg v name d w w' l
| EncodedAndCleaned (fs : list string) (lf lr : list event) (done : option exn) :
    image_files_of (Config.image_format cfg) (listing d w) = fs ->
    fs <> [] ->
    encoding_failure v d fs = None ->
    Config.cleanup_images cfg = true ->
    Forall (fun e => frame_event e = true) lf ->
    written_frames lf = map (Path.join d) fs ->
    Forall (fun e => removal_event e = true) lr ->
    l = [Output CreatingVideo; Imread (Path.join d (List.hd "" fs));
         WriterOpen (Path.join d name) (Config.video_fps cfg)] ++ lf ++
        [WriterRelease; Output (VideoCreated (Path.join d name));
         Output CleaningImages] ++ lr ++
        [Output (match done with
                 | None => ImagesCleaned
                 | Some e => VideoFailed e
                 end)] ->
    files w' ⊆ (if writer_opened v then {[Path.join d name]} else ∅) ∪ files w ->
    (forall p, p ∈ files w -> p ∉ map (Path.join d) fs -> p ∈ files w') ->
    (done = None ->
     removals lr = map (Path.join d) fs /\
     files w'
     = ((if writer_opened v then {[Path.join d name]} else ∅) ∪ files w)
       ∖ list_to_set (map (Path.join d) fs)) ->
    assembly_run cfg v name d w w' l.

(** ** The phases of a run *)

(** The events of the statements in front of a capture loop: opening and
    configuring the camera, creating the directory, saving the configuration. *)
Definition setup_event (e : event) : bool :=
  match e with
  | VideoCapture _ | CameraSet _ _ | Mkdir _ | JsonDump _ => true
  | Output (CannotOpenCamera _) | Output CameraReady | Output (CameraInitFailed _)
  | Output (OutputDirCreated _) | Output (ConfigSaved _)
  | Output (ConfigSaveFailed _) | Output (RecordingStarted _) => true
  | _ => false
  end.

(** The events of the iterations of a capture loop. *)
Definition capture_event (e : event) : bool :=
  match e with
  | CameraRead | Imwrite _ _ _ _ | Preview | Sleep _ | FlagWritten _ => true
  | Output CannotReadFrame | Output (FrameSaved _) | Output (SaveFailed _)
  | Output (CaptureFailed _) | Output EscPressed | Output SignalReceived
  | Output (SmokeFrameSaved _) | Output (SmokeSaveFailed _)
  | Output (SmokeReadFailed _) => true
  | _ => false
  end.

(** The events of the statements behind a capture loop: the summary, video
    assembly, the error report and the release of the camera. *)
Definition closing_event (e : event) : bool :=
  match e with
  | Imread _ | WriterOpen _ _ | WriterWrite _ | WriterRelease | Remove _
  | CameraRelease | DestroyAllWindows => true
  | Output (RecordingDone _) | Output (RecordingError _) | Output CreatingVideo
  | Output NoImagesFound | Output (VideoProgress _ _) | Output (VideoCreated _)
  | Output CleaningImages | Output ImagesCleaned | Output (VideoFailed _)
  | Output ResourcesReleased | Output SmokeDone => true
  | _ => false
  end.

(** The number of frames read from the camera. *)
Definition camera_read (e : event) : option unit :=
  match e with
  | CameraRead => Some tt
  | _ => None
  end.

Definition camera_reads (tr : list event) : nat := List.length (omap camera_read tr).

(** The seconds slept, in order. *)
Definition sleep_of (e : event) : option Z :=
  match e with
  | Sleep s => Some s
  | _ => None
  end.

Definition sleeps (tr : list event) : list Z := omap sleep_of tr.

(** The clock advances by at least [interval] from one evaluation of the loop
    condition to the next, as it does when [time.sleep(interval)] lies between
    them, and the first evaluation is not before [from]. *)
Fixpoint clock_paced (interval from : Z) (nows : list Z) : Prop :=
  match nows with
  | [] => True
  | t :: rest => from <= t /\ clock_paced interval (t + interval) rest
  end.

(** The GUI configuration with a recording time limit of [m] minutes chosen. *)
Definition with_time_limit (m : Z) (cfg : Config.t) : Config.t := {|
  Config.camera_index := Config.camera_index cfg;
  Config.interval_seconds := Config.interval_seconds cfg;
  Config.duration_minutes := Config.duration_minutes cfg;
  Config.width := Config.width cfg;
  Config.height := Config.height cfg;
  Config.output_dir := Config.output_dir cfg;
  Config.image_format := Config.image_format cfg;
  Config.image_quality := Config.image_quality cfg;
  Config.filename_prefix := Config.filename_prefix cfg;
  Config.auto_exposure := Config.auto_exposure cfg;
  Config.brightness := Config.brightness cfg;
  Config.contrast := Config.contrast cfg;
  Config.saturation := Config.saturation cfg;
  Config.create_video := Config.create_video cfg;
  Config.video_fps := Config.video_fps cfg;
  Config.video_format := Config.video_format cfg;
  Config.cleanup_images := Config.cleanup_images cfg;
  Config.preview_window := Config.preview_window cfg;
  Config.use_time_limit := true;
  Config.recording_time_limit := Config.Minutes m
|}.

(** ** The smoke test *)

(** Neither the read nor the write of this iteration raises. *)
Definition smoke_tick_returns (tk : SmokeTest.tick) : Prop :=
  (exists ret, SmokeTest.read tk = Returns ret) /\
  (exists success, SmokeTest.imwrite tk = Returns success).

(** An iteration of the smoke test in which the camera gives no frame. *)
Definition smoke_tick_no_frame : SmokeTest.tick := {|
  SmokeTest.read := Returns false;
  SmokeTest.imwrite := Returns true
|}.

(** An iteration of the smoke test in which the read raises. *)
Definition smoke_tick_read_raises : SmokeTest.tick := {|
  SmokeTest.read := Raises CvError;
  SmokeTest.imwrite := Returns true
|}.



(** ** Runs that remove nothing *)

(** From [w] to [w'] no removal was attempted, every directory and file of
    [w] is still there, and so is every image file written in between. *)
Definition keeps_files (w w' : world) : Prop :=
  exists l, trace w' = trace w ++ l /\ removals l = [] /\
    files w ⊆ files w' /\ dirs w ⊆ dirs w' /\
    forall n p, (n, p) ∈ saved_files l -> p ∈ files w'.

Definition keeping {A} (m : prog A) : Prop :=
  forall w, keeps_files w (snd (m w)).

(** ** The GUI's configuration files *)

Module GuiConfig.

(** What [json.load] returns, and what a variable of [self.config] holds. *)
Inductive value :=
| Null
| Bool (b : bool)
| Int (z : Z)
| Float (q : Q)
| Text (s : string)
| Array (l : list value)
| Dict (items : list (string * value)).

(** The keys of [self.config], in the order of the dictionary display that
    creates it; no statement of the program adds or deletes a key. *)
Definition keys : list string :=
  ["camera_index"; "interval_seconds"; "duration_minutes"; "width"; "height";
   "output_dir"; "image_format"; "image_quality"; "filename_prefix";
   "brightness"; "contrast"; "saturation"; "create_video"; "video_fps";
   "video_format"; "cleanup_images"; "auto_exposure"; "recording_time_limit";
   "use_time_limit"].

(** [key in self.config] *)
Definition key_in_config (key : string) : bool :=
  existsb (String.eqb key) keys.

(** The value of each variable of [self.config], by key. *)
Definition t : Type := string -> value.

(** The values the variables are created with. *)
Definition initial : t := fun key =>
  if String.eqb key "camera_index" then Int 0
  else if String.eqb key "interval_seconds" then Float (5 # 1)
  else if String.eqb key "duration_minutes" then Float (60 # 1)
  else if String.eqb key "width" then Int 1920
  else if String.eqb key "height" then Int 1080
  else if String.eqb key "output_dir" then Text "./timelapse_output"
  else if String.eqb key "image_format" then Text "jpg"
  else if String.eqb key "image_quality" then Int 95
  else if String.eqb key "filename_prefix" then Text "timelapse"
  else if String.eqb key "brightness" then Int 0
  else if String.eqb key "contrast" then Int 0
  else if String.eqb key "saturation" then Int 0
  else if String.eqb key "create_video" then Bool true
  else if String.eqb key "video_fps" then Int 30
  else if String.eqb key "video_format" then Text "mp4"
  else if String.eqb key "cleanup_images" then Bool true
  else if String.eqb key "auto_exposure" then Bool true
  else if String.eqb key "recording_time_limit" then Text "无限制"
  else if String.eqb key "use_time_limit" then Bool false
  else Null.

(** [self.config[key].set(v)] *)
Definition set (key : string) (v : value) (cfg : t) : t :=
  fun k => if String.eqb k key then v else cfg k.

Inductive error :=
| KeyError
| TypeError
| AttributeError
| FileError.       (* [open] or [json.load] failed *)

(** [d[key]] for a dictionary with the items [items]. *)
Fixpoint lookup (key : string) (items : list (string * value)) : option value :=
  match items with
  | [] => None
  | (k, v) :: rest => if String.eqb k key then Some v else lookup key rest
  end.

(** [v[key]] for a string [key]: only a dictionary is subscripted by a
    string. *)
Definition subscript (v : value) (key : string) : error + value :=
  match v with
  | Dict items =>
      match lookup key items with
      | Some x => inr x
      | None => inl KeyError
      end
  | _ => inl TypeError
  end.

(** The loop of [load_config] over [config_data.items()]: the configuration
    reached and the exception that ended the loop, if any. *)
Fixpoint apply_items (items : list (string * value)) (cfg : t) : option error * t :=
  match items with
  | [] => (None, cfg)
  | (key, v) :: rest =>
      if key_in_config key then
        if String.eqb key "resolution" then
          match subscript v "width" with
          | inl e => (Some e, cfg)
          | inr width =>
              let cfg1 := set "width" width cfg in
              match subscript v "height" with
              | inl e => (Some e, cfg1)
              | inr height => apply_items rest (set "height" height cfg1)
              end
          end
        else apply_items rest (set key v cfg)
      else apply_items rest cfg
  end.

(** What the user sees of [load_config] and [save_config]. *)
Inductive outcome :=
| Cancelled                (* the file dialog returned no name *)
| Succeeded
| Failed (e : error).

(** [load_config]: [filename] is what the file dialog returns and [file] what
    [open] and [json.load] give for it. *)
Definition load_config (filename : string) (file : error + value) (cfg : t)
    : outcome * t :=
  if String.eqb filename "" then (Cancelled, cfg)
  else
    match file with
    | inl e => (Failed e, cfg)
    | inr (Dict items) =>
        match apply_items items cfg with
        | (None, cfg') => (Succeeded, cfg')
        | (Some e, cfg') => (Failed e, cfg')
        end
    | inr _ => (Failed AttributeError, cfg)     (* no [items] *)
    end.

(** The dictionary [save_config] dumps. *)
Definition save_config_dict (cfg : t) : list (string * value) :=
  map (fun key => (key, cfg key))
    (List.filter (fun key => negb (String.eqb key "width" || String.eqb key "height"))
       keys)
  ++ [("resolution", Dict [("width", cfg "width"); ("height", cfg "height")])].

(** [save_config]: the outcome and the value dumped into the file, if any;
    [written] tells whether [open] and [json.dump] succeeded. *)
Definition save_config (filename : string) (written : option error) (cfg : t)
    : outcome * option (string * value) :=
  if String.eqb filename "" then (Cancelled, None)
  else
    match written with
    | None => (Succeeded, Some (filename, Dict (save_config_dict cfg)))
    | Some e => (Failed e, None)
    end.

(** The dictionary the recording worker dumps into the session's
    [config.json]: [{key: var.get() for key, var in self.config.items()}]. *)
Definition session_config_dict (cfg : t) : list (string * value) :=
  map (fun key => (key, cfg key)) keys.

End GuiConfig.

(** ** The command line: [main] and [interactive_config] *)

(** [self.config[key] = v], key by key. *)
Module Setting.

Definition camera_index (v : Z) (cfg : Config.t) : Config.t := {|
  Config.camera_index := v;
  Config.interval_seconds := Config.interval_seconds cfg;
  Config.duration_minutes := Config.duration_minutes cfg;
  Config.width := Config.width cfg;
  Config.height := Config.height cfg;
  Config.output_dir := Config.output_dir cfg;
  Config.image_format := Config.image_format cfg;
  Config.image_quality := Config.image_quality cfg;
  Config.filename_prefix := Config.filename_prefix cfg;
  Config.auto_exposure := Config.auto_exposure cfg;
  Config.brightness := Config.brightness cfg;
  Config.contrast := Config.contrast cfg;
  Config.saturation := Config.saturation cfg;
  Config.create_video := Config.create_video cfg;
  Config.video_fps := Config.video_fps cfg;
  Config.video_format := Config.video_format cfg;
  Config.cleanup_images := Config.cleanup_images cfg;
  Config.preview_window := Config.preview_window cfg;
  Config.use_time_limit := Config.use_time_limit cfg;
  Config.recording_time_limit := Config.recording_time_limit cfg
|}.

Definition interval_seconds (v : Z) (cfg : Config.t) : Config.t := {|
  Config.camera_index := Config.camera_index cfg;
  Config.interval_seconds := v;
  Config.duration_minutes := Config.duration_minutes cfg;
  Config.width := Config.width cfg;
  Config.height := Config.height cfg;
  Config.output_dir := Config.output_dir cfg;
  Config.image_format := Config.image_format cfg;
  Config.image_quality := Config.image_quality cfg;
  Config.filename_prefix := Config.filename_prefix cfg;
  Config.auto_exposure := Config.auto_exposure cfg;
  Config.brightness := Config.brightness cfg;
  Config.contrast := Config.contrast cfg;
  Config.saturation := Config.saturation cfg;
  Config.create_video := Config.create_video cfg;
  Config.video_fps := Config.video_fps cfg;
  Config.video_format := Config.video_format cfg;
  Config.cleanup_images := Config.cleanup_images cfg;
  Config.preview_window := Config.preview_window cfg;
  Config.use_time_limit := Config.use_time_limit cfg;
  Config.recording_time_limit := Config.recording_time_limit cfg
|}.

Definition duration_minutes (v : Z) (cfg : Config.t) : Config.t := {|
  Config.camera_index := Config.camera_index cfg;
  Config.interval_seconds := Config.interval_seconds cfg;
  Config.duration_minutes := v;
  Config.width := Config.width cfg;
  Config.height := Config.height cfg;
  Config.output_dir := Config.output_dir cfg;
  Config.image_format := Config.image_format cfg;
  Config.image_quality := Config.image_quality cfg;
  Config.filename_prefix := Config.filename_prefix cfg;
  Config.auto_exposure := Config.auto_exposure cfg;
  Config.brightness := Config.brightness cfg;
  Config.contrast := Config.contrast cfg;
  Config.saturation := Config.saturation cfg;
  Config.create_video := Config.create_video cfg;
  Config.video_fps := Config.video_fps cfg;
  Config.video_format := Config.video_format cfg;
  Config.cleanup_images := Config.cleanup_images cfg;
  Config.preview_window := Config.preview_window cfg;
  Config.use_time_limit := Config.use_time_limit cfg;
  Config.recording_time_limit := Config.recording_time_limit cfg
|}.

Definition width (v : Z) (cfg : Config.t) : Config.t := {|
  Config.camera_index := Config.camera_index cfg;
  Config.interval_seconds := Config.interval_seconds cfg;
  Config.duration_minutes := Config.duration_minutes cfg;
  Config.width := v;
  Config.height := Config.height cfg;
  Config.output_dir := Config.output_dir cfg;
  Config.image_format := Config.image_format cfg;
  Config.image_quality := Config.image_quality cfg;
  Config.filename_prefix := Config.filename_prefix cfg;
  Config.auto_exposure := Config.auto_exposure cfg;
  Config.brightness := Config.brightness cfg;
  Config.contrast := Config.contrast cfg;
  Config.saturation := Config.saturation cfg;
  Config.create_video := Config.create_video cfg;
  Config.video_fps := Config.video_fps cfg;
  Config.video_format := Config.video_format cfg;
  Config.cleanup_images := Config.cleanup_images cfg;
  Config.preview_window := Config.preview_window cfg;
  Config.use_time_limit := Config.use_time_limit cfg;
  Config.recording_time_limit := Config.recording_time_limit cfg
|}.

Definition height (v : Z) (cfg : Config.t) : Config.t := {|
  Config.camera_index := Config.camera_index cfg;
  Config.interval_seconds := Config.interval_seconds cfg;
  Config.duration_minutes := Config.duration_minutes cfg;
  Config.width := Config.width cfg;
  Config.height := v;
  Config.output_dir := Config.output_dir cfg;
  Config.image_format := Config.image_format cfg;
  Config.image_quality := Config.image_quality cfg;
  Config.filename_prefix := Config.filename_prefix cfg;
  Config.auto_exposure := Config.auto_exposure cfg;
  Config.brightness := Config.brightness cfg;
  Config.contrast := Config.contrast cfg;
  Config.saturation := Config.saturation cfg;
  Config.create_video := Config.create_video cfg;
  Config.video_fps := Config.video_fps cfg;
  Config.video_format := Config.video_format cfg;
  Config.cleanup_images := Config.cleanup_images cfg;
  Config.preview_window := Config.preview_window cfg;
  Config.use_time_limit := Config.use_time_limit cfg;
  Config.recording_time_limit := Config.recording_time_limit cfg
|}.

Definition output_dir (v : string) (cfg : Config.t) : Config.t := {|
  Config.camera_index := Config.camera_index cfg;
  Config.interval_seconds := Config.interval_seconds cfg;
  Config.duration_minutes := Config.duration_minutes cfg;
  Config.width := Config.width cfg;
  Config.height := Config.height cfg;
  Config.output_dir := v;
  Config.image_format := Config.image_format cfg;
  Config.image_quality := Config.image_quality cfg;
  Config.filename_prefix := Config.filename_prefix cfg;
  Config.auto_exposure := Config.auto_exposure cfg;
  Config.brightness := Config.brightness cfg;
  Config.contrast := Config.contrast cfg;
  Config.saturation := Config.saturation cfg;
  Config.create_video := Config.create_video cfg;
  Config.video_fps := Config.video_fps cfg;
  Config.video_format := Config.video_format cfg;
  Config.cleanup_images := Config.cleanup_images cfg;
  Config.preview_window := Config.preview_window cfg;
  Config.use_time_limit := Config.use_time_limit cfg;
  Config.recording_time_limit := Config.recording_time_limit cfg
|}.

Definition image_format (v : string) (cfg : Config.t) : Config.t := {|
  Config.camera_index := Config.camera_index cfg;
  Config.interval_seconds := Config.interval_seconds cfg;
  Config.duration_minutes := Config.duration_minutes cfg;
  Config.width := Config.width cfg;
  Config.height := Config.height cfg;
  Config.output_dir := Config.output_dir cfg;
  Config.image_format := v;
  Config.image_quality := Config.image_quality cfg;
  Config.filename_prefix := Config.filename_prefix cfg;
  Config.auto_exposure := Config.auto_exposure cfg;
  Config.brightness := Config.brightness cfg;
  Config.contrast := Config.contrast cfg;
  Config.saturation := Config.saturation cfg;
  Config.create_video := Config.create_video cfg;
  Config.video_fps := Config.video_fps cfg;
  Config.video_format := Config.video_format cfg;
  Config.cleanup_images := Config.cleanup_images cfg;
  Config.preview_window := Config.preview_window cfg;
  Config.use_time_limit := Config.use_time_limit cfg;
  Config.recording_time_limit := Config.recording_time_limit cfg
|}.

Definition image_quality (v : Z) (cfg : Config.t) : Config.t := {|
  Config.camera_index := Config.camera_index cfg;
  Config.interval_seconds := Config.interval_seconds cfg;
  Config.duration_minutes := Config.duration_minutes cfg;
  Config.width := Config.width cfg;
  Config.height := Config.height cfg;
  Config.output_dir := Config.output_dir cfg;
  Config.image_format := Config.image_format cfg;
  Config.image_quality := v;
  Config.filename_prefix := Config.filename_prefix cfg;
  Config.auto_exposure := Config.auto_exposure cfg;
  Config.brightness := Config.brightness cfg;
  Config.contrast := Config.contrast cfg;
  Config.saturation := Config.saturation cfg;
  Config.create_video := Config.create_video cfg;
  Config.video_fps := Config.video_fps cfg;
  Config.video_format := Config.video_format cfg;
  Config.cleanup_images := Config.cleanup_images cfg;
  Config.preview_window := Config.preview_window cfg;
  Config.use_time_limit := Config.use_time_limit cfg;
  Config.recording_time_limit := Config.recording_time_limit cfg
|}.

Definition create_video (v : bool) (cfg : Config.t) : Config.t := {|
  Config.camera_index := Config.camera_index cfg;
  Config.interval_seconds := Config.interval_seconds cfg;
  Config.duration_minutes := Config.duration_minutes cfg;
  Config.width := Config.width cfg;
  Config.height := Config.height cfg;
  Config.output_dir := Config.output_dir cfg;
  Config.image_format := Config.image_format cfg;
  Config.image_quality := Config.image_quality cfg;
  Config.filename_prefix := Config.filename_prefix cfg;
  Config.auto_exposure := Config.auto_exposure cfg;
  Config.brightness := Config.brightness cfg;
  Config.contrast := Config.contrast cfg;
  Config.saturation := Config.saturation cfg;
  Config.create_video := v;
  Config.video_fps := Config.video_fps cfg;
  Config.video_format := Config.video_format cfg;
  Config.cleanup_images := Config.cleanup_images cfg;
  Config.preview_window := Config.preview_window cfg;
  Config.use_time_limit := Config.use_time_limit cfg;
  Config.recording_time_limit := Config.recording_time_limit cfg
|}.

Definition video_fps (v : Z) (cfg : Config.t) : Config.t := {|
  Config.camera_index := Config.camera_index cfg;
  Config.interval_seconds := Config.interval_seconds cfg;
  Config.duration_minutes := Config.duration_minutes cfg;
  Config.width := Config.width cfg;
  Config.height := Config.height cfg;
  Config.output_dir := Config.output_dir cfg;
  Config.image_format := Config.image_format cfg;
  Config.image_quality := Config.image_quality cfg;
  Config.filename_prefix := Config.filename_prefix cfg;
  Config.auto_exposure := Config.auto_exposure cfg;
  Config.brightness := Config.brightness cfg;
  Config.contrast := Config.contrast cfg;
  Config.saturation := Config.saturation cfg;
  Config.create_video := Config.create_video cfg;
  Config.video_fps := v;
  Config.video_format := Config.video_format cfg;
  Config.cleanup_images := Config.cleanup_images cfg;
  Config.preview_window := Config.preview_window cfg;
  Config.use_time_limit := Config.use_time_limit cfg;
  Config.recording_time_limit := Config.recording_time_limit cfg
|}.

Definition preview_window (v : bool) (cfg : Config.t) : Config.t := {|
  Config.camera_index := Config.camera_index cfg;
  Config.interval_seconds := Config.interval_seconds cfg;
  Config.duration_minutes := Config.duration_minutes cfg;
  Config.width := Config.width cfg;
  Config.height := Config.height cfg;
  Config.output_dir := Config.output_dir cfg;
  Config.image_format := Config.image_format cfg;
  Config.image_quality := Config.image_quality cfg;
  Config.filename_prefix := Config.filename_prefix cfg;
  Config.auto_exposure := Config.auto_exposure cfg;
  Config.brightness := Config.brightness cfg;
  Config.contrast := Config.contrast cfg;
  Config.saturation := Config.saturation cfg;
  Config.create_video := Config.create_video cfg;
  Config.video_fps := Config.video_fps cfg;
  Config.video_format := Config.video_format cfg;
  Config.cleanup_images := Config.cleanup_images cfg;
  Config.preview_window := v;
  Config.use_time_limit := Config.use_time_limit cfg;
  Config.recording_time_limit := Config.recording_time_limit cfg
|}.

End Setting.


Module Cli.

(** The values [argparse] hands to [main]; [None] is an option that was not
    given. *)
Record args := {
  config : option string;
  interactive : bool;
  interval : option Z;
  duration : option Z;
  width : option Z;
  height : option Z;
  output : option string;
  format : option string;
  quality : option Z;
  no_video : bool;
  no_preview : bool
}.

(** [if x: set(x)] for a number: [None] and [0] are false. *)
Definition if_number (x : option Z) (set : Z -> Config.t -> Config.t)
    (cfg : Config.t) : Config.t :=
  match x with
  | None => cfg
  | Some v => if v =? 0 then cfg else set v cfg
  end.

(** [if x: set(x)] for a string: [None] and the empty string are false. *)
Definition if_text (x : option string) (set : string -> Config.t -> Config.t)
    (cfg : Config.t) : Config.t :=
  match x with
  | None => cfg
  | Some s => if String.eqb s "" then cfg else set s cfg
  end.

(** The statements of [main] that apply the command-line arguments. *)
Definition apply_args (a : args) (cfg : Config.t) : Config.t :=
  let cfg := if_number (interval a) Setting.interval_seconds cfg in
  let cfg := if_number (duration a) Setting.duration_minutes cfg in
  let cfg := if_number (width a) Setting.width cfg in
  let cfg := if_number (height a) Setting.height cfg in
  let cfg := if_text (output a) Setting.output_dir cfg in
  let cfg := if_text (format a) Setting.image_format cfg in
  let cfg := if_number (quality a) Setting.image_quality cfg in
  let cfg := if no_video a then Setting.create_video false cfg else cfg in
  if no_preview a then Setting.preview_window false cfg else cfg.

(** An answer to a prompt that asks for a number, after [strip()]: nothing,
    a text that [int()] or [float()] converts, or one that it rejects. *)
Inductive answer :=
| Empty
| Number (v : Z)
| Rejected.

(** What the user types at the prompts of [interactive_config]. *)
Record dialogue := {
  camera_index_answer : answer;
  interval_answer : answer;
  duration_answer : answer;
  width_answer : answer;
  height_answer : answer;
  output_dir_answer : string;
  image_format_answer : string;
  quality_answer : answer;
  create_video_answer : string;
  fps_answer : answer
}.

(** [x = input(...).strip()] followed by [if x: set(int(x))]: the test is on
    the text, so a typed [0] is stored. *)
Definition ask (x : answer) (set : Z -> Config.t -> Config.t) (cfg : Config.t)
    : exn + Config.t :=
  match x with
  | Empty => inr cfg
  | Number v => inr (set v cfg)
  | Rejected => inl ValueError
  end.

Definition ask_text (x : string) (set : string -> Config.t -> Config.t)
    (cfg : Config.t) : Config.t :=
  if String.eqb x "" then cfg else set x cfg.

Definition and_then (r : exn + Config.t) (f : Config.t -> exn + Config.t)
    : exn + Config.t :=
  match r with
  | inl e => inl e
  | inr cfg => f cfg
  end.

(** [interactive_config]: the configuration after the dialogue, or the
    [ValueError] of the first answer that does not convert. *)
Definition interactive_config (d : dialogue) (cfg : Config.t) : exn + Config.t :=
  and_then (ask (camera_index_answer d) Setting.camera_index cfg) (fun cfg =>
  and_then (ask (interval_answer d) Setting.interval_seconds cfg) (fun cfg =>
  and_then (ask (duration_answer d) Setting.duration_minutes cfg) (fun cfg =>
  and_then (ask (width_answer d) Setting.width cfg) (fun cfg =>
  and_then (ask (height_answer d) Setting.height cfg) (fun cfg =>
  let cfg := ask_text (output_dir_answer d) Setting.output_dir cfg in
  let cfg := ask_text (image_format_answer d) Setting.image_format cfg in
  and_then (ask (quality_answer d) Setting.image_quality cfg) (fun cfg =>
  let cfg :=
    ask_text (create_video_answer d)
      (fun s => Setting.create_video (String.eqb (Str.lower s) "y")) cfg in
  if Config.create_video cfg
  then ask (fps_answer d) Setting.video_fps cfg
  else inr cfg)))))).

(** The environment of one run of [main]. *)
Record env := {
  config_exists : bool;                       (* [os.path.exists(config_file)] *)
  config_loaded : io (Config.t -> Config.t);  (* [open] and [json.load]: the update the file makes *)
  typed : dialogue;
  camera : Camera.env
}.

(** [TimelapseCamera(config_file)]: the configuration the object starts with. *)
Definition new_camera (config_file : option string) (E : env) : prog Config.t :=
  match config_file with
  | Some f =>
      if negb (String.eqb f "") && config_exists E
      then Camera.load_config Camera.load_default_config f (config_loaded E)
      else pure Camera.load_default_config
  | None => pure Camera.load_default_config
  end.

(** What [main] prints last. *)
Inductive report :=
| Completed                 (* the recording completed *)
| RecordingFailed           (* [start_recording] returned [False] *)
| RunError (e : exn)        (* [start_recording] raised *)
| Traceback (e : exn).      (* an exception left [main] *)

(** [main]: the configuration the recording ran with (if it was reached),
    how the session ended, the last report, the exit status of the process
    and the final state. *)
Record outcome := {
  used : option Config.t;
  ended : session;
  reported : report;
  status : Z;
  final_world : world
}.

Definition main (a : args) (E : env) (w : world) : outcome :=
  match new_camera (config a) E w with
  | (Raise e, w1) =>
      {| used := None; ended := NotStarted; reported := Traceback e;
         status := 1; final_world := w1 |}
  | (Ok cfg, w1) =>
      let cfg := apply_args a cfg in
      match (if interactive a then interactive_config (typed E) cfg else inr cfg) with
      | inl e =>
          {| used := None; ended := NotStarted; reported := Traceback e;
             status := 1; final_world := w1 |}
      | inr cfg =>
          match Camera.start_recording cfg (camera E) w1 with
          | (s, Ok true, w2) =>
              {| used := Some cfg; ended := s; reported := Completed;
                 status := 0; final_world := w2 |}
          | (s, Ok false, w2) =>
              {| used := Some cfg; ended := s; reported := RecordingFailed;
                 status := 1; final_world := w2 |}
          | (s, Raise e, w2) =>
              {| used := Some cfg; ended := s; reported := RunError e;
                 status := 1; final_world := w2 |}
          end
      end
  end.

End Cli.

(** [main] called with [--interval <v>] alone, or with [-i] alone. *)
Definition args_interval (v : Z) : Cli.args := {|
  Cli.config := None;
  Cli.interactive := false;
  Cli.interval := Some v;
  Cli.duration := None;
  Cli.width := None;
  Cli.height := None;
  Cli.output := None;
  Cli.format := None;
  Cli.quality := None;
  Cli.no_video := false;
  Cli.no_preview := false
|}.

Definition args_interactive : Cli.args := {|
  Cli.config := None;
  Cli.interactive := true;
  Cli.interval := None;
  Cli.duration := None;
  Cli.width := None;
  Cli.height := None;
  Cli.output := None;
  Cli.format := None;
  Cli.quality := None;
  Cli.no_video := false;
  Cli.no_preview := false
|}.

(** A user who types an interval and accepts every other value. *)
Definition typed_interval (v : Z) : Cli.dialogue := {|
  Cli.camera_index_answer := Cli.Empty;
  Cli.interval_answer := Cli.Number v;
  Cli.duration_answer := Cli.Empty;
  Cli.width_answer := Cli.Empty;
  Cli.height_answer := Cli.Empty;
  Cli.output_dir_answer := "";
  Cli.image_format_answer := "";
  Cli.quality_answer := Cli.Empty;
  Cli.create_video_answer := "";
  Cli.fps_answer := Cli.Empty
|}.

Definition main_env (d : Cli.dialogue) (ticks : list Camera.tick) : Cli.env := {|
  Cli.config_exists := false;
  Cli.config_loaded := Raises OSError;
  Cli.typed := d;
  Cli.camera := cli_env ticks
|}.

(** ** The GUI's record button: [toggle_recording], [start_recording],
    [stop_recording] *)

Module GuiControl.

(** The attributes of the window the three methods read and write. *)
Record state := {
  is_recording : bool;
  is_playing_video : bool;
  current_recording_dir : option string
}.

Inductive thread := RecordingWorker | TimerWorker.

Inductive setting := Interval | Duration.

(** What the methods do to the window and to the threads, in order.  The
    changes of the button, the settings controls, the status labels and the
    progress bar are one action each way. *)
Inductive action :=
| ShowError (about : setting)   (* [messagebox.showerror] *)
| StopVideoPlayback             (* [_stop_video_playback()] *)
| ShowRecording                 (* the window shows a recording in progress *)
| Start (t : thread)            (* [Thread(target=...).start()] *)
| LogStopping                   (* [log_message] *)
| ShowStopped.                  (* the window shows the recording stopped *)

Definition start_recording (cfg : Config.t) (st : state) : list action * state :=
  if is_recording st then ([], st)
  else if Config.interval_seconds cfg <=? 0 then ([ShowError Interval], st)
  else if Config.duration_minutes cfg <=? 0 then ([ShowError Duration], st)
  else
    ((if is_playing_video st then [StopVideoPlayback] else []) ++
     [ShowRecording; Start RecordingWorker; Start TimerWorker],
     {| is_recording := true;
        is_playing_video := false;
        current_recording_dir := current_recording_dir st |}).



End GuiControl.

(** ** The test script: [test_camera_basic] and [main] *)

Module BasicTest.

(** What [test_camera_basic] prints. *)
Inductive line :=
| Testing
| CannotOpen
| TestSucceeded
| Resolution
| ImageSaved (path : string)
| CannotRead.

Record env := {
  camera_opened : io bool;      (* [VideoCapture(0)] and [isOpened()] *)
  read : io bool;               (* [camera.read()]: the flag [ret] *)
  mkdir_result : io unit;
  now : Clock.datetime;
  imwrite : io bool             (* [cv2.imwrite]; its result is not looked at *)
}.

Definition test_dir : string := "./test_output".

Definition test_image (now : Clock.datetime) : string :=
  Path.join test_dir ("test_frame_" +:+ Clock.strftime now +:+ ".jpg").

(** [test_camera_basic]: what it returns and what it has printed by then.
    The test frame carries the number 0. *)
Definition test_camera_basic (E : env) : prog (bool * list line) :=
  is_opened <- call (VideoCapture 0) (camera_opened E);
  if negb is_opened then pure (false, [Testing; CannotOpen])
  else
    ret <- call CameraRead (read E);
    if ret then
      mkdir test_dir (mkdir_result E);;
      cv2_imwrite 0 (test_image (now E)) [] (imwrite E);;
      act CameraRelease;;
      pure (true, [Testing; TestSucceeded; Resolution; ImageSaved (test_image (now E))])
    else
      act CameraRelease;;
      pure (false, [Testing; CannotRead]).

End BasicTest.

Module TestScript.

Record env := {
  basic : BasicTest.env;
  choice : string;             (* [input().lower().strip()] *)
  timelapse : SmokeTest.env
}.

(** [choice in ['y', 'yes', '是', '好']] *)
Definition accepted (choice : string) : bool :=
  existsb (String.eqb choice) ["y"; "yes"; "是"; "好"].

(** How [main] went: the first test failed, the second was skipped, or it was
    run and returned or raised. *)
Inductive outcome :=
| BasicTestFailed
| Skipped
| TimelapseReturned (r : bool)
| Uncaught (e : exn).

(** [main] of the test script. *)
Definition main (E : env) (w : world) : outcome * world :=
  match BasicTest.test_camera_basic (basic E) w with
  | (Raise e, w1) => (Uncaught e, w1)
  | (Ok (false, _), w1) => (BasicTestFailed, w1)
  | (Ok (true, _), w1) =>
      if accepted (choice E) then
        match SmokeTest.test_short_timelapse (timelapse E) w1 with
        | (_, Ok r, w2) => (TimelapseReturned r, w2)
        | (_, Raise e, w2) => (Uncaught e, w2)
        end
      else (Skipped, w1)
  end.

End TestScript.

(** A file system in which the second image cannot be removed. *)
Definition second_image_locked : video_env := {|
  imread_result := fun _ => Returns true;
  writer_opened := true;
  write_result := fun _ => Returns tt;
  remove_result := fun path =>
    if String.eqb path "out/timelapse_000001.jpg" then Raises OSError
    else Returns tt
|}.



(** * Properties *)

(** ** Strings and formats *)

Lemma append_cons (c : ascii) (s t : string) :
  String c s +:+ t = String c (s +:+ t).
Proof. reflexivity. Qed.


Lemma append_length (s t : string) :
  String.length (s +:+ t) = (String.length s + String.length t)%nat.
Proof.
  induction s as [|c s IH]; [reflexivity|].
  rewrite append_cons. simpl. now rewrite IH.
Qed.

Lemma append_assoc (s t u : string) : (s +:+ t) +:+ u = s +:+ (t +:+ u).
Proof.
  induction s as [|c s IH]; [reflexivity|].
  rewrite !append_cons. now rewrite IH.
Qed.

Lemma endswith_nil (suffix : string) :
  Str.endswith "" suffix = String.eqb "" suffix.
Proof. unfold Str.endswith. apply orb_false_r. Qed.

Lemma endswith_cons (c : ascii) (s suffix : string) :
  Str.endswith (String c s) suffix
  = String.eqb (String c s) suffix || Str.endswith s suffix.
Proof. reflexivity. Qed.

Lemma endswith_iff (s suffix : string) :
  Str.endswith s suffix = true <-> exists p, s = p +:+ suffix.
Proof.
  induction s as [|c s IH].
  - rewrite endswith_nil, String.eqb_eq. split.
    + intros <-. now exists "".
    + intros [p Hp]. destruct p; [exact Hp|discriminate].
  - rewrite endswith_cons, orb_true_iff, String.eqb_eq, IH. split.
    + intros [<- | [p ->]]; [now exists ""|now exists (String c p)].
    + intros [[|c' p] Hp]; [now left|].
      rewrite append_cons in Hp. injection Hp as -> ->. right. now exists p.
Qed.

Lemma endswith_length (s suffix : string) :
  Str.endswith s suffix = true -> (String.length suffix <= String.length s)%nat.
Proof.
  intros [p ->]%endswith_iff. rewrite append_length. lia.
Qed.


Lemma zeros_length (k : nat) : String.length (Str.zeros k) = k.
Proof. induction k; simpl; congruence. Qed.

Lemma all_digits_app (s t : string) :
  Str.all_digits (s +:+ t) = Str.all_digits s && Str.all_digits t.
Proof.
  induction s as [|c s IH]; [reflexivity|].
  rewrite append_cons. simpl. now rewrite IH, andb_assoc.
Qed.

Lemma all_digits_zeros (k : nat) : Str.all_digits (Str.zeros k) = true.
Proof. induction k; [reflexivity|]. simpl. exact IHk. Qed.

Lemma digit_char_is_digit (d : N) : (d < 10)%N -> Str.is_digit (Str.digit_char d) = true.
Proof.
  intros H. unfold Str.is_digit, Str.digit_char.
  rewrite N_ascii_embedding by lia.
  apply andb_true_iff; split; apply N.leb_le; lia.
Qed.

Lemma digit_value_char (d : N) : (d < 10)%N -> Str.digit_value (Str.digit_char d) = d.
Proof.
  intros H. unfold Str.digit_value, Str.digit_char.
  rewrite N_ascii_embedding by lia. lia.
Qed.

Lemma decimal_go_digits (fuel : nat) (n : N) (acc : string) :
  Str.all_digits acc = true -> Str.all_digits (Str.decimal_go fuel n acc) = true.
Proof.
  revert n acc. induction fuel as [|fuel IH]; intros n acc Hacc; [exact Hacc|].
  simpl.
  assert (Str.all_digits (String (Str.digit_char (n mod 10)) acc) = true) as H.
  { simpl. rewrite Hacc, digit_char_is_digit; [reflexivity|].
    apply N.mod_lt. lia. }
  destruct (n / 10 =? 0)%N; [exact H|]. now apply IH.
Qed.

Lemma decimal_go_length_le (fuel : nat) (n : N) (acc : string) (k : nat) :
  (1 <= k)%nat -> (n < 10 ^ N.of_nat k)%N ->
  (String.length (Str.decimal_go fuel n acc) <= k + String.length acc)%nat.
Proof.
  revert n acc k. induction fuel as [|fuel IH]; intros n acc k Hk Hn; simpl; [lia|].
  destruct (n / 10 =? 0)%N eqn:Hq; simpl; [lia|].
  apply N.eqb_neq in Hq.
  destruct k as [|[|k]]; [lia| |].
  - exfalso. apply Hq. apply N.div_small. exact Hn.
  - specialize (IH (n / 10)%N (String (Str.digit_char (n mod 10)) acc) (S k)).
    simpl in IH. etransitivity; [apply IH; [lia|]|lia].
    apply N.Div0.div_lt_upper_bound.
    replace (N.of_nat (S (S k))) with (N.succ (N.of_nat (S k))) in Hn by lia.
    rewrite N.pow_succ_r' in Hn. exact Hn.
Qed.

Lemma decimal_go_length_ge (fuel : nat) (n : N) (acc : string) :
  (String.length acc <= String.length (Str.decimal_go fuel n acc))%nat.
Proof.
  revert n acc. induction fuel as [|fuel IH]; intros n acc; simpl; [lia|].
  destruct (n / 10 =? 0)%N; simpl; [lia|].
  etransitivity; [|apply IH]. simpl. lia.
Qed.

Lemma value_go_shift (a : N) (s : string) :
  Str.value_go a s = (a * 10 ^ N.of_nat (String.length s) + Str.value s)%N.
Proof.
  unfold Str.value. revert a. induction s as [|c s IH]; intros a.
  - simpl. lia.
  - simpl Str.value_go. rewrite (IH (a * 10 + _)%N), (IH (0 * 10 + _)%N).
    replace (N.of_nat (String.length (String c s)))
      with (N.succ (N.of_nat (String.length s))) by (simpl; lia).
    rewrite N.pow_succ_r'. lia.
Qed.

Lemma decimal_go_value (fuel : nat) (n : N) (acc : string) :
  (n < 2 ^ N.of_nat fuel)%N ->
  Str.value (Str.decimal_go fuel n acc)
  = (n * 10 ^ N.of_nat (String.length acc) + Str.value acc)%N.
Proof.
  revert n acc. induction fuel as [|fuel IH]; intros n acc Hn.
  - simpl in *. assert (n = 0%N) as -> by lia. lia.
  - simpl Str.decimal_go.
    assert (Str.value (String (Str.digit_char (n mod 10)) acc)
            = ((n mod 10) * 10 ^ N.of_nat (String.length acc) + Str.value acc)%N) as Hv.
    { unfold Str.value at 1. simpl Str.value_go. rewrite value_go_shift.
      rewrite digit_value_char by (apply N.mod_lt; lia). lia. }
    destruct (n / 10 =? 0)%N eqn:Hq.
    + apply N.eqb_eq in Hq. rewrite Hv.
      rewrite (N.div_mod n 10) at 2 by lia. rewrite Hq. lia.
    + rewrite IH.
      * rewrite Hv.
        replace (N.of_nat (String.length (String (Str.digit_char (n mod 10)) acc)))
          with (N.succ (N.of_nat (String.length acc))) by (simpl; lia).
        rewrite N.pow_succ_r'.
        rewrite (N.div_mod n 10) at 3 by lia. lia.
      * replace (N.of_nat (S fuel)) with (N.succ (N.of_nat fuel)) in Hn by lia.
        rewrite N.pow_succ_r' in Hn.
        apply N.Div0.div_lt_upper_bound.
        lia.
Qed.

Lemma decimal_value (n : N) : Str.value (Str.decimal n) = n.
Proof.
  unfold Str.decimal. rewrite decimal_go_value.
  - simpl. unfold Str.value. simpl. lia.
  - destruct n as [|p]; [simpl; lia|].
    replace (N.of_nat (S (N.to_nat (N.log2 (N.pos p)))))
      with (N.succ (N.log2 (N.pos p))) by lia.
    apply N.log2_spec. lia.
Qed.

Lemma decimal_digits (n : N) : Str.all_digits (Str.decimal n) = true.
Proof. unfold Str.decimal. now apply decimal_go_digits. Qed.

Lemma decimal_length_le (n : N) (k : nat) :
  (1 <= k)%nat -> (n < 10 ^ N.of_nat k)%N -> (String.length (Str.decimal n) <= k)%nat.
Proof.
  intros Hk Hn. unfold Str.decimal.
  pose proof (decimal_go_length_le (S (N.to_nat (N.log2 n))) n "" k Hk Hn) as H.
  change (String.length "") with 0%nat in H. lia.
Qed.

Lemma value_zeros_app (k : nat) (s : string) :
  Str.value (Str.zeros k +:+ s) = Str.value s.
Proof.
  induction k as [|k IH]; [reflexivity|].
  simpl Str.zeros. rewrite append_cons. unfold Str.value in *. simpl. exact IH.
Qed.

(** [0<w>d] prints the number's digits behind zeros, at least [w] characters,
    exactly [w] while the number has at most [w] digits. *)
Lemma zero_padded_value (w : nat) (n : N) : Str.value (Str.zero_padded w n) = n.
Proof. unfold Str.zero_padded. rewrite value_zeros_app. apply decimal_value. Qed.

Lemma zero_padded_digits (w : nat) (n : N) :
  Str.all_digits (Str.zero_padded w n) = true.
Proof.
  unfold Str.zero_padded. now rewrite all_digits_app, all_digits_zeros, decimal_digits.
Qed.


Lemma zero_padded_length (w : nat) (n : N) :
  (1 <= w)%nat -> (n < 10 ^ N.of_nat w)%N ->
  String.length (Str.zero_padded w n) = w.
Proof.
  intros Hw Hn. unfold Str.zero_padded. rewrite append_length, zeros_length.
  pose proof (decimal_length_le n w Hw Hn). lia.
Qed.

Lemma zero_padded_inj (w : nat) (n m : N) :
  Str.zero_padded w n = Str.zero_padded w m -> n = m.
Proof.
  intros H. rewrite <- (zero_padded_value w n), <- (zero_padded_value w m).
  now rewrite H.
Qed.

(** ** Running programs symbolically *)

Ltac unfold_prog :=
  unfold floor_div, bind, pure, raise, try_except, try_finally, act, output,
    modify, gets,
    when, call, cv2_imwrite, mkdir, time_sleep, cv2_imread, open_writer,
    writer_write, image_shape, os_remove, emit, set_recording,
    set_frame_count, set_dirs, set_files in *.

Lemma saved_frames_app (l1 l2 : list event) :
  saved_frames (l1 ++ l2) = saved_frames l1 ++ saved_frames l2.
Proof. apply omap_app. Qed.

Lemma steps_app (l1 l2 : list event) : steps (l1 ++ l2) = steps l1 ++ steps l2.
Proof. apply omap_app. Qed.

(** ** C9: the PNG compression level *)

Lemma png_compression_range (q : Z) :
  1 <= q <= 99 -> 0 <= png_compression q <= 9.
Proof.
  intros H. unfold png_compression.
  pose proof (Z.div_mod q 10 ltac:(lia)).
  pose proof (Z.mod_pos_bound q 10 ltac:(lia)).
  lia.
Qed.

(** C9, at the failing input: with the format png and the quality 100, which
    is inside the documented range 1 to 100, the compression parameter handed
    to the image writer is -1, outside the encoder's range 0 to 9. *)
Theorem png_compression_at_quality_100 :
  let cfg := with_image "png" 100 Camera.load_default_config in
  1 <= Config.image_quality cfg <= 100 /\
  encode_params cfg = [IMWRITE_PNG_COMPRESSION; -1] /\
  ~ (0 <= png_compression (Config.image_quality cfg) <= 9).
Proof.
  cbv zeta. split; [simpl; lia|]. split; [reflexivity|].
  intros [H _]. vm_compute in H. now apply H.
Qed.

(** ** The capture loops *)

Ltac cli_cases cfg tk :=
  unfold Camera.iteration, Camera.capture_frame, Camera.signal_handler;
  unfold_prog;
  destruct (Camera.read tk) as [[|]|?], (Camera.imwrite tk) as [[|]|?],
    (Config.preview_window cfg), (Camera.preview tk) as [?key|?],
    (Camera.signal tk), (Config.interval_seconds cfg <? 0) eqn:?;
  simpl; try destruct (Z.land _ 255 =? 27) eqn:?; simpl.

Ltac gui_cases cfg tk :=
  unfold Gui.iteration, Gui.gui_store;
  unfold_prog;
  destruct (Gui.read tk) as [[|]|?], (Gui.imwrite tk) as [[|]|?],
    (Gui.gui_thread tk) as [[|]|], (Config.interval_seconds cfg <? 0) eqn:?;
  simpl.

Ltac smoke_cases i tk :=
  unfold SmokeTest.iteration;
  unfold_prog;
  destruct (SmokeTest.read tk) as [[|]|?], (SmokeTest.imwrite tk) as [[|]|?],
    (i <? SmokeTest.total_frames - 1)%nat;
  simpl.

Lemma count_from_length (n : N) (k : nat) : List.length (count_from n k) = k.
Proof. revert n. induction k as [|k IH]; intros n; simpl; [reflexivity|]. now rewrite IH. Qed.

Lemma count_from_bounds (n : N) (k : nat) (m : N) :
  m ∈ count_from n k -> (n <= m < n + N.of_nat k)%N.
Proof.
  revert n. induction k as [|k IH]; intros n; simpl.
  - intros H. inversion H.
  - intros [->|H]%elem_of_cons; [lia|]. apply IH in H. lia.
Qed.

(** Consecutive numbers are strictly increasing, hence pairwise distinct. *)
Lemma count_from_increasing (n : N) (k : nat) : StronglySorted N.lt (count_from n k).
Proof.
  revert n. induction k as [|k IH]; intros n; simpl; constructor; [apply IH|].
  apply Forall_forall. intros m Hm. apply count_from_bounds in Hm. lia.
Qed.

Lemma count_from_NoDup (n : N) (k : nat) : NoDup (count_from n k).
Proof.
  revert n. induction k as [|k IH]; intros n; simpl; constructor; [|apply IH].
  intros Hm. apply count_from_bounds in Hm. lia.
Qed.

(** *** The frames an iteration saves *)

Lemma gui_iteration_saved (cfg : Config.t) (d : string) (tk : Gui.tick) (w : world) :
  exists saved : bool,
    saved_frames (trace (snd (Gui.iteration cfg d tk w)))
    = saved_frames (trace w) ++ (if saved then [frame_count w] else []) /\
    frame_count (snd (Gui.iteration cfg d tk w))
    = (frame_count w + (if saved then 1 else 0))%N.
Proof.
  gui_cases cfg tk; rewrite ?saved_frames_app; simpl;
    first [ exists true; split; [now rewrite ?app_nil_r|lia]
          | exists false; split; [now rewrite ?app_nil_r|lia] ].
Qed.

Lemma cli_iteration_saved (cfg : Config.t) (d : string) (tk : Camera.tick) (w : world) :
  preview_returns cfg tk ->
  exists saved : bool,
    saved_frames (trace (snd (Camera.iteration cfg d tk w)))
    = saved_frames (trace w) ++ (if saved then [frame_count w] else []) /\
    frame_count (snd (Camera.iteration cfg d tk w))
    = (frame_count w + (if saved then 1 else 0))%N.
Proof.
  intros [Hp|[k Hp]]; revert Hp; cli_cases cfg tk; intros Hp; try discriminate Hp;
    rewrite ?saved_frames_app; simpl;
    first [ exists true; split; [now rewrite ?app_nil_r|lia]
          | exists false; split; [now rewrite ?app_nil_r|lia] ].
Qed.

(** Whatever the environment does, an iteration saves at most one frame. *)
Lemma cli_iteration_saves_at_most_one (cfg : Config.t) (d : string)
    (tk : Camera.tick) (w : world) :
  (List.length (saved_frames (trace (snd (Camera.iteration cfg d tk w))))
   <= List.length (saved_frames (trace w)) + 1)%nat.
Proof.
  cli_cases cfg tk; rewrite ?saved_frames_app, ?length_app; simpl; lia.
Qed.

Lemma gui_iteration_saves_at_most_one (cfg : Config.t) (d : string)
    (tk : Gui.tick) (w : world) :
  (List.length (saved_frames (trace (snd (Gui.iteration cfg d tk w))))
   <= List.length (saved_frames (trace w)) + 1)%nat.
Proof.
  gui_cases cfg tk; rewrite ?saved_frames_app, ?length_app; simpl; lia.
Qed.

(** *** The frames a loop saves *)

(** In the worker of the GUI the files saved by a loop carry the consecutive
    numbers that start at the counter, and the counter ends behind them. *)
Lemma gui_loop_saved (cfg : Config.t) (d : string) (e : option Z)
    (ticks : list Gui.tick) (w : world) :
  exists k : nat,
    saved_frames (trace (final (Gui.capture_loop cfg d e ticks w)))
    = saved_frames (trace w) ++ count_from (frame_count w) k /\
    frame_count (final (Gui.capture_loop cfg d e ticks w))
    = (frame_count w + N.of_nat k)%N.
Proof.
  revert w. induction ticks as [|tk ticks IH]; intros w.
  - exists O. simpl. destruct (is_recording w); simpl; rewrite app_nil_r;
      split; try reflexivity; lia.
  - simpl. destruct (is_recording w); simpl;
      [|exists O; simpl; rewrite app_nil_r; split; [reflexivity|lia]].
    destruct (negb _);
      [exists O; simpl; rewrite app_nil_r; split; [reflexivity|lia]|].
    destruct (gui_iteration_saved cfg d tk w) as (saved & Hs & Hc).
    destruct (Gui.iteration cfg d tk w) as [[[]|e'] w'] eqn:Hit; simpl in *.
    + destruct (IH w') as (k & Hk1 & Hk2). rewrite Hk1, Hk2, Hs, Hc.
      destruct saved.
      * exists (S k). simpl. rewrite <- app_assoc. simpl. split; [reflexivity|lia].
      * exists k. rewrite app_nil_r, N.add_0_r. split; reflexivity.
    + rewrite Hs, Hc. destruct saved.
      * exists 1%nat. simpl. split; [reflexivity|lia].
      * exists O. simpl. split; [reflexivity|lia].
Qed.

(** The same holds on the command line as long as the preview does not fail. *)
Lemma cli_loop_saved (cfg : Config.t) (d : string) (e : Z)
    (ticks : list Camera.tick) (w : world) :
  Forall (preview_returns cfg) ticks ->
  exists k : nat,
    saved_frames (trace (final (Camera.capture_loop cfg d e ticks w)))
    = saved_frames (trace w) ++ count_from (frame_count w) k /\
    frame_count (final (Camera.capture_loop cfg d e ticks w))
    = (frame_count w + N.of_nat k)%N.
Proof.
  intros Hall. revert w. induction Hall as [|tk ticks Htk Hall IH]; intros w.
  - exists O. simpl. destruct (is_recording w); simpl; rewrite app_nil_r;
      split; try reflexivity; lia.
  - simpl. destruct (is_recording w); simpl;
      [|exists O; simpl; rewrite app_nil_r; split; [reflexivity|lia]].
    destruct (negb _);
      [exists O; simpl; rewrite app_nil_r; split; [reflexivity|lia]|].
    destruct (cli_iteration_saved cfg d tk w Htk) as (saved & Hs & Hc).
    destruct (Camera.iteration cfg d tk w) as [[[]|e'] w'] eqn:Hit; simpl in *.
    + destruct (IH w') as (k & Hk1 & Hk2). rewrite Hk1, Hk2, Hs, Hc.
      destruct saved.
      * exists (S k). simpl. rewrite <- app_assoc. simpl. split; [reflexivity|lia].
      * exists k. rewrite app_nil_r, N.add_0_r. split; reflexivity.
    + rewrite Hs, Hc. destruct saved.
      * exists 1%nat. simpl. split; [reflexivity|lia].
      * exists O. simpl. split; [reflexivity|lia].
Qed.

(** Within one session of the GUI worker the saved frame numbers are
    strictly increasing and pairwise distinct. *)
Lemma gui_session_frames_increasing (cfg : Config.t) (d : string) (e : option Z)
    (ticks : list Gui.tick) (w : world) :
  trace w = [] ->
  let frames := saved_frames (trace (final (Gui.capture_loop cfg d e ticks w))) in
  StronglySorted N.lt frames /\ NoDup frames.
Proof.
  intros Hw. destruct (gui_loop_saved cfg d e ticks w) as (k & Hk & _).
  cbv zeta. rewrite Hk, Hw. simpl.
  split; [apply count_from_increasing|apply count_from_NoDup].
Qed.

Lemma cli_session_frames_increasing (cfg : Config.t) (d : string) (e : Z)
    (ticks : list Camera.tick) (w : world) :
  Forall (preview_returns cfg) ticks ->
  trace w = [] ->
  let frames := saved_frames (trace (final (Camera.capture_loop cfg d e ticks w))) in
  StronglySorted N.lt frames /\ NoDup frames.
Proof.
  intros Hall Hw. destruct (cli_loop_saved cfg d e ticks w Hall) as (k & Hk & _).
  cbv zeta. rewrite Hk, Hw. simpl.
  split; [apply count_from_increasing|apply count_from_NoDup].
Qed.

(** C1, at the failing input: a command-line session with the default
    configuration (preview window on) whose first iteration reads and saves
    its frame and then fails in the preview calls.  [capture_frame] reports
    failure although the file is on disk, the counter stays at 0, and the
    second iteration saves under the number 0 again: the saved frame numbers
    are neither strictly increasing nor distinct. *)
Theorem cli_preview_error_reuses_frame_number :
  let E := cli_env [cli_tick_no_window 0; cli_tick 5; cli_tick 3600] in
  let run := Camera.start_recording Camera.load_default_config E initial_world in
  fst (fst run) = Ended TimeLimit /\
  saved_frames (trace (snd run)) = [0; 0]%N /\
  frame_count (snd run) = 1%N /\
  ~ NoDup (saved_frames (trace (snd run))) /\
  ~ StronglySorted N.lt (saved_frames (trace (snd run))).
Proof.
  cbv zeta.
  assert (saved_frames (trace (snd (Camera.start_recording Camera.load_default_config
            (cli_env [cli_tick_no_window 0; cli_tick 5; cli_tick 3600])
            initial_world))) = [0; 0]%N) as Hs by (vm_compute; reflexivity).
  rewrite Hs. split; [|split; [|split; [|split]]].
  - vm_compute. reflexivity.
  - reflexivity.
  - vm_compute. reflexivity.
  - intros H. inversion H as [|? ? Hin _]; subst. apply Hin. now left.
  - intros H. inversion H as [|? ? _ Hall]; subst.
    inversion Hall as [|? ? Hlt _]; subst. lia.
Qed.

(** *** Cancellation *)





(** On the command line the flag is cleared in an iteration exactly by a
    signal or by the Escape key in the preview of a saved frame. *)
Lemma cli_flag_cleared_iff (cfg : Config.t) (d : string) (tk : Camera.tick)
    (w w' : world) :
  is_recording w = true ->
  Camera.iteration cfg d tk w = (Ok tt, w') ->
  is_recording w' = false <->
  Camera.signal tk = true \/
  (Camera.read tk = Returns true /\ Camera.imwrite tk = Returns true /\
   Config.preview_window cfg = true /\
   exists key, Camera.preview tk = Returns key /\ Z.land key 255 = 27).
Proof.
  intros Hr. cli_cases cfg tk; intros [= <-]; simpl; rewrite ?Hr;
    (split;
     [ intros; first [ discriminate | now left
                     | right; repeat split; eexists; split;
                       [reflexivity|now apply Z.eqb_eq] ]
     | intros [?|(? & ? & ? & ? & ? & ?)]; simplify_eq; try reflexivity;
       match goal with
       | H : (Z.land _ 255 =? 27) = false |- _ => apply Z.eqb_neq in H; congruence
       end ]).
Qed.

(** In the worker the flag is cleared in an iteration exactly when the last
    store of the GUI thread is a stop. *)
Lemma gui_flag_cleared_iff (cfg : Config.t) (d : string) (tk : Gui.tick)
    (w w' : world) :
  is_recording w = true ->
  Gui.iteration cfg d tk w = (Ok tt, w') ->
  is_recording w' = false <-> Gui.gui_thread tk = Some false.
Proof.
  intros Hr. gui_cases cfg tk; intros [= <-]; simpl; rewrite ?Hr;
    split; intros; congruence.
Qed.



(** *** How a loop comes to its end *)

Lemma cli_iteration_raises (cfg : Config.t) (d : string) (tk : Camera.tick)
    (w w' : world) (x : exn) :
  Camera.iteration cfg d tk w = (Raise x, w') ->
  x = ValueError /\ Config.interval_seconds cfg < 0.
Proof.
  cli_cases cfg tk; intros [= <- <-]; split; try reflexivity; now apply Z.ltb_lt.
Qed.


Lemma smoke_iteration_raises (d : string) (i : nat) (tk : SmokeTest.tick)
    (w w' : world) (x : exn) :
  SmokeTest.iteration d i tk w = (Raise x, w') ->
  SmokeTest.read tk = Raises x \/ SmokeTest.imwrite tk = Raises x.
Proof.
  smoke_cases i tk; intros [= <- <-]; auto.
Qed.

Lemma cli_loop_exit (cfg : Config.t) (d : string) (e : Z)
    (ticks : list Camera.tick) (w w' : world) (by_ : loop_exit) :
  Camera.capture_loop cfg d e ticks w = Exited by_ w' ->
  (by_ = Cancelled /\ is_recording w' = false) \/
  (by_ = TimeLimit /\ is_recording w' = true /\
   exists tk, tk ∈ ticks /\ e <= Camera.now tk) \/
  (by_ = Raised ValueError /\ Config.interval_seconds cfg < 0).
Proof.
  revert w. induction ticks as [|tk ticks IH]; intros w; simpl.
  - destruct (is_recording w) eqn:Hr; simpl; [discriminate|].
    intros [= <- <-]. now left.
  - destruct (is_recording w) eqn:Hr; simpl; [|intros [= <- <-]; now left].
    destruct (Camera.now tk <? e) eqn:Ht; simpl.
    + destruct (Camera.iteration cfg d tk w) as [[[]|x] w1] eqn:Hit.
      * intros H. destruct (IH _ H) as [?|[(? & ? & tk' & ? & ?)|?]]; auto.
        right; left. repeat split; auto. exists tk'. split; [now right|assumption].
      * intros [= <- <-]. apply cli_iteration_raises in Hit as [-> ?]. auto.
    + intros [= <- <-]. right; left. repeat split; auto.
      exists tk. split; [now left|]. now apply Z.ltb_ge.
Qed.


Lemma smoke_loop_unfold (d : string) (i : nat) (ticks : list SmokeTest.tick)
    (w : world) :
  SmokeTest.capture_loop d i ticks w
  = if (SmokeTest.total_frames <=? i)%nat then Exited FrameLimit w
    else match ticks with
         | [] => Pending w
         | tk :: rest =>
             match SmokeTest.iteration d i tk w with
             | (Ok _, w') => SmokeTest.capture_loop d (S i) rest w'
             | (Raise e, w') => Exited (Raised e) w'
             end
         end.
Proof. destruct ticks; reflexivity. Qed.



Lemma gui_session_of_loop (cfg : Config.t) (E : Gui.env) (w : world) :
  fst (Gui._recording_worker cfg E w) = session_of (gui_session_loop cfg E w).
Proof.
  unfold Gui._recording_worker, gui_session_loop.
  destruct (Gui.open_camera cfg E w) as [[?|?] w0]; try reflexivity.
  destruct (Gui.before_loop cfg E _ w0) as [[[[d e]|]|?] w1]; try reflexivity.
  destruct (Gui.capture_loop _ _ _ _ _) as [w3|[| | |x] w3]; reflexivity.
Qed.




(** ** Video assembly *)

Lemma omap_none {A B} (f : A -> option B) (l : list A) :
  Forall (fun x => f x = None) l -> omap f l = [].
Proof. induction 1 as [|x l Hx _ IH]; simpl; [reflexivity|]. now rewrite Hx. Qed.

Lemma frame_events_quiet (l : list event) :
  Forall (fun e => frame_event e = true) l ->
  removals l = [] /\ writers_opened l = [] /\ steps l = [] /\
  (forall m, frame_event (Output m) = false -> Output m ∉ l).
Proof.
  intros H. repeat split.
  - apply omap_none. eapply Forall_impl; [exact H|]. now intros [].
  - apply omap_none. eapply Forall_impl; [exact H|]. now intros [].
  - apply omap_none. eapply Forall_impl; [exact H|]. intros []; try easy.
    destruct m; easy.
  - intros m Hm Hin. rewrite Forall_forall in H. apply H in Hin. congruence.
Qed.

Lemma removal_events_quiet (l : list event) :
  Forall (fun e => removal_event e = true) l ->
  written_frames l = [] /\ writers_opened l = [] /\ steps l = [] /\
  (forall m, Output m ∉ l).
Proof.
  intros H. repeat split.
  - apply omap_none. eapply Forall_impl; [exact H|]. now intros [].
  - apply omap_none. eapply Forall_impl; [exact H|]. now intros [].
  - apply omap_none. eapply Forall_impl; [exact H|]. now intros [].
  - intros m Hin. rewrite Forall_forall in H. apply H in Hin. discriminate.
Qed.


Lemma first_failure_none (v : video_env) (d : string) (fs : list string) :
  first_failure v d fs = None -> frames_handed v d fs = fs.
Proof.
  induction fs as [|f fs IH]; simpl; [reflexivity|].
  destruct (imread_result v (Path.join d f)); [|discriminate].
  destruct (write_result v (Path.join d f)); [|discriminate].
  intros H. now rewrite IH.
Qed.


Lemma encoding_failure_none (v : video_env) (d : string) (fs : list string) :
  encoding_failure v d fs = None -> frames_written v d fs = fs.
Proof.
  unfold encoding_failure, frames_written. destruct fs as [|f fs]; [reflexivity|].
  destruct (imread_result v (Path.join d f)) as [[|]|]; try discriminate.
  destruct (first_failure v d (f :: fs)) eqn:H; [discriminate|].
  intros _. now apply first_failure_none.
Qed.

(** The frame loop calls the writer for the files of the list, in their
    order, and stops at the first call that raises. *)
Lemma write_frames_effect (v : video_env) (every total : nat) (d : string)
    (fs : list string) (i : nat) (w w' : world) (r : result unit) :
  write_frames v every total d i fs w = (r, w') ->
  same_state w w' /\
  exists l, trace w' = trace w ++ l /\
    Forall (fun e => frame_event e = true) l /\
    written_frames l = map (Path.join d) (frames_handed v d fs) /\
    match first_failure v d fs with
    | None => r = Ok tt
    | Some (ev, e) => r = Raise e /\ exists l0, l = l0 ++ [ev]
    end.
Proof.
  revert i w. induction fs as [|f fs IH]; intros i w; simpl.
  - unfold_prog. intros [= <- <-]. split; [repeat split|].
    exists []. rewrite app_nil_r. repeat split. constructor.
  - unfold_prog.
    destruct (imread_result v (Path.join d f)) as [frame|e1]; simpl.
    2:{ intros [= <- <-]. split; [repeat split|].
        exists [Imread (Path.join d f)]. repeat split.
        - repeat constructor.
        - now exists []. }
    destruct (write_result v (Path.join d f)) as [[]|e2]; simpl.
    2:{ intros [= <- <-]. split; [repeat split|].
        exists [Imread (Path.join d f); WriterWrite (Path.join d f)].
        split; [simpl; now rewrite <- app_assoc|].
        split; [repeat constructor|]. split; [reflexivity|].
        split; [reflexivity|]. now exists [Imread (Path.join d f)]. }
    destruct (Nat.eqb (i mod every) 0); simpl; intros H;
      destruct (IH _ _ H) as ((? & ? & ? & ?) & l & Htr & Hall & Hwr & Hff);
      simpl in *.
    + split; [repeat split; assumption|].
      exists ([Imread (Path.join d f); WriterWrite (Path.join d f);
               Output (VideoProgress (S i) total)] ++ l).
      split; [rewrite Htr, <- !app_assoc; reflexivity|].
      split; [repeat constructor; assumption|].
      split; [simpl; now rewrite Hwr|].
      destruct (first_failure v d fs) as [[ev e]|]; [|assumption].
      destruct Hff as (-> & l0 & ->). split; [reflexivity|].
      now exists ([Imread (Path.join d f); WriterWrite (Path.join d f);
                   Output (VideoProgress (S i) total)] ++ l0).
    + split; [repeat split; assumption|].
      exists ([Imread (Path.join d f); WriterWrite (Path.join d f)] ++ l).
      split; [rewrite Htr, <- !app_assoc; reflexivity|].
      split; [repeat constructor; assumption|].
      split; [simpl; now rewrite Hwr|].
      destruct (first_failure v d fs) as [[ev e]|]; [|assumption].
      destruct Hff as (-> & l0 & ->). split; [reflexivity|].
      now exists ([Imread (Path.join d f); WriterWrite (Path.join d f)] ++ l0).
Qed.

(** The clean-up loop removes files of the list only, and all of them when
    it comes to its end. *)
Lemma remove_images_effect (v : video_env) (d : string) (fs : list string)
    (w w' : world) (r : result unit) :
  remove_images v d fs w = (r, w') ->
  same_program_state w w' /\
  (exists l, trace w' = trace w ++ l /\
     Forall (fun e => removal_event e = true) l /\
     (r = Ok tt -> removals l = map (Path.join d) fs)) /\
  files w' ⊆ files w /\
  (forall p, p ∈ files w -> p ∉ map (Path.join d) fs -> p ∈ files w') /\
  (r = Ok tt -> files w' = files w ∖ list_to_set (map (Path.join d) fs)).
Proof.
  revert w. induction fs as [|f fs IH]; intros w; simpl.
  - unfold_prog. intros [= <- <-]. split; [repeat split|].
    split; [exists []; rewrite app_nil_r; repeat split; constructor|].
    split; [set_solver|]. split; [set_solver|]. intros _. set_solver.
  - unfold_prog. destruct (decide (Path.join d f ∈ files w)) as [Hin|Hin]; simpl.
    + destruct (remove_result v (Path.join d f)) as [[]|e]; simpl.
      * intros H.
        destruct (IH _ H) as ((? & ? & ?) & (l & Htr & Hall & Hrm) & Hsub & Hkeep & Heq);
          simpl in *.
        split; [repeat split; assumption|].
        split; [exists (Remove (Path.join d f) :: l); repeat split|].
        -- rewrite Htr, <- app_assoc. reflexivity.
        -- constructor; [reflexivity|assumption].
        -- intros Hr. simpl. now rewrite Hrm.
        -- split; [set_solver|]. split.
           ++ intros p Hp Hnot. apply Hkeep; set_solver.
           ++ intros Hr. rewrite (Heq Hr). set_solver.
      * intros [= <- <-]. simpl. split; [repeat split|].
        split; [exists [Remove (Path.join d f)]; repeat split;
                [repeat constructor|discriminate]|].
        split; [set_solver|]. split; [auto|discriminate].
    + intros [= <- <-]. simpl. split; [repeat split|].
      split; [exists [Remove (Path.join d f)]; repeat split;
              [repeat constructor|discriminate]|].
      split; [set_solver|]. split; [auto|discriminate].
Qed.

(** Video assembly in a directory that exists, written out. *)
Lemma assemble_unfold (cfg : Config.t) (v : video_env) (every : nat)
    (name d : string) (w : world) :
  d ∈ dirs w ->
  assemble cfg v every name d w =
  match image_files_of (Config.image_format cfg) (listing d w) with
  | [] => (Ok tt, emit (Output NoImagesFound) (emit (Output CreatingVideo) w))
  | first :: rest =>
      let w1 := emit (Imread (Path.join d first)) (emit (Output CreatingVideo) w) in
      match imread_result v (Path.join d first) with
      | Returns true =>
          let vp := Path.join d name in
          let w2 := emit (WriterOpen vp (Config.video_fps cfg)) w1 in
          let w3 := if writer_opened v then set_files ({[vp]} ∪ files w2) w2 else w2 in
          match write_frames v every (List.length (first :: rest)) d 0
                  (first :: rest) w3 with
          | (Ok _, w4) =>
              let w5 := emit (Output (VideoCreated vp)) (emit WriterRelease w4) in
              if Config.cleanup_images cfg then
                match remove_images v d (first :: rest)
                        (emit (Output CleaningImages) w5) with
                | (Ok _, w6) => (Ok tt, emit (Output ImagesCleaned) w6)
                | (Raise e, w6) => (Raise e, w6)
                end
              else (Ok tt, w5)
          | (Raise e, w4) => (Raise e, w4)
          end
      | Returns false => (Raise AttributeError, w1)
      | Raises e => (Raise e, w1)
      end
  end.
Proof.
  intros Hd. unfold assemble, listdir. unfold bind at 1 2. unfold output at 1, act at 1.
  destruct (decide (d ∈ dirs (emit (Output CreatingVideo) w))) as [_|Hn]; [|now destruct Hn].
  change (listing d (emit (Output CreatingVideo) w)) with (listing d w).
  destruct (image_files_of (Config.image_format cfg) (listing d w)) as [|first rest] eqn:Hfs.
  - reflexivity.
  - unfold bind at 1. unfold cv2_imread at 1, call at 1.
    destruct (imread_result v (Path.join d first)) as [[|]|e0]; [|reflexivity..].
    unfold image_shape, pure, bind at 1. unfold bind at 1. unfold open_writer at 1.
    unfold bind at 1.
    cbv zeta.
    destruct (write_frames _ _ _ _ _ _ _) as [[[]|e] w4]; [|reflexivity].
    unfold bind at 1. unfold act at 1. unfold bind at 1. unfold output at 1, act at 1.
    unfold when. destruct (Config.cleanup_images cfg); [|reflexivity].
    unfold bind at 1. unfold output at 1, act at 1. unfold bind at 1.
    destruct (remove_images _ _ _ _) as [[[]|e] w6]; reflexivity.
Qed.

Lemma events_since_app (w w' : world) (l : list event) :
  trace w' = trace w ++ l -> events_since w w' = l.
Proof. intros H. unfold events_since. rewrite H. apply drop_app_length. Qed.

Lemma written_frames_app (l1 l2 : list event) :
  written_frames (l1 ++ l2) = written_frames l1 ++ written_frames l2.
Proof. apply omap_app. Qed.

Lemma writers_opened_app (l1 l2 : list event) :
  writers_opened (l1 ++ l2) = writers_opened l1 ++ writers_opened l2.
Proof. apply omap_app. Qed.

Lemma removals_app (l1 l2 : list event) :
  removals (l1 ++ l2) = removals l1 ++ removals l2.
Proof. apply omap_app. Qed.

Lemma frame_events_written_only (l : list event) :
  Forall (fun e => frame_event e = true) l ->
  removals l = [] /\ writers_opened l = [] /\
  (forall p, Output (VideoCreated p) ∉ l) /\ (forall e, Output (VideoFailed e) ∉ l).
Proof.
  intros H. destruct (frame_events_quiet l H) as (? & ? & _ & Hm).
  repeat split; auto.
Qed.

(** Video assembly under its handler returns normally, changes nothing of
    the program state, and runs in one of the five ways. *)
Lemma guarded_assemble_cases (cfg : Config.t) (v : video_env) (every : nat)
    (name d : string) (w w' : world) (r : result unit) :
  d ∈ dirs w ->
  try_except (assemble cfg v every name d) (fun e => output (VideoFailed e)) w = (r, w') ->
  r = Ok tt /\ same_program_state w w' /\
  exists l, trace w' = trace w ++ l /\ assembly_run cfg v name d w w' l.
Proof.
  intros Hd. unfold try_except. rewrite (assemble_unfold _ _ _ _ _ _ Hd).
  cbv zeta.
  destruct (image_files_of _ _) as [|first rest] eqn:Hfs.
  { intros [= <- <-]. split; [reflexivity|]. split; [repeat split|].
    exists [Output CreatingVideo; Output NoImagesFound].
    split; [simpl; now rewrite <- app_assoc|]. now apply NoImages. }
  destruct (imread_result v (Path.join d first)) as [[|]|e0] eqn:Hfirst.
  2:{ unfold output, act. intros [= <- <-]. split; [reflexivity|].
      split; [repeat split|].
      exists [Output CreatingVideo; Imread (Path.join d first);
              Output (VideoFailed AttributeError)].
      split; [simpl; now rewrite <- !app_assoc|].
      apply (FirstImageFails _ _ _ _ _ _ _ first rest AttributeError);
        try reflexivity; try assumption;
        unfold encoding_failure, frames_written; now rewrite Hfirst. }
  2:{ unfold output, act. intros [= <- <-]. split; [reflexivity|].
      split; [repeat split|].
      exists [Output CreatingVideo; Imread (Path.join d first);
              Output (VideoFailed e0)].
      split; [simpl; now rewrite <- !app_assoc|].
      apply (FirstImageFails _ _ _ _ _ _ _ first rest e0);
        try reflexivity; try assumption;
        unfold encoding_failure, frames_written; now rewrite Hfirst. }
  assert (encoding_failure v d (first :: rest)
          = option_map snd (first_failure v d (first :: rest))) as Henc
    by (unfold encoding_failure; now rewrite Hfirst).
  assert (frames_written v d (first :: rest) = frames_handed v d (first :: rest))
    as Hfw by (unfold frames_written; now rewrite Hfirst).
  match goal with |- context [write_frames ?a ?b ?c ?e ?f ?g ?h] =>
    destruct (write_frames a b c e f g h) as [[[]|e1] w4] eqn:Hwf end.
  2:{ unfold output, act. intros [= <- <-].
      apply write_frames_effect in Hwf as ((Hf & Hdi & Hc & Hr) & l & Htr & Hall & Hwr & Hff).
      destruct (first_failure v d (first :: rest)) as [[ev e]|] eqn:Hg;
        [destruct Hff as ([= <-] & _)|discriminate Hff].
      split; [reflexivity|]. split.
      { repeat split; simpl; rewrite ?Hdi, ?Hc, ?Hr; now destruct (writer_opened v). }
      exists ([Output CreatingVideo; Imread (Path.join d first);
               WriterOpen (Path.join d name) (Config.video_fps cfg)] ++
              l ++ [Output (VideoFailed e1)]).
      split; [simpl; rewrite Htr; destruct (writer_opened v); simpl;
              now rewrite <- !app_assoc|].
      apply (FrameLoopFails _ _ _ _ _ _ _ (first :: rest)
               (frames_handed v d (first :: rest)) l e1);
        try reflexivity; try assumption.
      simpl. rewrite Hf. destruct (writer_opened v); simpl; set_solver. }
  apply write_frames_effect in Hwf as ((Hf & Hdi & Hc & Hr) & l & Htr & Hall & Hwr & Hff).
  destruct (first_failure v d (first :: rest)) as [[ev e]|] eqn:Hg;
    [destruct Hff as (Hff & _); discriminate Hff|].
  rewrite (first_failure_none _ _ _ Hg) in Hwr.
  destruct (Config.cleanup_images cfg) eqn:Hclean.
  2:{ intros [= <- <-]. split; [reflexivity|]. split.
      { repeat split; simpl; rewrite ?Hdi, ?Hc, ?Hr; now destruct (writer_opened v). }
      exists ([Output CreatingVideo; Imread (Path.join d first);
               WriterOpen (Path.join d name) (Config.video_fps cfg)] ++ l ++
              [WriterRelease; Output (VideoCreated (Path.join d name))]).
      split; [simpl; rewrite Htr; destruct (writer_opened v); simpl;
              now rewrite <- !app_assoc|].
      apply (Encoded _ _ _ _ _ _ _ (first :: rest) l);
        try reflexivity; try assumption; try discriminate.
      simpl. rewrite Hf. destruct (writer_opened v); simpl; set_solver. }
  match goal with |- context [remove_images ?a ?b ?c ?e] =>
    destruct (remove_images a b c e) as [[[]|e2] w6] eqn:Hrem end.
  - intros [= <- <-].
    apply remove_images_effect in Hrem
      as ((Hdi' & Hc' & Hr') & (l' & Htr' & Hall' & Hrm') & Hsub & Hkeep & Heq).
    split; [reflexivity|]. split.
    { repeat split; simpl; rewrite ?Hdi', ?Hc', ?Hr'; simpl;
        rewrite ?Hdi, ?Hc, ?Hr; now destruct (writer_opened v). }
    exists ([Output CreatingVideo; Imread (Path.join d first);
             WriterOpen (Path.join d name) (Config.video_fps cfg)] ++ l ++
            [WriterRelease; Output (VideoCreated (Path.join d name));
             Output CleaningImages] ++ l' ++ [Output ImagesCleaned]).
    split; [simpl; rewrite Htr'; simpl; rewrite Htr; destruct (writer_opened v);
            simpl; now rewrite <- !app_assoc|].
    apply (EncodedAndCleaned _ _ _ _ _ _ _ (first :: rest) l l' None);
      try reflexivity; try assumption; try discriminate.
    + simpl. simpl in Hsub. rewrite Hf in Hsub.
      destruct (writer_opened v); simpl in *; set_solver.
    + intros p Hp Hnot. simpl. apply Hkeep; [|exact Hnot]. simpl. rewrite Hf.
      destruct (writer_opened v); simpl; set_solver.
    + intros _. split; [now apply Hrm'|]. simpl. rewrite (Heq eq_refl). simpl.
      rewrite Hf. destruct (writer_opened v); simpl; set_solver.
  - unfold output, act. intros [= <- <-].
    apply remove_images_effect in Hrem
      as ((Hdi' & Hc' & Hr') & (l' & Htr' & Hall' & Hrm') & Hsub & Hkeep & Heq).
    split; [reflexivity|]. split.
    { repeat split; simpl; rewrite ?Hdi', ?Hc', ?Hr'; simpl;
        rewrite ?Hdi, ?Hc, ?Hr; now destruct (writer_opened v). }
    exists ([Output CreatingVideo; Imread (Path.join d first);
             WriterOpen (Path.join d name) (Config.video_fps cfg)] ++ l ++
            [WriterRelease; Output (VideoCreated (Path.join d name));
             Output CleaningImages] ++ l' ++ [Output (VideoFailed e2)]).
    split; [simpl; rewrite Htr'; simpl; rewrite Htr; destruct (writer_opened v);
            simpl; now rewrite <- !app_assoc|].
    apply (EncodedAndCleaned _ _ _ _ _ _ _ (first :: rest) l l' (Some e2));
      try reflexivity; try assumption; try discriminate.
    + simpl. simpl in Hsub. rewrite Hf in Hsub.
      destruct (writer_opened v); simpl in *; set_solver.
    + intros p Hp Hnot. simpl. apply Hkeep; [|exact Hnot]. simpl. rewrite Hf.
      destruct (writer_opened v); simpl; set_solver.
Qed.
(** What the five ways of video assembly have in common. *)
Lemma assembly_run_effect (cfg : Config.t) (v : video_env) (name d : string)
    (w w' : world) (l : list event) :
  assembly_run cfg v name d w w' l ->
  let fs := image_files_of (Config.image_format cfg) (listing d w) in
  let created : gset string := if writer_opened v then {[Path.join d name]} else ∅ in
  (exists l0, l = Output CreatingVideo :: l0 /\ steps l0 = []) /\
  written_frames l = map (Path.join d) (frames_written v d fs) /\
  (List.length (writers_opened l) <= 1)%nat /\
  (forall p, p ∈ files w -> p ∉ map (Path.join d) fs -> p ∈ files w') /\
  (forall e, encoding_failure v d fs = Some e ->
     last l = Some (Output (VideoFailed e)) /\
     (forall p, Output (VideoCreated p) ∉ l) /\
     removals l = [] /\ files w ⊆ files w') /\
  (assembly_succeeded l ->
     encoding_failure v d fs = None /\ fs <> [] /\
     if Config.cleanup_images cfg
     then removals l = map (Path.join d) fs /\
          files w' = (created ∪ files w) ∖ list_to_set (map (Path.join d) fs)
     else removals l = [] /\ files w' = created ∪ files w).
Proof.
  intros Hrun fs created. subst fs created.
  destruct Hrun as [Hfs -> Hfiles
                   |first rest e Hfs Henc Hfw -> Hfiles
                   |fs lw lf e Hfs Henc Hfw Hlf Hwr -> Hfiles
                   |fs lf Hfs Hne Henc Hclean Hlf Hwr -> Hfiles
                   |fs lf lr done Hfs Hne Henc Hclean Hlf Hwr Hlr -> Hsub Hkeep Hdone];
    rewrite Hfs in *.
  - split; [eexists; split; reflexivity|]. split; [reflexivity|].
    split; [simpl; lia|]. split; [intros p Hp _; now rewrite Hfiles|].
    split; [discriminate|].
    intros ((p & Hp) & _). exfalso. set_solver.
  - rewrite Henc, Hfw.
    split; [eexists; split; reflexivity|]. split; [reflexivity|].
    split; [simpl; lia|]. split; [intros p Hp _; now rewrite Hfiles|].
    split.
    + intros e' [= <-]. split; [reflexivity|]. split; [set_solver|].
      split; [reflexivity|]. now rewrite Hfiles.
    + intros (_ & Hno). exfalso. apply (Hno e). set_solver.
  - destruct (frame_events_quiet _ Hlf) as (Hrm & Hop & Hst & Hout).
    rewrite Henc, Hfw.
    split.
    { eexists; split; [reflexivity|]. unfold steps in *. simpl.
      rewrite omap_app, Hst. reflexivity. }
    split.
    { simpl. rewrite written_frames_app, Hwr. simpl. apply app_nil_r. }
    split.
    { simpl. rewrite writers_opened_app, Hop. simpl. lia. }
    split; [intros p Hp _; rewrite Hfiles; set_solver|].
    split.
    + intros e' [= <-]. split.
      { change (?a ++ ?b ++ [?c]) with (a ++ b ++ [c]).
        rewrite app_assoc. apply last_snoc. }
      split.
      { intros p Hin. apply (Hout (VideoCreated p) eq_refl). set_solver. }
      split; [simpl; rewrite removals_app, Hrm; reflexivity|].
      rewrite Hfiles. set_solver.
    + intros (_ & Hno). exfalso. apply (Hno e). set_solver.
  - destruct (frame_events_quiet _ Hlf) as (Hrm & Hop & Hst & Hout).
    rewrite Henc, (encoding_failure_none _ _ _ Henc), Hclean.
    split.
    { eexists; split; [reflexivity|]. unfold steps in *. simpl.
      rewrite omap_app, Hst. reflexivity. }
    split.
    { simpl. rewrite written_frames_app, Hwr. simpl. apply app_nil_r. }
    split.
    { simpl. rewrite writers_opened_app, Hop. simpl. lia. }
    split; [intros p Hp _; rewrite Hfiles; set_solver|].
    split; [discriminate|].
    intros _. split; [reflexivity|]. split; [exact Hne|].
    split; [simpl; rewrite removals_app, Hrm; reflexivity|exact Hfiles].
  - destruct (frame_events_quiet _ Hlf) as (Hrm & Hop & Hst & Hout).
    destruct (removal_events_quiet _ Hlr) as (Hwr' & Hop' & Hst' & Hout').
    rewrite Henc, (encoding_failure_none _ _ _ Henc), Hclean.
    split.
    { eexists; split; [reflexivity|]. unfold steps in *. simpl.
      rewrite omap_app, Hst. simpl. rewrite omap_app, Hst'. now destruct done. }
    split.
    { simpl. rewrite written_frames_app, Hwr. simpl.
      rewrite written_frames_app, Hwr'. simpl. apply app_nil_r. }
    split.
    { simpl. rewrite writers_opened_app, Hop. simpl.
      rewrite writers_opened_app, Hop'. simpl. lia. }
    split; [exact Hkeep|].
    split; [discriminate|].
    intros (_ & Hno). split; [reflexivity|]. split; [exact Hne|].
    destruct done as [e|].
    { exfalso. apply (Hno e). set_solver. }
    destruct (Hdone eq_refl) as (Hr & Hf). split; [|exact Hf].
    simpl. rewrite removals_app, Hrm. simpl. rewrite removals_app, Hr. simpl.
    apply app_nil_r.
Qed.

(** Video assembly under its handler: one encoding step and nothing else of
    the capture algorithm, whatever happens in it. *)
Lemma guarded_assemble_state (cfg : Config.t) (v : video_env) (every : nat)
    (name d : string) (w w' : world) (r : result unit) :
  d ∈ dirs w ->
  try_except (assemble cfg v every name d) (fun e => output (VideoFailed e)) w = (r, w') ->
  r = Ok tt /\ same_program_state w w' /\
  exists l, trace w' = trace w ++ Output CreatingVideo :: l /\ steps l = [].
Proof.
  intros Hd Heq.
  destruct (guarded_assemble_cases _ _ _ _ _ _ _ _ Hd Heq) as (-> & Hsame & l & Htr & Hrun).
  split; [reflexivity|]. split; [exact Hsame|].
  destruct (assembly_run_effect _ _ _ _ _ _ _ Hrun) as ((l0 & -> & Hst) & _).
  now exists l0.
Qed.

(** *** Enumeration and order *)

Lemma image_files_sorted (fmt : string) (names : list string) :
  Sorted String.le (image_files_of fmt names).
Proof. unfold image_files_of, sorted. apply Sorted_merge_sort. apply _. Qed.

Lemma image_files_permutation (fmt : string) (names : list string) :
  image_files_of fmt names
  ≡ₚ List.filter (fun f => Str.endswith f ("." +:+ fmt)) names.
Proof. unfold image_files_of, sorted. apply merge_sort_Permutation. Qed.

Lemma image_files_elem (fmt : string) (names : list string) (f : string) :
  f ∈ image_files_of fmt names <->
  f ∈ names /\ Str.endswith f ("." +:+ fmt) = true.
Proof.
  rewrite (image_files_permutation fmt names).
  rewrite !list_elem_of_In.
  exact (filter_In (fun f => Str.endswith f ("." +:+ fmt)) f names).
Qed.

(** *** Paths *)












(** ** The steps of a session *)

Lemma assemble_missing_directory (cfg : Config.t) (v : video_env) (every : nat)
    (name d : string) (w : world) :
  d ∉ dirs w ->
  assemble cfg v every name d w = (Raise OSError, emit (Output CreatingVideo) w).
Proof.
  intros Hd. unfold assemble, listdir. unfold bind at 1 2. unfold output at 1, act at 1.
  destruct (decide (d ∈ dirs (emit (Output CreatingVideo) w))) as [Hin|_];
    [now destruct Hd|reflexivity].
Qed.

(** Video assembly under its handler counts as the one step "encode", returns
    normally and leaves the program state alone. *)
Lemma guarded_assemble_steps (cfg : Config.t) (v : video_env) (every : nat)
    (name d : string) (w w' : world) (r : result unit) :
  try_except (assemble cfg v every name d) (fun e => output (VideoFailed e)) w = (r, w') ->
  r = Ok tt /\ same_program_state w w' /\
  steps (trace w') = steps (trace w) ++ [EncodeVideo].
Proof.
  destruct (decide (d ∈ dirs w)) as [Hd|Hd].
  - intros H. destruct (guarded_assemble_state _ _ _ _ _ _ _ _ Hd H)
      as (-> & Hsame & l & Htr & Hst).
    split; [reflexivity|]. split; [exact Hsame|].
    rewrite Htr, steps_app. simpl. now rewrite Hst.
  - unfold try_except. rewrite (assemble_missing_directory _ _ _ _ _ _ Hd).
    unfold output, act. intros [= <- <-].
    split; [reflexivity|]. split; [repeat split|].
    simpl. rewrite !steps_app. simpl. now rewrite app_nil_r.
Qed.

Lemma video_invoked_steps (tr : list event) :
  video_invoked tr <-> EncodeVideo ∈ steps tr.
Proof.
  unfold video_invoked, steps. rewrite list_elem_of_omap. split.
  - intros H. now exists (Output CreatingVideo).
  - intros (e & He & Hs). destruct e; try discriminate Hs.
    destruct m; try discriminate Hs. exact He.
Qed.

Lemma encode_in_run_steps (props : list cam_prop) (writes : list bool) (encode : bool) :
  EncodeVideo ∈ run_steps props writes encode <-> encode = true.
Proof.
  unfold run_steps. rewrite !elem_of_app. split.
  - intros [H|[H|[H|H]]].
    + apply list_elem_of_singleton in H. discriminate H.
    + apply list_elem_of_fmap in H as (p & Hp & _). discriminate Hp.
    + apply list_elem_of_In, in_concat in H as (l & Hl & Hin).
      apply in_map_iff in Hl as (b & <- & _).
      destruct b; simpl in Hin; intuition discriminate.
    + destruct encode; [reflexivity|inversion H].
  - intros ->. right; right; right. now left.
Qed.

(** *** The command line *)

Lemma cli_initialize_steps (cfg : Config.t) (opened : io bool) (w w1 : world)
    (r : result bool) :
  Camera.initialize_camera cfg opened w = (r, w1) ->
  (r = Ok true \/ r = Ok false) /\
  (r = Ok true ->
   steps (trace w1)
   = steps (trace w) ++ [OpenDevice] ++ map SetProperty (cli_properties cfg)).
Proof.
  unfold Camera.initialize_camera, cli_properties. unfold_prog.
  destruct opened as [[|]|e]; simpl;
    destruct (Config.auto_exposure cfg), (Config.brightness cfg =? 0),
      (Config.contrast cfg =? 0), (Config.saturation cfg =? 0); simpl;
    intros [= <- <-]; (split; [auto|]); intros Hr; try discriminate Hr;
    simpl; rewrite !steps_app; simpl; now rewrite <- ?app_assoc.
Qed.

Lemma cli_before_loop_steps (cfg : Config.t) (E : Camera.env) (w w1 : world)
    (d : string) :
  Camera.before_loop cfg E w = (Ok d, w1) ->
  steps (trace w1) = steps (trace w).
Proof.
  unfold Camera.before_loop, Camera.create_output_directory, Camera.save_config.
  unfold_prog.
  destruct (Camera.mkdir_result E) as [[]|?], (Camera.config_saved E) as [[]|?],
    (Config.interval_seconds cfg =? 0);
    simpl; intros [= <- <-]; simpl; rewrite !steps_app; simpl;
    now rewrite ?app_nil_r.
Qed.

(** Whatever the environment does, an iteration of the command line reads,
    writes if the read gave a frame, and sleeps. *)
Lemma cli_iteration_steps (cfg : Config.t) (d : string) (tk : Camera.tick) (w : world) :
  exists write : bool,
    steps (trace (snd (Camera.iteration cfg d tk w)))
    = steps (trace w) ++ iteration_steps write.
Proof.
  cli_cases cfg tk; rewrite !steps_app; simpl; rewrite ?app_nil_r;
    first [ exists true; now rewrite <- ?app_assoc
          | exists false; now rewrite <- ?app_assoc ].
Qed.

Lemma concat_iterations_cons (b : bool) (writes : list bool) :
  List.concat (map iteration_steps (b :: writes))
  = iteration_steps b ++ List.concat (map iteration_steps writes).
Proof. reflexivity. Qed.

Lemma cli_loop_steps (cfg : Config.t) (d : string) (e : Z)
    (ticks : list Camera.tick) (w : world) :
  exists writes : list bool,
    steps (trace (final (Camera.capture_loop cfg d e ticks w)))
    = steps (trace w) ++ List.concat (map iteration_steps writes).
Proof.
  revert w. induction ticks as [|tk ticks IH]; intros w; simpl.
  - exists []. destruct (is_recording w); simpl; now rewrite app_nil_r.
  - destruct (is_recording w); simpl; [|exists []; simpl; now rewrite app_nil_r].
    destruct (negb _); [exists []; simpl; now rewrite app_nil_r|].
    destruct (cli_iteration_steps cfg d tk w) as (b & Hb).
    destruct (Camera.iteration cfg d tk w) as [[[]|x] w1]; simpl in Hb.
    + destruct (IH w1) as (writes & Hw). exists (b :: writes).
      rewrite Hw, Hb, concat_iterations_cons. now rewrite <- !app_assoc.
    + exists [b]. rewrite concat_iterations_cons. simpl final. rewrite Hb.
      simpl. now rewrite app_nil_r.
Qed.

Lemma cli_after_loop_steps (cfg : Config.t) (v : video_env) (d : string)
    (w w1 : world) (r : result bool) :
  Camera.after_loop cfg v d w = (r, w1) ->
  r = Ok true /\ frame_count w1 = frame_count w /\
  steps (trace w1)
  = steps (trace w) ++
    (if Config.create_video cfg && (0 <? frame_count w)%N then [EncodeVideo] else []).
Proof.
  unfold Camera.after_loop, Camera.create_video.
  unfold bind at 1, gets at 1. unfold bind at 1, output at 1, act at 1.
  unfold bind at 1, when.
  destruct (Config.create_video cfg && (0 <? frame_count w)%N).
  - destruct (try_except _ _ _) as [r' w2] eqn:Hv.
    apply guarded_assemble_steps in Hv as (-> & (_ & Hc & _) & Hst).
    unfold pure. intros [= <- <-]. split; [reflexivity|].
    split; [exact Hc|]. rewrite Hst. simpl. rewrite steps_app. simpl.
    now rewrite app_nil_r.
  - unfold pure. intros [= <- <-]. split; [reflexivity|]. split; [reflexivity|].
    simpl. rewrite steps_app. simpl. now rewrite !app_nil_r.
Qed.

Lemma cli_cleanup_steps (cfg : Config.t) (w : world) :
  fst (Camera.cleanup cfg w) = Ok tt /\
  frame_count (snd (Camera.cleanup cfg w)) = frame_count w /\
  steps (trace (snd (Camera.cleanup cfg w))) = steps (trace w).
Proof.
  unfold Camera.cleanup. unfold_prog.
  destruct (Config.preview_window cfg); simpl; rewrite !steps_app; simpl;
    now rewrite ?app_nil_r.
Qed.

(** The steps of a finished session of the command line. *)
Lemma cli_session_steps (cfg : Config.t) (E : Camera.env) (w w' : world)
    (by_ : loop_exit) (r : result bool) :
  trace w = [] ->
  Camera.start_recording cfg E w = (Ended by_, r, w') ->
  exists writes,
    steps (trace w')
    = run_steps (cli_properties cfg) writes
        (match by_ with
         | Raised _ => false
         | _ => Config.create_video cfg && (0 <? frame_count w')%N
         end).
Proof.
  intros Hw. unfold Camera.start_recording.
  destruct (Camera.initialize_camera cfg (Camera.camera_opened E) w)
    as [[[|]|?] w1] eqn:Hinit; try discriminate.
  apply cli_initialize_steps in Hinit as (_ & Hinit). specialize (Hinit eq_refl).
  rewrite Hw in Hinit. change (steps []) with (@nil step) in Hinit.
  rewrite app_nil_l in Hinit.
  destruct (Camera.before_loop cfg E w1) as [[d|?] w2] eqn:Hbefore; try discriminate.
  apply cli_before_loop_steps in Hbefore.
  destruct (cli_loop_steps cfg d (Config.duration_minutes cfg * 60)
              (Camera.ticks E) w2) as (writes & Hloop).
  destruct (Camera.capture_loop _ _ _ _ _) as [w3|ex w3]; [discriminate|].
  simpl final in Hloop. rewrite Hbefore, Hinit in Hloop.
  destruct (cli_cleanup_steps cfg w3) as (Hr3 & _ & Hst3).
  destruct (Camera.after_loop cfg (Camera.video E) d w3) as [r1 w4] eqn:Hafter.
  destruct (cli_after_loop_steps _ _ _ _ _ _ Hafter) as (-> & Hc4 & Hst4).
  destruct (cli_cleanup_steps cfg w4) as (Hr5 & Hc5 & Hst5).
  destruct ex as [| | |x]; unfold try_finally, raise; rewrite ?Hafter;
    try (destruct (Camera.cleanup cfg w4) as [[[]|?] w5]; simpl in Hr5, Hc5, Hst5;
         try discriminate Hr5; intros [= <- <- <-]; exists writes;
         rewrite Hst5, Hc5, Hc4, Hst4, Hloop; unfold run_steps;
         now rewrite <- !app_assoc).
  destruct (Camera.cleanup cfg w3) as [[[]|?] w5]; simpl in Hr3, Hst3;
    try discriminate Hr3. intros [= <- <- <-]. exists writes.
  rewrite Hst3, Hloop. unfold run_steps. rewrite <- !app_assoc.
  now rewrite app_nil_r.
Qed.

(** *** The GUI worker *)


Lemma gui_before_loop_steps (cfg : Config.t) (E : Gui.env) (w w0 w1 : world)
    (is_opened : bool) (d : string) (e : option Z) :
  Gui.open_camera cfg E w = (Ok is_opened, w0) ->
  Gui.before_loop cfg E is_opened w0 = (Ok (Some (d, e)), w1) ->
  steps (trace w1)
  = steps (trace w) ++ [OpenDevice] ++ map SetProperty (gui_properties cfg).
Proof.
  unfold Gui.open_camera, Gui.before_loop, Gui.end_time_of, gui_properties.
  unfold_prog.
  destruct (Gui.camera_opened E) as [[|]|?]; simpl; intros [= <- <-]; simpl;
    try discriminate;
    destruct (Config.auto_exposure cfg), (Gui.mkdir_result E) as [[]|?],
      (Gui.config_saved E) as [[]|?], (Config.use_time_limit cfg),
      (Config.recording_time_limit cfg), (Config.interval_seconds cfg =? 0); simpl;
    intros [= <- <- <-]; simpl; rewrite !steps_app; simpl;
    now rewrite <- ?app_assoc.
Qed.

(** An iteration of the worker reads, writes if the read gave a frame, and
    sleeps; an exception cuts it short. *)
Lemma gui_iteration_steps (cfg : Config.t) (d : string) (tk : Gui.tick) (w : world) :
  exists l : list step,
    steps (trace (snd (Gui.iteration cfg d tk w))) = steps (trace w) ++ l /\
    EncodeVideo ∉ l /\
    (fst (Gui.iteration cfg d tk w) = Ok tt -> exists write, l = iteration_steps write).
Proof.
  gui_cases cfg tk; rewrite !steps_app; simpl; rewrite ?app_nil_r;
    rewrite <- ?app_assoc; simpl;
    (eexists; split; [reflexivity|]; split;
     [ intros H; repeat (apply elem_of_cons in H as [H|H]; [discriminate H|]);
       inversion H
     | intros Hr; try discriminate Hr;
       first [ now exists true | now exists false ] ]).
Qed.

Lemma gui_loop_steps (cfg : Config.t) (d : string) (e : option Z)
    (ticks : list Gui.tick) (w : world) :
  exists (writes : list bool) (partial : list step),
    steps (trace (final (Gui.capture_loop cfg d e ticks w)))
    = steps (trace w) ++ List.concat (map iteration_steps writes) ++ partial /\
    EncodeVideo ∉ partial /\
    match Gui.capture_loop cfg d e ticks w with
    | Exited (Raised _) _ => True
    | _ => partial = []
    end.
Proof.
  revert w. induction ticks as [|tk ticks IH]; intros w; simpl.
  - exists [], []. destruct (is_recording w); simpl; rewrite app_nil_r;
      repeat split; apply not_elem_of_nil.
  - destruct (is_recording w); simpl;
      [|exists [], []; simpl; rewrite app_nil_r; repeat split; apply not_elem_of_nil].
    destruct (negb _);
      [exists [], []; simpl; rewrite app_nil_r; repeat split; apply not_elem_of_nil|].
    destruct (gui_iteration_steps cfg d tk w) as (l & Hl & Hno & Hok).
    destruct (Gui.iteration cfg d tk w) as [[[]|x] w1]; simpl in Hl, Hok.
    + destruct (Hok eq_refl) as (b & ->).
      destruct (IH w1) as (writes & partial & Hw & Hp & Hm).
      exists (b :: writes), partial.
      rewrite Hw, Hl, concat_iterations_cons. rewrite <- !app_assoc.
      repeat split; assumption.
    + exists [], l. simpl. rewrite Hl. repeat split; assumption.
Qed.

Lemma gui_after_loop_steps (cfg : Config.t) (v : video_env) (d : string)
    (w w1 : world) (r : result unit) :
  try_except (Gui.after_loop cfg v d) Gui.on_error w = (r, w1) ->
  r = Ok tt /\ frame_count w1 = frame_count w /\
  steps (trace w1)
  = steps (trace w) ++
    (if Config.create_video cfg && (0 <? frame_count w)%N then [EncodeVideo] else []).
Proof.
  unfold try_except at 1. unfold Gui.after_loop, Gui._create_video.
  unfold bind at 1, gets at 1. unfold bind at 1, output at 1, act at 1.
  unfold when.
  destruct (Config.create_video cfg && (0 <? frame_count w)%N).
  - destruct (try_except _ _ _) as [r' w2] eqn:Hv.
    apply guarded_assemble_steps in Hv as (-> & (_ & Hc & _) & Hst).
    intros [= <- <-]. split; [reflexivity|].
    split; [exact Hc|]. rewrite Hst. simpl. rewrite steps_app. simpl.
    now rewrite app_nil_r.
  - unfold pure. intros [= <- <-]. split; [reflexivity|]. split; [reflexivity|].
    simpl. rewrite steps_app. simpl. now rewrite !app_nil_r.
Qed.

Lemma gui_release_steps (b : bool) (w : world) :
  fst (Gui.release b w) = Ok tt /\
  frame_count (snd (Gui.release b w)) = frame_count w /\
  steps (trace (snd (Gui.release b w))) = steps (trace w).
Proof.
  unfold Gui.release. unfold_prog.
  destruct b; simpl; rewrite ?steps_app; simpl; now rewrite ?app_nil_r.
Qed.

(** The steps of a finished session of the GUI worker. *)
Lemma gui_session_steps (cfg : Config.t) (E : Gui.env) (w w' : world)
    (by_ : loop_exit) :
  trace w = [] ->
  Gui._recording_worker cfg E w = (Ended by_, w') ->
  exists writes partial,
    steps (trace w')
    = run_steps (gui_properties cfg) writes false ++ partial ++
      (if match by_ with
          | Raised _ => false
          | _ => Config.create_video cfg && (0 <? frame_count w')%N
          end
       then [EncodeVideo] else []) /\
    EncodeVideo ∉ partial /\
    ((forall x, by_ <> Raised x) -> partial = []).
Proof.
  intros Hw. unfold Gui._recording_worker.
  destruct (Gui.open_camera cfg E w) as [[is_opened|?] w0] eqn:Hopen;
    [|discriminate].
  destruct (Gui.before_loop cfg E is_opened w0) as [[[[d e]|]|?] w1] eqn:Hbefore;
    try discriminate.
  pose proof (gui_before_loop_steps _ _ _ _ _ _ _ _ Hopen Hbefore) as Hsetup.
  rewrite Hw in Hsetup. change (steps []) with (@nil step) in Hsetup.
  rewrite app_nil_l in Hsetup.
  destruct (gui_loop_steps cfg d e (Gui.ticks E) w1)
    as (writes & partial & Hloop & Hno & Hm).
  destruct (Gui.capture_loop cfg d e (Gui.ticks E) w1) as [w2|ex w2];
    [discriminate|].
  simpl final in Hloop. rewrite Hsetup in Hloop.
  destruct (try_except (Gui.after_loop cfg (Gui.video E) d) Gui.on_error w2)
    as [r1 w3] eqn:Hafter.
  destruct (gui_after_loop_steps _ _ _ _ _ _ Hafter) as (-> & Hc3 & Hst3).
  destruct (gui_release_steps true w3) as (Hr4 & Hc4 & Hst4).
  destruct ex as [| | |x]; simpl in Hm; unfold try_finally; rewrite ?Hafter;
    try (destruct (Gui.release true w3) as [[[]|?] w4]; simpl in Hr4, Hc4, Hst4;
         try discriminate Hr4; intros H; simpl in H; injection H as <- <-;
         exists writes, partial;
         subst partial; rewrite Hst4, Hc4, Hc3, Hst3, Hloop; unfold run_steps;
         split;
         [repeat (rewrite <- app_assoc || rewrite app_nil_r || rewrite app_nil_l);
          reflexivity|];
         split; [apply not_elem_of_nil|intros _; reflexivity]).
  unfold Gui.on_error, Gui.release. unfold_prog. simpl.
  intros [= <- <-]. exists writes, partial. simpl.
  rewrite !steps_app, Hloop. simpl. unfold run_steps.
  split;
    [repeat (rewrite <- app_assoc || rewrite app_nil_r || rewrite app_nil_l);
     reflexivity|].
  split; [exact Hno|]. intros Hx. now destruct (Hx x).
Qed.

(** ** C5: the algorithm of the front-ends *)




(** ** C8: when video assembly is invoked *)

Lemma encode_flag_iff (by_ : loop_exit) (create : bool) (frames : N) :
  match by_ with
  | Raised _ => false
  | _ => create && (0 <? frames)%N
  end = true <->
  (forall x, by_ <> Raised x) /\ create = true /\ (0 < frames)%N.
Proof.
  destruct by_ as [| | |x]; rewrite ?andb_true_iff, ?N.ltb_lt;
    try (split; [intros [? ?]; repeat split; [discriminate|..]; assumption
                |intros (_ & ? & ?); split; assumption]).
  split; [discriminate|]. intros (H & _). now destruct (H x).
Qed.

(** C8, as the claim states it, fails: on the command line with a negative
    interval the first frame is saved and [time.sleep] then raises; the loop
    has ended, [create_video] is set and one frame was captured, yet video
    assembly is not invoked. *)
Lemma negative_interval_session_skips_video :
  let cfg := with_interval (-1) Camera.load_default_config in
  let run := Camera.start_recording cfg (cli_env [cli_tick 0; cli_tick 5])
               initial_world in
  fst (fst run) = Ended (Raised ValueError) /\
  Config.create_video cfg = true /\
  frame_count (snd run) = 1%N /\
  ~ video_invoked (trace (snd run)) /\
  ~ (video_invoked (trace (snd run)) <->
     Config.create_video cfg = true /\ (0 < frame_count (snd run))%N).
Proof.
  cbv zeta.
  assert (~ video_invoked (trace (snd (Camera.start_recording
            (with_interval (-1) Camera.load_default_config)
            (cli_env [cli_tick 0; cli_tick 5]) initial_world)))) as Hno.
  { rewrite video_invoked_steps.
    assert (steps (trace (snd (Camera.start_recording
              (with_interval (-1) Camera.load_default_config)
              (cli_env [cli_tick 0; cli_tick 5]) initial_world)))
            = [OpenDevice; SetProperty FRAME_WIDTH; SetProperty FRAME_HEIGHT;
               ReadFrame; WriteFile; DoSleep]) as -> by (vm_compute; reflexivity).
    intros H. repeat (apply elem_of_cons in H as [H|H]; [discriminate H|]).
    inversion H. }
  assert (frame_count (snd (Camera.start_recording
            (with_interval (-1) Camera.load_default_config)
            (cli_env [cli_tick 0; cli_tick 5]) initial_world)) = 1%N) as Hfc
    by (vm_compute; reflexivity).
  split; [vm_compute; reflexivity|]. split; [reflexivity|]. split; [exact Hfc|].
  split; [exact Hno|].
  intros [_ H]. apply Hno, H. split; [reflexivity|]. rewrite Hfc. lia.
Qed.

(** C8, amended: after a capture loop that ended by its condition (the flag
    cleared or the time limit reached), video assembly is invoked if and only
    if [create_video] is set and at least one frame was captured; after a
    loop ended by an exception it is not invoked.  On the command line and in
    the GUI worker. *)
Theorem video_assembly_invoked_iff :
  (forall cfg E w by_ r w',
     trace w = [] ->
     Camera.start_recording cfg E w = (Ended by_, r, w') ->
     (video_invoked (trace w') <->
      (forall x, by_ <> Raised x) /\
      Config.create_video cfg = true /\ (0 < frame_count w')%N)) /\
  (forall cfg E w by_ w',
     trace w = [] ->
     Gui._recording_worker cfg E w = (Ended by_, w') ->
     (video_invoked (trace w') <->
      (forall x, by_ <> Raised x) /\
      Config.create_video cfg = true /\ (0 < frame_count w')%N)).
Proof.
  split.
  - intros cfg E w by_ r w' Hw Hrun.
    destruct (cli_session_steps cfg E w w' by_ r Hw Hrun) as (writes & Hst).
    now rewrite video_invoked_steps, Hst, encode_in_run_steps, encode_flag_iff.
  - intros cfg E w by_ w' Hw Hrun.
    destruct (gui_session_steps cfg E w w' by_ Hw Hrun)
      as (writes & partial & Hst & Hno & _).
    rewrite video_invoked_steps, Hst, <- encode_flag_iff, !elem_of_app.
    rewrite encode_in_run_steps. split.
    + intros [H|[H|H]]; [discriminate H|now destruct Hno|].
      destruct (match by_ with Raised _ => false | _ => _ end);
        [reflexivity|inversion H].
    + intros ->. right; right. now left.
Qed.

Lemma video_assembly_invoked_iff_witness :
  video_invoked
    (trace (snd (Camera.start_recording Camera.load_default_config
                   (cli_env [cli_tick 0; cli_tick 3600]) initial_world))) /\
  ~ video_invoked
      (trace (snd (Gui._recording_worker Gui.default_config
                     (gui_env [gui_tick_write_raises 0; gui_tick 5]) initial_world))).
Proof.
  split.
  - apply (proj1 video_assembly_invoked_iff
             Camera.load_default_config (cli_env [cli_tick 0; cli_tick 3600])
             initial_world TimeLimit (Ok true)).
    + reflexivity.
    + vm_compute. reflexivity.
    + split; [intros x Hx; discriminate Hx|]. split; [reflexivity|].
      vm_compute. reflexivity.
  - intros H.
    apply (proj2 video_assembly_invoked_iff
             Gui.default_config (gui_env [gui_tick_write_raises 0; gui_tick 5])
             initial_world (Raised CvError)) in H.
    + destruct H as (H & _). now apply (H CvError).
    + reflexivity.
    + vm_compute. reflexivity.
Defined.

(** ** C7: failures of input and output *)












(** ** C6: the layout of a session on disk *)

Lemma saved_files_app (l1 l2 : list event) :
  saved_files (l1 ++ l2) = saved_files l1 ++ saved_files l2.
Proof. apply omap_app. Qed.



Lemma prefix_cons (a b : ascii) (s1 s2 : string) :
  String.prefix (String a s1) (String b s2)
  = if ascii_dec a b then String.prefix s1 s2 else false.
Proof. reflexivity. Qed.












(** ** The phases of a run *)

Lemma cli_iteration_events (cfg : Config.t) (d : string) (tk : Camera.tick) (w : world) :
  exists l, trace (snd (Camera.iteration cfg d tk w)) = trace w ++ l /\
    Forall (fun e => capture_event e = true) l.
Proof.
  cli_cases cfg tk;
    (eexists; split; [rewrite <- ?app_assoc; reflexivity|simpl; repeat constructor]).
Qed.

Lemma gui_iteration_events (cfg : Config.t) (d : string) (tk : Gui.tick) (w : world) :
  exists l, trace (snd (Gui.iteration cfg d tk w)) = trace w ++ l /\
    Forall (fun e => capture_event e = true) l.
Proof.
  gui_cases cfg tk;
    (eexists; split; [rewrite <- ?app_assoc; reflexivity|simpl; repeat constructor]).
Qed.

Lemma cli_loop_events (cfg : Config.t) (d : string) (e : Z)
    (ticks : list Camera.tick) (w : world) :
  exists l, trace (final (Camera.capture_loop cfg d e ticks w)) = trace w ++ l /\
    Forall (fun e => capture_event e = true) l.
Proof.
  revert w. induction ticks as [|tk ticks IH]; intros w; simpl.
  - exists []. destruct (is_recording w); simpl; now rewrite app_nil_r.
  - destruct (is_recording w); simpl; [|exists []; now rewrite app_nil_r].
    destruct (negb _); [exists []; simpl; now rewrite app_nil_r|].
    destruct (cli_iteration_events cfg d tk w) as (l1 & H1 & F1).
    destruct (Camera.iteration cfg d tk w) as [[[]|x] w1]; simpl in H1.
    + destruct (IH w1) as (l2 & H2 & F2). exists (l1 ++ l2).
      rewrite H2, H1, <- app_assoc. split; [reflexivity|now apply Forall_app].
    + exists l1. now split.
Qed.

Lemma gui_loop_events (cfg : Config.t) (d : string) (e : option Z)
    (ticks : list Gui.tick) (w : world) :
  exists l, trace (final (Gui.capture_loop cfg d e ticks w)) = trace w ++ l /\
    Forall (fun e => capture_event e = true) l.
Proof.
  revert w. induction ticks as [|tk ticks IH]; intros w; simpl.
  - exists []. destruct (is_recording w); simpl; now rewrite app_nil_r.
  - destruct (is_recording w); simpl; [|exists []; now rewrite app_nil_r].
    destruct (negb _); [exists []; simpl; now rewrite app_nil_r|].
    destruct (gui_iteration_events cfg d tk w) as (l1 & H1 & F1).
    destruct (Gui.iteration cfg d tk w) as [[[]|x] w1]; simpl in H1.
    + destruct (IH w1) as (l2 & H2 & F2). exists (l1 ++ l2).
      rewrite H2, H1, <- app_assoc. split; [reflexivity|now apply Forall_app].
    + exists l1. now split.
Qed.
Lemma cli_initialize_events (cfg : Config.t) (opened : io bool) (w : world) :
  exists pre,
    trace (snd (Camera.initialize_camera cfg opened w)) = trace w ++ pre /\
    Forall (fun e => setup_event e = true) pre /\
    same_state w (snd (Camera.initialize_camera cfg opened w)) /\
    fst (Camera.initialize_camera cfg opened w)
    = Ok (match opened with Returns true => true | _ => false end).
Proof.
  unfold Camera.initialize_camera. unfold_prog.
  destruct opened as [[|]|e]; simpl;
    destruct (Config.auto_exposure cfg), (Config.brightness cfg =? 0),
      (Config.contrast cfg =? 0), (Config.saturation cfg =? 0); simpl;
    (eexists; split; [rewrite <- ?app_assoc; reflexivity|];
     split; [simpl; repeat constructor|]; split; [repeat split|reflexivity]).
Qed.

(** The statements in front of the command line's loop fail only when the
    directory cannot be created or the interval is 0; a configuration that
    cannot be saved is reported and the run goes on. *)
Lemma cli_before_loop_events (cfg : Config.t) (E : Camera.env) (w : world) :
  let d := Path.join (Config.output_dir cfg) (session_dirname cfg (Camera.started E)) in
  exists pre,
    trace (snd (Camera.before_loop cfg E w)) = trace w ++ pre /\
    Forall (fun e => setup_event e = true) pre /\
    match Camera.mkdir_result E with
    | Raises e =>
        fst (Camera.before_loop cfg E w) = Raise e /\
        same_state w (snd (Camera.before_loop cfg E w))
    | Returns _ =>
        dirs (snd (Camera.before_loop cfg E w)) = {[d]} ∪ dirs w /\
        files (snd (Camera.before_loop cfg E w))
        = (match Camera.config_saved E with
           | Returns _ => {[Path.join d "config.json"]}
           | Raises _ => ∅
           end) ∪ files w /\
        frame_count (snd (Camera.before_loop cfg E w)) = 0%N /\
        is_recording (snd (Camera.before_loop cfg E w)) = true /\
        fst (Camera.before_loop cfg E w)
        = (if Config.interval_seconds cfg =? 0 then Raise ZeroDivisionError else Ok d) /\
        (Config.interval_seconds cfg <> 0 ->
         Output (RecordingStarted
                   (Some (Config.duration_minutes cfg * 60
                          / Config.interval_seconds cfg))) ∈ pre)
    end.
Proof.
  cbv zeta.
  unfold Camera.before_loop, Camera.create_output_directory, Camera.save_config.
  unfold_prog.
  destruct (Camera.mkdir_result E) as [[]|?], (Camera.config_saved E) as [[]|?],
    (Config.interval_seconds cfg =? 0) eqn:Hz; simpl;
    (eexists; split; [rewrite <- ?app_assoc; reflexivity|];
     split; [simpl; repeat constructor|]; repeat split; try reflexivity;
     try (intros Hnz; apply Z.eqb_eq in Hz; now destruct Hnz);
     set_solver).
Qed.
Lemma frame_event_closing (l : list event) :
  Forall (fun e => frame_event e = true) l ->
  Forall (fun e => closing_event e = true) l.
Proof.
  intros H. eapply Forall_impl; [exact H|].
  intros [] He; try discriminate He; try reflexivity.
  destruct m; try discriminate He; reflexivity.
Qed.

Lemma removal_event_closing (l : list event) :
  Forall (fun e => removal_event e = true) l ->
  Forall (fun e => closing_event e = true) l.
Proof.
  intros H. eapply Forall_impl; [exact H|].
  intros [] He; try discriminate He; reflexivity.
Qed.

(** Whatever happens in it, video assembly under its handler returns
    normally and touches neither the flag, the counter nor a directory. *)
Lemma guarded_assemble_events (cfg : Config.t) (v : video_env) (every : nat)
    (name d : string) (w w' : world) (r : result unit) :
  try_except (assemble cfg v every name d) (fun e => output (VideoFailed e)) w = (r, w') ->
  r = Ok tt /\ same_program_state w w' /\
  exists l, trace w' = trace w ++ l /\ Forall (fun e => closing_event e = true) l.
Proof.
  destruct (decide (d ∈ dirs w)) as [Hd|Hd].
  - intros H. destruct (guarded_assemble_cases _ _ _ _ _ _ _ _ Hd H)
      as (-> & Hsame & l & Htr & Hrun).
    split; [reflexivity|]. split; [exact Hsame|]. exists l. split; [exact Htr|].
    destruct Hrun as [_ -> _
                     |first rest e _ _ _ -> _
                     |fs lw lf e _ _ _ Hlf _ -> _
                     |fs lf _ _ _ _ Hlf _ -> _
                     |fs lf lr done _ _ _ _ Hlf _ Hlr -> _ _ _].
    + repeat constructor.
    + repeat constructor.
    + apply frame_event_closing in Hlf.
      repeat first [ assumption | reflexivity | apply Forall_nil_2
                   | apply Forall_app; split | apply Forall_cons; split ].
    + apply frame_event_closing in Hlf.
      repeat first [ assumption | reflexivity | apply Forall_nil_2
                   | apply Forall_app; split | apply Forall_cons; split ].
    + apply frame_event_closing in Hlf. apply removal_event_closing in Hlr.
      repeat first [ assumption | reflexivity | apply Forall_nil_2
                   | apply Forall_app; split | apply Forall_cons; split ].
      all: now destruct done.
  - unfold try_except. rewrite (assemble_missing_directory _ _ _ _ _ _ Hd).
    unfold output, act. intros [= <- <-].
    split; [reflexivity|]. split; [repeat split|].
    eexists. split; [simpl; rewrite <- ?app_assoc; reflexivity|repeat constructor].
Qed.

Lemma cli_after_loop_events (cfg : Config.t) (v : video_env) (d : string)
    (w w1 : world) (r : result bool) :
  Camera.after_loop cfg v d w = (r, w1) ->
  r = Ok true /\ same_program_state w w1 /\
  exists post,
    trace w1 = trace w ++ post /\ Forall (fun e => closing_event e = true) post.
Proof.
  unfold Camera.after_loop, Camera.create_video.
  unfold bind at 1, gets at 1. unfold bind at 1, output at 1, act at 1.
  unfold bind at 1, when.
  destruct (Config.create_video cfg && (0 <? frame_count w)%N).
  - destruct (try_except _ _ _) as [r' w2] eqn:Hv.
    apply guarded_assemble_events in Hv as (-> & Hsame & l & Htr & Hl).
    intros [= <- <-]. split; [reflexivity|]. split; [exact Hsame|].
    exists (Output (RecordingDone (frame_count w)) :: l).
    split; [rewrite Htr; simpl; now rewrite <- app_assoc|now constructor].
  - unfold pure. intros [= <- <-]. split; [reflexivity|]. split; [repeat split|].
    eexists. split; [reflexivity|repeat constructor].
Qed.

Lemma cli_cleanup_events (cfg : Config.t) (w : world) :
  exists post,
    trace (snd (Camera.cleanup cfg w)) = trace w ++ post /\
    Forall (fun e => closing_event e = true) post /\
    CameraRelease ∈ post /\
    last post = Some (Output ResourcesReleased) /\
    fst (Camera.cleanup cfg w) = Ok tt /\
    is_recording (snd (Camera.cleanup cfg w)) = false /\
    frame_count (snd (Camera.cleanup cfg w)) = frame_count w /\
    dirs (snd (Camera.cleanup cfg w)) = dirs w /\
    files (snd (Camera.cleanup cfg w)) = files w.
Proof.
  unfold Camera.cleanup. unfold_prog.
  destruct (Config.preview_window cfg); simpl;
    (eexists; split; [rewrite <- ?app_assoc; reflexivity|];
     split; [simpl; repeat constructor|]; split; [set_solver|]; repeat split).
Qed.
(** The shape of a run of the command line: the statements in front of the
    loop, the loop, and what follows it. *)
Lemma cli_session_structure (cfg : Config.t) (E : Camera.env) (w w' : world)
    (s : session) (r : result bool) :
  Camera.start_recording cfg E w = (s, r, w') ->
  match cli_session_loop cfg E w with
  | None =>
      s = NotStarted /\
      exists pre, trace w' = trace w ++ pre /\
        Forall (fun e => setup_event e = true) pre
  | Some st =>
      s = session_of (Some st) /\
      exists d w2 pre post,
        st = Camera.capture_loop cfg d (Config.duration_minutes cfg * 60)
               (Camera.ticks E) w2 /\
        trace w2 = trace w ++ pre /\
        Forall (fun e => setup_event e = true) pre /\
        frame_count w2 = 0%N /\ is_recording w2 = true /\
        d = Path.join (Config.output_dir cfg) (session_dirname cfg (Camera.started E)) /\
        d ∈ dirs w2 /\
        Output (RecordingStarted
                  (Some (Config.duration_minutes cfg * 60
                         / Config.interval_seconds cfg))) ∈ pre /\
        trace w' = trace (final st) ++ post /\
        Forall (fun e => closing_event e = true) post /\
        frame_count w' = frame_count (final st) /\
        match st with
        | Pending _ => post = [] /\ r = Ok true
        | Exited by_ _ =>
            is_recording w' = false /\ CameraRelease ∈ post /\
            last post = Some (Output ResourcesReleased) /\
            r = match by_ with Raised e => Raise e | _ => Ok true end
        end
  end.
Proof.
  unfold Camera.start_recording, cli_session_loop.
  destruct (cli_initialize_events cfg (Camera.camera_opened E) w)
    as (pre1 & Htr1 & Hpre1 & (_ & _ & Hc1 & Hr1) & Hres1).
  destruct (Camera.initialize_camera cfg (Camera.camera_opened E) w) as [r1 w1].
  simpl in Htr1, Hc1, Hr1, Hres1. subst r1.
  destruct (Camera.camera_opened E) as [[|]|e0];
    try (intros [= <- <- <-]; split; [reflexivity|]; now exists pre1).
  pose proof (cli_before_loop_events cfg E w1) as (pre2 & Htr2 & Hpre2 & Hbefore).
  destruct (Camera.before_loop cfg E w1) as [r2 w2]. simpl in Htr2, Hbefore.
  assert (trace w2 = trace w ++ pre1 ++ pre2) as Htr12
    by (now rewrite Htr2, Htr1, <- app_assoc).
  assert (Forall (fun e => setup_event e = true) (pre1 ++ pre2)) as Hpre12
    by (now apply Forall_app).
  destruct (Camera.mkdir_result E) as [[]|e1].
  2:{ destruct Hbefore as (-> & _). intros [= <- <- <-]. split; [reflexivity|].
      now exists (pre1 ++ pre2). }
  destruct Hbefore as (Hd2 & _ & Hc2 & Hrec2 & -> & Hann).
  destruct (Config.interval_seconds cfg =? 0) eqn:Hz.
  { intros [= <- <- <-]. split; [reflexivity|]. now exists (pre1 ++ pre2). }
  apply Z.eqb_neq in Hz. specialize (Hann Hz).
  set (d := Path.join (Config.output_dir cfg) (session_dirname cfg (Camera.started E)))
    in *.
  assert (d ∈ dirs w2) as Hin2 by (rewrite Hd2; set_solver).
  assert (Output (RecordingStarted
                    (Some (Config.duration_minutes cfg * 60
                           / Config.interval_seconds cfg))) ∈ pre1 ++ pre2) as Hann'
    by (apply elem_of_app; now right).
  destruct (Camera.capture_loop cfg d (Config.duration_minutes cfg * 60)
              (Camera.ticks E) w2) as [w3|by_ w3] eqn:Hloop.
  { intros [= <- <- <-]. split; [reflexivity|].
    exists d, w2, (pre1 ++ pre2), []. rewrite app_nil_r. now repeat split. }
  assert (forall r3 w4,
            try_finally (Camera.after_loop cfg (Camera.video E) d) (Camera.cleanup cfg) w3
            = (r3, w4) ->
            r3 = Ok true /\ is_recording w4 = false /\ frame_count w4 = frame_count w3 /\
            exists post, trace w4 = trace w3 ++ post /\
              Forall (fun e => closing_event e = true) post /\
              CameraRelease ∈ post /\ last post = Some (Output ResourcesReleased))
    as Hnormal.
  { intros r3 w4. unfold try_finally.
    destruct (Camera.after_loop cfg (Camera.video E) d w3) as [ra wa] eqn:Hafter.
    apply cli_after_loop_events in Hafter as (-> & (_ & Hca & _) & posta & Htra & Hposta).
    destruct (cli_cleanup_events cfg wa)
      as (postc & Htrc & Hpostc & Hin & Hlast & Hrc & Hrecc & Hcc & _).
    destruct (Camera.cleanup cfg wa) as [[[]|?] wc]; simpl in *; try discriminate Hrc.
    intros [= <- <-]. split; [reflexivity|]. split; [exact Hrecc|].
    split; [congruence|]. exists (posta ++ postc).
    split; [now rewrite Htrc, Htra, <- app_assoc|].
    split; [now apply Forall_app|]. split; [set_solver|].
    destruct postc as [|x postc]; [discriminate Hlast|].
    now rewrite last_app_cons. }
  destruct by_ as [| | |x].
  1-3: destruct (try_finally _ _ w3) as [r3 w4];
       destruct (Hnormal _ _ eq_refl) as (-> & Hrec & Hc & post & Htr & Hpost & Hin & Hlast);
       intros [= <- <- <-]; (split; [reflexivity|]);
       exists d, w2, (pre1 ++ pre2), post; now repeat split.
  unfold try_finally, raise.
  destruct (cli_cleanup_events cfg w3)
    as (postc & Htrc & Hpostc & Hin & Hlast & Hrc & Hrecc & Hcc & _).
  destruct (Camera.cleanup cfg w3) as [[[]|?] wc]; simpl in *; try discriminate Hrc.
  intros [= <- <- <-]. split; [reflexivity|].
  exists d, w2, (pre1 ++ pre2), postc. now repeat split.
Qed.
(** What the worker has established when it enters its loop. *)
Lemma gui_before_loop_events (cfg : Config.t) (E : Gui.env) (b : bool) (w : world) :
  exists pre,
    trace (snd (Gui.before_loop cfg E b w)) = trace w ++ pre /\
    Forall (fun e => setup_event e = true) pre /\
    forall d e,
      fst (Gui.before_loop cfg E b w) = Ok (Some (d, e)) ->
      frame_count (snd (Gui.before_loop cfg E b w)) = 0%N /\
      is_recording (snd (Gui.before_loop cfg E b w)) = true /\
      d = Path.join (Config.output_dir cfg) (session_dirname cfg (Gui.started E)) /\
      d ∈ dirs (snd (Gui.before_loop cfg E b w)) /\
      match e with
      | Some t =>
          exists m, Config.use_time_limit cfg = true /\
            Config.recording_time_limit cfg = Config.Minutes m /\ t = m * 60 /\
            Config.interval_seconds cfg <> 0 /\
            Output (RecordingStarted (Some (m * 60 / Config.interval_seconds cfg))) ∈ pre
      | None =>
          (Config.use_time_limit cfg = false \/
           Config.recording_time_limit cfg = Config.Unlimited) /\
          Output (RecordingStarted None) ∈ pre
      end.
Proof.
  unfold Gui.before_loop, Gui.end_time_of. unfold_prog.
  destruct b; simpl.
  2:{ eexists. split; [reflexivity|]. split; [repeat constructor|].
      intros d e H. discriminate H. }
  destruct (Config.auto_exposure cfg), (Gui.mkdir_result E) as [[]|?],
    (Gui.config_saved E) as [[]|?], (Config.use_time_limit cfg),
    (Config.recording_time_limit cfg) as [|m|],
    (Config.interval_seconds cfg =? 0) eqn:Hz; simpl.
  all: eexists; split; [rewrite <- ?app_assoc; reflexivity|].
  all: split; [simpl; repeat constructor|].
  all: intros ? ? Hres; try discriminate Hres; injection Hres as <- <-.
  all: split; [reflexivity|]; split; [reflexivity|]; split; [reflexivity|].
  all: split; [set_solver|].
  all: try (split; [auto|set_solver]).
  all: exists m; apply Z.eqb_neq in Hz; repeat split; try assumption; set_solver.
Qed.

Lemma gui_after_loop_events (cfg : Config.t) (v : video_env) (d : string)
    (w w1 : world) (r : result unit) :
  try_except (Gui.after_loop cfg v d) Gui.on_error w = (r, w1) ->
  r = Ok tt /\ same_program_state w w1 /\
  exists post,
    trace w1 = trace w ++ post /\ Forall (fun e => closing_event e = true) post /\
    forall x, Output (RecordingError x) ∉ post.
Proof.
  unfold try_except at 1. unfold Gui.after_loop, Gui._create_video.
  unfold bind at 1, gets at 1. unfold bind at 1, output at 1, act at 1.
  unfold when.
  destruct (Config.create_video cfg && (0 <? frame_count w)%N).
  - destruct (try_except _ _ _) as [r' w2] eqn:Hv.
    destruct (decide (d ∈ dirs (emit (Output (RecordingDone (frame_count w))) w)))
      as [Hd|Hd].
    + destruct (guarded_assemble_cases _ _ _ _ _ _ _ _ Hd Hv)
        as (-> & Hsame & l & Htr & Hrun).
      apply guarded_assemble_events in Hv as (_ & _ & l' & Htr' & Hl).
      assert (l' = l) as -> by (rewrite Htr in Htr'; now apply app_inv_head in Htr').
      intros [= <- <-]. split; [reflexivity|]. split; [exact Hsame|].
      exists (Output (RecordingDone (frame_count w)) :: l).
      split; [rewrite Htr; simpl; now rewrite <- app_assoc|].
      split; [now constructor|].
      intros x [Hx|Hx]%elem_of_cons; [discriminate Hx|].
      rewrite Forall_forall in Hl.
      destruct Hrun as [_ -> _
                       |first rest e _ _ _ -> _
                       |fs lw lf e _ _ _ Hlf _ -> _
                       |fs lf _ _ _ _ Hlf _ -> _
                       |fs lf lr done _ _ _ _ Hlf _ Hlr -> _ _ _].
      * set_solver.
      * set_solver.
      * apply frame_events_quiet in Hlf as (_ & _ & _ & Hq).
        specialize (Hq (RecordingError x) eq_refl). set_solver.
      * apply frame_events_quiet in Hlf as (_ & _ & _ & Hq).
        specialize (Hq (RecordingError x) eq_refl). set_solver.
      * apply frame_events_quiet in Hlf as (_ & _ & _ & Hq).
        specialize (Hq (RecordingError x) eq_refl).
        apply removal_events_quiet in Hlr as (_ & _ & _ & Hq').
        specialize (Hq' (RecordingError x)). destruct done; set_solver.
    + unfold try_except in Hv. rewrite (assemble_missing_directory _ _ _ _ _ _ Hd) in Hv.
      unfold output, act in Hv. injection Hv as <- <-.
      intros [= <- <-]. split; [reflexivity|]. split; [repeat split|].
      eexists. split; [simpl; rewrite <- ?app_assoc; reflexivity|].
      split; [repeat constructor|]. set_solver.
  - unfold pure. intros [= <- <-]. split; [reflexivity|]. split; [repeat split|].
    eexists. split; [reflexivity|]. split; [repeat constructor|]. set_solver.
Qed.
Lemma gui_release_events (b : bool) (w : world) :
  Gui.release b w
  = (Ok tt, set_recording false (if b then emit CameraRelease w else w)) .
Proof. unfold Gui.release. unfold_prog. now destruct b. Qed.

(** The shape of a run of the GUI worker. *)
Lemma gui_session_structure (cfg : Config.t) (E : Gui.env) (w w' : world)
    (s : session) :
  Gui._recording_worker cfg E w = (s, w') ->
  s = session_of (gui_session_loop cfg E w) /\
  match gui_session_loop cfg E w with
  | None =>
      is_recording w' = false /\
      exists pre post,
        trace w' = trace w ++ pre ++ post /\
        Forall (fun e => setup_event e = true) pre /\
        Forall (fun e => closing_event e = true) post /\
        match Gui.camera_opened E with
        | Returns _ => last post = Some CameraRelease
        | Raises x => post = [Output (RecordingError x)]
        end
  | Some st =>
      exists d e w2 pre post,
        st = Gui.capture_loop cfg d e (Gui.ticks E) w2 /\
        trace w2 = trace w ++ pre /\
        Forall (fun e => setup_event e = true) pre /\
        frame_count w2 = 0%N /\ is_recording w2 = true /\
        d = Path.join (Config.output_dir cfg) (session_dirname cfg (Gui.started E)) /\
        d ∈ dirs w2 /\
        match e with
        | Some t =>
            exists m, Config.use_time_limit cfg = true /\
              Config.recording_time_limit cfg = Config.Minutes m /\ t = m * 60 /\
              Config.interval_seconds cfg <> 0 /\
              Output (RecordingStarted (Some (m * 60 / Config.interval_seconds cfg)))
              ∈ pre
        | None =>
            (Config.use_time_limit cfg = false \/
             Config.recording_time_limit cfg = Config.Unlimited) /\
            Output (RecordingStarted None) ∈ pre
        end /\
        trace w' = trace (final st) ++ post /\
        Forall (fun e => closing_event e = true) post /\
        frame_count w' = frame_count (final st) /\
        match st with
        | Pending _ => post = []
        | Exited by_ _ =>
            is_recording w' = false /\ last post = Some CameraRelease /\
            forall x, Output (RecordingError x) ∈ post <-> by_ = Raised x
        end
  end.
Proof.
  intros Hrun. split.
  { rewrite <- gui_session_of_loop. now rewrite Hrun. }
  revert Hrun. unfold Gui._recording_worker, gui_session_loop.
  unfold Gui.open_camera, call.
  destruct (Gui.camera_opened E) as [b|x0].
  2:{ unfold try_finally, Gui.on_error, output, act. cbv beta iota.
      rewrite gui_release_events.
      intros [= <- <-]. split; [reflexivity|].
      exists [VideoCapture (Config.camera_index cfg)], [Output (RecordingError x0)].
      simpl. rewrite <- app_assoc. repeat split; repeat constructor. }
  set (w0 := emit (VideoCapture (Config.camera_index cfg)) w).
  destruct (gui_before_loop_events cfg E b w0) as (pre & Htr & Hpre & Hentry).
  assert (Forall (fun e => setup_event e = true)
            (VideoCapture (Config.camera_index cfg) :: pre)) as Hpre'
    by (now constructor).
  destruct (Gui.before_loop cfg E b w0) as [[[[d e]|]|x1] w1]; simpl in Htr.
  - destruct (Hentry d e eq_refl) as (Hc1 & Hr1 & Hd1 & Hin1 & Hann1).
    simpl in Hc1, Hr1, Hin1.
    assert (match e with
            | Some t =>
                exists m, Config.use_time_limit cfg = true /\
                  Config.recording_time_limit cfg = Config.Minutes m /\ t = m * 60 /\
                  Config.interval_seconds cfg <> 0 /\
                  Output (RecordingStarted (Some (m * 60 / Config.interval_seconds cfg)))
                  ∈ VideoCapture (Config.camera_index cfg) :: pre
            | None =>
                (Config.use_time_limit cfg = false \/
                 Config.recording_time_limit cfg = Config.Unlimited) /\
                Output (RecordingStarted None)
                ∈ VideoCapture (Config.camera_index cfg) :: pre
            end) as Hann.
    { destruct e as [t|].
      - destruct Hann1 as (m & H1 & H2 & H3 & H4 & H5). exists m.
        repeat split; try assumption. now right.
      - destruct Hann1 as (H1 & H2). split; [exact H1|now right]. }
    clear Hann1.
    assert (trace w1 = trace w ++ VideoCapture (Config.camera_index cfg) :: pre) as Htr1
      by (rewrite Htr; simpl; now rewrite <- app_assoc).
    destruct (Gui.capture_loop cfg d e (Gui.ticks E) w1) as [w2|by_ w2] eqn:Hloop.
    { intros [= <- <-]. exists d, e, w1, (VideoCapture (Config.camera_index cfg) :: pre), [].
      simpl. rewrite app_nil_r. now repeat split. }
    destruct by_ as [| | |x].
    1-3: unfold try_finally;
         destruct (try_except _ _ w2) as [ra wa] eqn:Hafter;
         apply gui_after_loop_events in Hafter
           as (-> & (_ & Hca & _) & post & Htra & Hpost & Hno);
         rewrite gui_release_events; intros [= <- <-];
         exists d, e, w1, (VideoCapture (Config.camera_index cfg) :: pre),
           (post ++ [CameraRelease]);
         (split; [now rewrite Hloop|]); (split; [exact Htr1|]); (split; [exact Hpre'|]);
         (split; [exact Hc1|]); (split; [exact Hr1|]); (split; [exact Hd1|]);
         (split; [exact Hin1|]); (split; [exact Hann|]);
         (split; [simpl; rewrite Htra; now rewrite <- app_assoc|]);
         (split; [apply Forall_app; split; [exact Hpost|repeat constructor]|]);
         (split; [exact Hca|]); (split; [reflexivity|]);
         (split; [apply last_snoc|]);
         intros x; (split; [|discriminate]);
         intros [Hx|Hx]%elem_of_app; [now destruct (Hno x)|];
         apply list_elem_of_singleton in Hx; discriminate Hx.
    unfold try_finally, Gui.on_error, output, act. cbv beta iota.
    rewrite gui_release_events.
    intros [= <- <-].
    exists d, e, w1, (VideoCapture (Config.camera_index cfg) :: pre),
      [Output (RecordingError x); CameraRelease].
    split; [now rewrite Hloop|]. split; [exact Htr1|]. split; [exact Hpre'|].
    split; [exact Hc1|]. split; [exact Hr1|]. split; [exact Hd1|].
    split; [exact Hin1|]. split; [exact Hann|].
    split; [simpl; now rewrite <- app_assoc|].
    split; [repeat constructor|]. split; [reflexivity|]. split; [reflexivity|].
    split; [reflexivity|]. intros y. split.
    + intros [Hy|Hy]%elem_of_cons; [now injection Hy as ->|].
      apply list_elem_of_singleton in Hy. discriminate Hy.
    + intros [= ->]. now left.
  - unfold try_finally, pure. rewrite gui_release_events.
    intros [= <- <-]. split; [reflexivity|].
    exists (VideoCapture (Config.camera_index cfg) :: pre), [CameraRelease].
    simpl. rewrite Htr. simpl. rewrite <- !app_assoc.
    split; [reflexivity|]. split; [exact Hpre'|].
    split; [repeat constructor|]. reflexivity.
  - unfold try_finally, Gui.on_error, output, act. cbv beta iota.
    rewrite gui_release_events.
    intros [= <- <-]. split; [reflexivity|].
    exists (VideoCapture (Config.camera_index cfg) :: pre),
      [Output (RecordingError x1); CameraRelease].
    simpl. rewrite Htr. simpl. rewrite <- !app_assoc.
    split; [reflexivity|]. split; [exact Hpre'|].
    split; [repeat constructor|]. reflexivity.
Qed.
(** ** What the phases leave alone *)

Lemma omap_quiet {B} (f : event -> option B) (class : event -> bool) (l : list event) :
  (forall e, class e = true -> f e = None) ->
  Forall (fun e => class e = true) l -> omap f l = [].
Proof.
  intros Hf H. apply omap_none. eapply Forall_impl; [exact H|]. exact Hf.
Qed.

Lemma setup_saves_nothing (l : list event) :
  Forall (fun e => setup_event e = true) l -> saved_frames l = [].
Proof. apply omap_quiet. now intros []. Qed.

Lemma closing_saves_nothing (l : list event) :
  Forall (fun e => closing_event e = true) l -> saved_frames l = [].
Proof. apply omap_quiet. now intros []. Qed.

Lemma setup_reads_nothing (l : list event) :
  Forall (fun e => setup_event e = true) l -> camera_reads l = O.
Proof.
  intros H. unfold camera_reads. rewrite (omap_quiet _ setup_event); [reflexivity| |exact H].
  now intros [].
Qed.

Lemma closing_reads_nothing (l : list event) :
  Forall (fun e => closing_event e = true) l -> camera_reads l = O.
Proof.
  intros H. unfold camera_reads. rewrite (omap_quiet _ closing_event); [reflexivity| |exact H].
  now intros [].
Qed.

Lemma camera_reads_app (l1 l2 : list event) :
  camera_reads (l1 ++ l2) = (camera_reads l1 + camera_reads l2)%nat.
Proof. unfold camera_reads. now rewrite omap_app, length_app. Qed.


(** X2: on the command line the same holds in every run in which the preview
    cannot fail (it is switched off, or its calls return in every
    iteration): the files written successfully carry the numbers 0, 1, 2, ...
    in this order and the frame counter ends at their number. *)
Theorem cli_numbers_frames_from_zero :
  forall (cfg : Config.t) (E : Camera.env) (w : world),
    Forall (preview_returns cfg) (Camera.ticks E) ->
    let run := Camera.start_recording cfg E w in
    exists k : nat,
      saved_frames (trace (snd run)) = saved_frames (trace w) ++ count_from 0 k /\
      (fst (fst run) <> NotStarted -> frame_count (snd run) = N.of_nat k).
Proof.
  intros cfg E w Hprev run. subst run.
  destruct (Camera.start_recording cfg E w) as [[s r] w'] eqn:Hrun.
  pose proof (cli_session_structure _ _ _ _ _ _ Hrun) as Hshape. simpl.
  destruct (cli_session_loop cfg E w) as [st|].
  - destruct Hshape as (Hs & d & w2 & pre & post & -> & Htr2 & Hpre & Hc2 & _ & _ &
                        _ & _ & Htr & Hpost & Hc & _).
    destruct (cli_loop_saved cfg d (Config.duration_minutes cfg * 60)
                (Camera.ticks E) w2 Hprev) as (k & Hk & Hck).
    exists k. split.
    + rewrite Htr, saved_frames_app, Hk, Htr2, saved_frames_app, Hc2.
      rewrite (setup_saves_nothing _ Hpre), (closing_saves_nothing _ Hpost).
      now rewrite !app_nil_r.
    + intros _. rewrite Hc, Hck, Hc2. lia.
  - destruct Hshape as (-> & pre & Htr & Hpre).
    exists O. split; [|now intros []].
    rewrite Htr, !saved_frames_app.
    rewrite (setup_saves_nothing _ Hpre).
    reflexivity.
Qed.

Lemma cli_numbers_frames_from_zero_witness :
  let cfg := Camera.load_default_config in
  let E := cli_env [cli_tick 0; cli_tick_esc 5; cli_tick 10] in
  Forall (preview_returns cfg) (Camera.ticks E) /\
  exists k : nat,
    saved_frames (trace (snd (Camera.start_recording cfg E initial_world)))
    = saved_frames (trace initial_world) ++ count_from 0 k /\
    (fst (fst (Camera.start_recording cfg E initial_world)) <> NotStarted ->
     frame_count (snd (Camera.start_recording cfg E initial_world)) = N.of_nat k).
Proof.
  cbv zeta.
  assert (Forall (preview_returns Camera.load_default_config)
            (Camera.ticks (cli_env [cli_tick 0; cli_tick_esc 5; cli_tick 10]))) as H.
  { simpl. repeat (apply Forall_cons; split; [right; eexists; reflexivity|]).
    apply Forall_nil_2. }
  split; [exact H|].
  exact (cli_numbers_frames_from_zero Camera.load_default_config
           (cli_env [cli_tick 0; cli_tick_esc 5; cli_tick 10]) initial_world H).
Defined.
(** ** The number of frames of a time-limited run *)

Lemma cli_iteration_reads_once (cfg : Config.t) (d : string) (tk : Camera.tick)
    (w : world) :
  camera_reads (trace (snd (Camera.iteration cfg d tk w)))
  = S (camera_reads (trace w)).
Proof.
  cli_cases cfg tk; rewrite ?camera_reads_app; simpl; unfold camera_reads; simpl; lia.
Qed.

Lemma gui_iteration_reads_once (cfg : Config.t) (d : string) (tk : Gui.tick)
    (w : world) :
  camera_reads (trace (snd (Gui.iteration cfg d tk w)))
  = S (camera_reads (trace w)).
Proof.
  gui_cases cfg tk; rewrite ?camera_reads_app; simpl; unfold camera_reads; simpl; lia.
Qed.

(** With the clock paced by the sleeps, the [n]-th iteration starts no
    earlier than [n - 1] intervals after the first evaluation of the loop
    condition, and it starts before the end time. *)
Lemma cli_loop_reads_bound (cfg : Config.t) (d : string) (e : Z)
    (ticks : list Camera.tick) (w : world) (from : Z) :
  0 < Config.interval_seconds cfg ->
  clock_paced (Config.interval_seconds cfg) from (map Camera.now ticks) ->
  exists n : nat,
    camera_reads (trace (final (Camera.capture_loop cfg d e ticks w)))
    = (camera_reads (trace w) + n)%nat /\
    (List.length (saved_frames (trace (final (Camera.capture_loop cfg d e ticks w))))
     <= List.length (saved_frames (trace w)) + n)%nat /\
    (n = O \/ from + (Z.of_nat n - 1) * Config.interval_seconds cfg < e).
Proof.
  intros Hi. revert w from. induction ticks as [|tk ticks IH]; intros w from Hp; simpl.
  - exists O. destruct (is_recording w); simpl; repeat split; auto; lia.
  - destruct Hp as (Hfrom & Hp).
    destruct (is_recording w); simpl; [|exists O; repeat split; auto; lia].
    destruct (Camera.now tk <? e) eqn:Hlt; simpl;
      [|exists O; repeat split; auto; lia].
    apply Z.ltb_lt in Hlt.
    pose proof (cli_iteration_reads_once cfg d tk w) as Hr.
    pose proof (cli_iteration_saves_at_most_one cfg d tk w) as Hs.
    destruct (Camera.iteration cfg d tk w) as [[[]|x] w1]; simpl in Hr, Hs.
    + destruct (IH w1 _ Hp) as (n & Hn & Hsn & Hb). exists (S n).
      split; [lia|]. split; [lia|]. right. destruct Hb as [->|Hb]; [simpl; lia|nia].
    + exists 1%nat. simpl. split; [lia|]. split; [lia|]. right. lia.
Qed.

Lemma gui_loop_reads_bound (cfg : Config.t) (d : string) (e : Z)
    (ticks : list Gui.tick) (w : world) (from : Z) :
  0 < Config.interval_seconds cfg ->
  clock_paced (Config.interval_seconds cfg) from (map Gui.now ticks) ->
  exists n : nat,
    camera_reads (trace (final (Gui.capture_loop cfg d (Some e) ticks w)))
    = (camera_reads (trace w) + n)%nat /\
    (List.length (saved_frames (trace (final (Gui.capture_loop cfg d (Some e) ticks w))))
     <= List.length (saved_frames (trace w)) + n)%nat /\
    (n = O \/ from + (Z.of_nat n - 1) * Config.interval_seconds cfg < e).
Proof.
  intros Hi. revert w from. induction ticks as [|tk ticks IH]; intros w from Hp; simpl.
  - exists O. destruct (is_recording w); simpl; repeat split; auto; lia.
  - destruct Hp as (Hfrom & Hp).
    destruct (is_recording w); simpl; [|exists O; repeat split; auto; lia].
    destruct (Gui.now tk <? e) eqn:Hlt; simpl;
      [|exists O; repeat split; auto; lia].
    apply Z.ltb_lt in Hlt.
    pose proof (gui_iteration_reads_once cfg d tk w) as Hr.
    pose proof (gui_iteration_saves_at_most_one cfg d tk w) as Hs.
    destruct (Gui.iteration cfg d tk w) as [[[]|x] w1]; simpl in Hr, Hs.
    + destruct (IH w1 _ Hp) as (n & Hn & Hsn & Hb). exists (S n).
      split; [lia|]. split; [lia|]. right. destruct Hb as [->|Hb]; [simpl; lia|nia].
    + exists 1%nat. simpl. split; [lia|]. split; [lia|]. right. lia.
Qed.

(** From "the [n]-th iteration started before the end" to the estimate the
    front-ends print. *)
Lemma iterations_within_estimate (n : nat) (interval total : Z) :
  0 < interval -> 0 <= total ->
  n = O \/ 0 + (Z.of_nat n - 1) * interval < total ->
  Z.of_nat n <= total / interval + 1.
Proof.
  intros Hi Ht [->|H].
  - pose proof (Z.div_pos total interval Ht Hi). lia.
  - assert (Z.of_nat n - 1 <= total / interval); [|lia].
    apply Z.div_le_lower_bound; [exact Hi|]. lia.
Qed.
Lemma saved_frames_length_app (l1 l2 : list event) :
  List.length (saved_frames (l1 ++ l2))
  = (List.length (saved_frames l1) + List.length (saved_frames l2))%nat.
Proof. now rewrite saved_frames_app, length_app. Qed.

(** X3: on the command line, when the interval is positive, the duration is
    not negative and the clock advances by at least the interval from one
    evaluation of the loop condition to the next (as it does when
    [time.sleep] returns no earlier than asked), a run reads at most
    [estimated_frames + 1] frames from the camera, [estimated_frames] being
    the number it printed when it started ([total_seconds // interval]); it
    saves no more files than it read frames. *)
Theorem cli_frames_within_estimate :
  forall (cfg : Config.t) (E : Camera.env) (w : world),
    0 < Config.interval_seconds cfg ->
    0 <= Config.duration_minutes cfg ->
    clock_paced (Config.interval_seconds cfg) 0 (map Camera.now (Camera.ticks E)) ->
    let run := Camera.start_recording cfg E w in
    let l := events_since w (snd run) in
    let estimated_frames :=
      Config.duration_minutes cfg * 60 / Config.interval_seconds cfg in
    Z.of_nat (camera_reads l) <= estimated_frames + 1 /\
    (List.length (saved_frames l) <= camera_reads l)%nat /\
    (fst (fst run) <> NotStarted ->
     Output (RecordingStarted (Some estimated_frames)) ∈ l).
Proof.
  intros cfg E w Hi Hd Hp run l est. subst run l est.
  destruct (Camera.start_recording cfg E w) as [[s r] w'] eqn:Hrun.
  pose proof (cli_session_structure _ _ _ _ _ _ Hrun) as Hshape. simpl.
  pose proof (Z.div_pos (Config.duration_minutes cfg * 60)
                (Config.interval_seconds cfg) ltac:(lia) Hi) as Hest.
  destruct (cli_session_loop cfg E w) as [st|].
  2:{ destruct Hshape as (-> & pre & Htr & Hpre).
      rewrite (events_since_app _ _ _ Htr), (setup_saves_nothing _ Hpre),
        (setup_reads_nothing _ Hpre). simpl.
      split; [lia|]. split; [lia|]. now intros []. }
  destruct Hshape as (Hs & d & w2 & pre & post & -> & Htr2 & Hpre & _ & _ & _ & _ &
                      Hann & Htr & Hpost & _).
  destruct (cli_loop_events cfg d (Config.duration_minutes cfg * 60)
              (Camera.ticks E) w2) as (lc & Hlc & _).
  destruct (cli_loop_reads_bound cfg d (Config.duration_minutes cfg * 60)
              (Camera.ticks E) w2 0 Hi Hp) as (n & Hn & Hsn & Hb).
  rewrite Hlc in Hn, Hsn. rewrite camera_reads_app in Hn.
  rewrite saved_frames_length_app in Hsn.
  assert (trace w' = trace w ++ pre ++ lc ++ post) as Hall
    by (rewrite Htr, Hlc, Htr2; now rewrite <- !app_assoc).
  rewrite (events_since_app _ _ _ Hall).
  rewrite !camera_reads_app, !saved_frames_length_app.
  rewrite (setup_saves_nothing _ Hpre), (closing_saves_nothing _ Hpost).
  rewrite (setup_reads_nothing _ Hpre), (closing_reads_nothing _ Hpost). simpl.
  assert (camera_reads lc = n) as -> by lia.
  split; [|split; [lia|intros _; set_solver]].
  rewrite Nat.add_0_r.
  apply iterations_within_estimate; [exact Hi|lia|exact Hb].
Qed.

Lemma cli_frames_within_estimate_witness :
  let cfg := Camera.load_default_config in
  let E := cli_env [cli_tick 0; cli_tick 5; cli_tick 3600] in
  let l := events_since initial_world (snd (Camera.start_recording cfg E initial_world)) in
  (0 < Config.interval_seconds cfg /\ 0 <= Config.duration_minutes cfg /\
   clock_paced (Config.interval_seconds cfg) 0 (map Camera.now (Camera.ticks E))) /\
  Z.of_nat (camera_reads l) <= 720 + 1 /\
  (List.length (saved_frames l) <= camera_reads l)%nat.
Proof.
  cbv zeta.
  assert (0 < Config.interval_seconds Camera.load_default_config) as Hi
    by (simpl; lia).
  assert (0 <= Config.duration_minutes Camera.load_default_config) as Hd
    by (simpl; lia).
  assert (clock_paced (Config.interval_seconds Camera.load_default_config) 0
            (map Camera.now
               (Camera.ticks (cli_env [cli_tick 0; cli_tick 5; cli_tick 3600])))) as Hp
    by (simpl; lia).
  split; [split; [exact Hi|split; [exact Hd|exact Hp]]|].
  destruct (cli_frames_within_estimate Camera.load_default_config
              (cli_env [cli_tick 0; cli_tick 5; cli_tick 3600]) initial_world Hi Hd Hp)
    as (H1 & H2 & _).
  split; [exact H1|exact H2].
Defined.

(** X4: in the GUI worker with a time limit of [m] minutes, under the same
    conditions (interval positive, [m] not negative, the clock paced by the
    sleeps), a run reads at most [estimated_frames + 1] frames,
    [estimated_frames] being the number the worker logged at the start, and
    saves no more files than it read.  Without a time limit no estimate is
    logged. *)
Theorem gui_frames_within_estimate :
  forall (cfg : Config.t) (E : Gui.env) (w : world) (m : Z),
    0 < Config.interval_seconds cfg ->
    Config.use_time_limit cfg = true ->
    Config.recording_time_limit cfg = Config.Minutes m ->
    0 <= m ->
    clock_paced (Config.interval_seconds cfg) 0 (map Gui.now (Gui.ticks E)) ->
    let run := Gui._recording_worker cfg E w in
    let l := events_since w (snd run) in
    let estimated_frames := m * 60 / Config.interval_seconds cfg in
    Z.of_nat (camera_reads l) <= estimated_frames + 1 /\
    (List.length (saved_frames l) <= camera_reads l)%nat /\
    (fst run <> NotStarted -> Output (RecordingStarted (Some estimated_frames)) ∈ l).
Proof.
  intros cfg E w m Hi Hu Hm Hm0 Hp run l est. subst run l est.
  destruct (Gui._recording_worker cfg E w) as [s w'] eqn:Hrun.
  destruct (gui_session_structure _ _ _ _ _ Hrun) as (Hs & Hshape). simpl.
  pose proof (Z.div_pos (m * 60) (Config.interval_seconds cfg) ltac:(lia) Hi) as Hest.
  destruct (gui_session_loop cfg E w) as [st|].
  2:{ destruct Hshape as (_ & pre & post & Htr & Hpre & Hpost & _).
      rewrite (events_since_app _ _ _ Htr).
      rewrite !camera_reads_app, !saved_frames_length_app.
      rewrite (setup_saves_nothing _ Hpre), (closing_saves_nothing _ Hpost).
      rewrite (setup_reads_nothing _ Hpre), (closing_reads_nothing _ Hpost). simpl.
      split; [lia|]. split; [lia|]. intros H. now destruct H. }
  destruct Hshape as (d & e & w2 & pre & post & -> & Htr2 & Hpre & _ & _ & _ & _ &
                      Hann & Htr & Hpost & _).
  destruct e as [t|].
  2:{ destruct Hann as ([H|H] & _); congruence. }
  destruct Hann as (m' & _ & Hm' & -> & _ & Hann).
  assert (m' = m) as -> by congruence.
  destruct (gui_loop_events cfg d (Some (m * 60)) (Gui.ticks E) w2) as (lc & Hlc & _).
  destruct (gui_loop_reads_bound cfg d (m * 60) (Gui.ticks E) w2 0 Hi Hp)
    as (n & Hn & Hsn & Hb).
  rewrite Hlc in Hn, Hsn. rewrite camera_reads_app in Hn.
  rewrite saved_frames_length_app in Hsn.
  assert (trace w' = trace w ++ pre ++ lc ++ post) as Hall
    by (rewrite Htr, Hlc, Htr2; now rewrite <- !app_assoc).
  rewrite (events_since_app _ _ _ Hall).
  rewrite !camera_reads_app, !saved_frames_length_app.
  rewrite (setup_saves_nothing _ Hpre), (closing_saves_nothing _ Hpost).
  rewrite (setup_reads_nothing _ Hpre), (closing_reads_nothing _ Hpost). simpl.
  assert (camera_reads lc = n) as -> by lia.
  split; [|split; [lia|intros _; set_solver]].
  rewrite Nat.add_0_r.
  apply iterations_within_estimate; [exact Hi|lia|exact Hb].
Qed.

Lemma gui_frames_within_estimate_witness :
  let cfg := with_time_limit 5 Gui.default_config in
  let E := gui_env [gui_tick 0; gui_tick 5; gui_tick 300] in
  let l := events_since initial_world (snd (Gui._recording_worker cfg E initial_world)) in
  (0 < Config.interval_seconds cfg /\ 0 <= 5 /\
   clock_paced (Config.interval_seconds cfg) 0 (map Gui.now (Gui.ticks E))) /\
  Z.of_nat (camera_reads l) <= 60 + 1 /\
  (List.length (saved_frames l) <= camera_reads l)%nat.
Proof.
  cbv zeta.
  assert (0 < Config.interval_seconds (with_time_limit 5 Gui.default_config)) as Hi
    by (simpl; lia).
  assert (clock_paced (Config.interval_seconds (with_time_limit 5 Gui.default_config)) 0
            (map Gui.now (Gui.ticks (gui_env [gui_tick 0; gui_tick 5; gui_tick 300]))))
    as Hp by (simpl; lia).
  split; [split; [exact Hi|split; [lia|exact Hp]]|].
  destruct (gui_frames_within_estimate (with_time_limit 5 Gui.default_config)
              (gui_env [gui_tick 0; gui_tick 5; gui_tick 300]) initial_world 5
              Hi eq_refl eq_refl ltac:(lia) Hp)
    as (H1 & H2 & _).
  split; [exact H1|exact H2].
Defined.
(** ** How a run of the command line ends *)





(** ** How a run of the GUI worker ends *)

(** X7: whenever the GUI worker returns, the flag [is_recording] is cleared,
    and if the capture object was created it is released, after every other
    camera call, file operation and log message of the worker: also when the
    camera could not be opened, when the directory or the configuration file
    could not be written, and when an exception ended the loop.  (When the
    constructor itself raises there is nothing to release and the error
    report comes last.)  After a loop the worker logs a recording error
    exactly when an exception ended that loop: a failure inside video
    assembly is not reported as one. *)
Theorem gui_worker_always_releases :
  forall (cfg : Config.t) (E : Gui.env) (w : world),
    let run := Gui._recording_worker cfg E w in
    let l := events_since w (snd run) in
    fst run <> Recording ->
    is_recording (snd run) = false /\
    match Gui.camera_opened E with
    | Returns _ => last l = Some CameraRelease
    | Raises x => CameraRelease ∉ l /\ last l = Some (Output (RecordingError x))
    end /\
    forall by_, fst run = Ended by_ ->
      forall x, Output (RecordingError x) ∈ l <-> by_ = Raised x.
Proof.
  intros cfg E w run l Hnot. subst run l.
  destruct (Gui._recording_worker cfg E w) as [s w'] eqn:Hrun.
  destruct (gui_session_structure _ _ _ _ _ Hrun) as (Hs & Hshape). simpl in *.
  destruct (gui_session_loop cfg E w) as [st|] eqn:Hloop.
  - destruct Hshape as (d & e & w2 & pre & post & Hst & Htr2 & Hpre & _ & _ & _ & _ & _ &
                        Htr & Hpost & _ & Hend).
    destruct (gui_loop_events cfg d e (Gui.ticks E) w2) as (lc & Hlc & Hcap).
    rewrite <- Hst in Hlc.
    assert (trace w' = trace w ++ pre ++ lc ++ post) as Hall
      by (rewrite Htr, Hlc, Htr2; now rewrite <- !app_assoc).
    rewrite (events_since_app _ _ _ Hall).
    destruct st as [w3|by' w3]; [now destruct Hnot|].
    destruct Hend as (Hrec & Hlast & Herr).
    assert (last (pre ++ lc ++ post) = Some CameraRelease) as Hlast'.
    { destruct post as [|x post]; [discriminate Hlast|].
      now rewrite !app_assoc, last_app_cons. }
    split; [exact Hrec|]. split.
    + unfold gui_session_loop, Gui.open_camera, call in Hloop.
      now destruct (Gui.camera_opened E).
    + intros by_ Hby x. rewrite Hs in Hby. injection Hby as <-.
      rewrite <- Herr, !elem_of_app. split; [|tauto].
      intros [H|[H|H]]; [|  |exact H].
      * rewrite Forall_forall in Hpre. apply Hpre in H. discriminate H.
      * rewrite Forall_forall in Hcap. apply Hcap in H. discriminate H.
  - destruct Hshape as (Hrec & pre & post & Htr & Hpre & Hpost & Hopen).
    rewrite (events_since_app _ _ _ Htr).
    split; [exact Hrec|]. split; [|intros by_ Hby; rewrite Hs in Hby; discriminate Hby].
    destruct (Gui.camera_opened E) as [b|x].
    + destruct post as [|y post]; [discriminate Hopen|].
      now rewrite last_app_cons.
    + subst post. split; [|apply last_snoc].
      intros [H|H]%elem_of_app.
      * rewrite Forall_forall in Hpre. apply Hpre in H. discriminate H.
      * apply list_elem_of_singleton in H. discriminate H.
Qed.

Lemma gui_worker_always_releases_witness :
  let run := Gui._recording_worker Gui.default_config
               (gui_env [gui_tick_write_raises 0; gui_tick 5]) initial_world in
  let l := events_since initial_world (snd run) in
  fst run <> Recording /\
  is_recording (snd run) = false /\
  last l = Some CameraRelease /\
  Output (RecordingError CvError) ∈ l.
Proof.
  cbv zeta.
  assert (fst (Gui._recording_worker Gui.default_config
                 (gui_env [gui_tick_write_raises 0; gui_tick 5]) initial_world)
          = Ended (Raised CvError)) as Hs by (vm_compute; reflexivity).
  assert (fst (Gui._recording_worker Gui.default_config
                 (gui_env [gui_tick_write_raises 0; gui_tick 5]) initial_world)
          <> Recording) as Hnot by (rewrite Hs; discriminate).
  destruct (gui_worker_always_releases Gui.default_config
              (gui_env [gui_tick_write_raises 0; gui_tick 5]) initial_world Hnot)
    as (Hrec & Hlast & Herr).
  split; [exact Hnot|]. split; [exact Hrec|]. split; [exact Hlast|].
  now apply (Herr _ Hs CvError).
Defined.
(** ** The smoke test *)

Lemma sleeps_app (l1 l2 : list event) : sleeps (l1 ++ l2) = sleeps l1 ++ sleeps l2.
Proof. apply omap_app. Qed.

Lemma smoke_iteration_effect (d : string) (i : nat) (tk : SmokeTest.tick) (w : world) :
  smoke_tick_returns tk ->
  exists l w',
    SmokeTest.iteration d i tk w = (Ok tt, w') /\
    trace w' = trace w ++ l /\
    Forall (fun e => capture_event e = true) l /\
    camera_reads l = 1%nat /\
    sleeps l = (if (i <? 4)%nat then [2] else []) /\
    saved_files l
    = match SmokeTest.read tk, SmokeTest.imwrite tk with
      | Returns true, Returns true =>
          [(N.of_nat (i + 1), Path.join d (SmokeTest.frame_filename i))]
      | _, _ => []
      end.
Proof.
  intros ((ret & Hr) & (success & Hw)). unfold SmokeTest.iteration.
  unfold_prog. rewrite Hr, Hw. unfold SmokeTest.total_frames, SmokeTest.interval.
  change (5 - 1)%nat with 4%nat.
  destruct ret, success, (i <? 4)%nat; simpl;
    (eexists; eexists; split; [reflexivity|]; simpl;
     split; [rewrite <- ?app_assoc; reflexivity|];
     split; [simpl; repeat constructor|]; now repeat split).
Qed.

Lemma smoke_loop_effect (d : string) (ticks : list SmokeTest.tick) (i : nat) (w : world) :
  (i <= 5)%nat ->
  (5 - i <= List.length ticks)%nat ->
  Forall smoke_tick_returns (take (5 - i) ticks) ->
  exists w' l,
    SmokeTest.capture_loop d i ticks w = Exited FrameLimit w' /\
    trace w' = trace w ++ l /\
    Forall (fun e => capture_event e = true) l /\
    camera_reads l = (5 - i)%nat /\
    sleeps l = repeat 2 (4 - i) /\
    forall n p, (n, p) ∈ saved_files l <->
      exists j tk, ticks !! j = Some tk /\ (i + j < 5)%nat /\
        SmokeTest.read tk = Returns true /\ SmokeTest.imwrite tk = Returns true /\
        n = N.of_nat (i + j + 1) /\ p = Path.join d (SmokeTest.frame_filename (i + j)).
Proof.
  revert i w. induction ticks as [|tk ticks IH]; intros i w Hi Hlen Hall;
    rewrite smoke_loop_unfold; unfold SmokeTest.total_frames;
    destruct (5 <=? i)%nat eqn:Hle.
  1,3: apply Nat.leb_le in Hle; assert (i = 5%nat) as -> by lia;
       exists w, []; rewrite app_nil_r; repeat split; try reflexivity;
       [apply Forall_nil_2|intros H; inversion H|intros (j & tk' & _ & H & _); lia].
  - apply Nat.leb_gt in Hle. simpl in Hlen. lia.
  - apply Nat.leb_gt in Hle.
    assert (5 - i = S (4 - i))%nat as Heq by lia.
    rewrite Heq in Hall. simpl in Hall. apply Forall_cons in Hall as (Htk & Hall).
    destruct (smoke_iteration_effect d i tk w Htk)
      as (l1 & w1 & Hit & Htr1 & Hcap1 & Hr1 & Hs1 & Hf1).
    rewrite Hit.
    assert (4 - i = 5 - S i)%nat as Heq' by lia. rewrite Heq' in Hall.
    destruct (IH (S i) w1 ltac:(lia) ltac:(simpl in Hlen; lia) Hall)
      as (w' & l2 & Hloop & Htr2 & Hcap2 & Hr2 & Hs2 & Hf2).
    exists w', (l1 ++ l2). split; [exact Hloop|].
    split; [now rewrite Htr2, Htr1, <- app_assoc|].
    split; [now apply Forall_app|].
    split; [rewrite camera_reads_app; lia|].
    split.
    { rewrite sleeps_app, Hs1, Hs2.
      destruct (i <? 4)%nat eqn:H4.
      - apply Nat.ltb_lt in H4. replace (4 - i)%nat with (S (4 - S i)) by lia.
        reflexivity.
      - apply Nat.ltb_ge in H4. replace (4 - i)%nat with O by lia.
        replace (4 - S i)%nat with O by lia. reflexivity. }
    intros n p. rewrite saved_files_app, elem_of_app, Hf2, Hf1. split.
    + intros [H|(j & tk' & Hj & Hlt & Hr & Hw & -> & ->)].
      * exists O, tk. rewrite Nat.add_0_r.
        destruct (SmokeTest.read tk) as [[|]|], (SmokeTest.imwrite tk) as [[|]|];
          try (inversion H; fail).
        apply list_elem_of_singleton in H. injection H as -> ->.
        repeat split; try reflexivity; try lia; try assumption.
      * exists (S j), tk'. replace (i + S j)%nat with (S i + j)%nat by lia.
        repeat split; try assumption; try lia.
    + intros ([|j] & tk' & Hj & Hlt & Hr & Hw & -> & ->).
      * left. simpl in Hj. injection Hj as ->. rewrite Hr, Hw, Nat.add_0_r.
        now left.
      * right. exists j, tk'. replace (S i + j)%nat with (i + S j)%nat by lia.
        repeat split; try assumption; try lia.
Qed.

Lemma smoke_before_loop_ok (E : SmokeTest.env) (w : world) :
  SmokeTest.camera_opened E = Returns true ->
  SmokeTest.mkdir_result E = Returns tt ->
  let d := "./test_output/timelapse_test_" +:+ Clock.strftime (SmokeTest.started E) in
  SmokeTest.before_loop E w
  = (Ok (Some d),
     set_dirs ({[d]} ∪ dirs (emit (VideoCapture 0) w))
       (emit (Mkdir d) (emit (VideoCapture 0) w))).
Proof.
  intros Hopen Hmk. unfold SmokeTest.before_loop, bind, call, mkdir, pure.
  now rewrite Hopen, Hmk.
Qed.

(** X8: when the camera opens, the directory can be created and no read
    or write raises, [test_short_timelapse] runs exactly five iterations
    whatever happens in them: it reads five frames, sleeps 2 seconds
    after each of the first four and not after the fifth, releases the camera
    and returns [True], also when no frame could be read or saved.  The file
    of iteration [i] (counting from 0) is named with the number [i + 1] and
    is written exactly when that iteration's read and write both succeed, so
    a failed iteration leaves a gap in the numbering; the names are
    frame_001.jpg to frame_005.jpg.  Environment beyond the fifth iteration
    is never consulted. *)
Theorem smoke_test_takes_five_frames :
  forall (E : SmokeTest.env) (w : world),
    SmokeTest.camera_opened E = Returns true ->
    SmokeTest.mkdir_result E = Returns tt ->
    (5 <= List.length (SmokeTest.ticks E))%nat ->
    Forall smoke_tick_returns (take 5 (SmokeTest.ticks E)) ->
    let run := SmokeTest.test_short_timelapse E w in
    let l := events_since w (snd run) in
    let d := "./test_output/timelapse_test_" +:+ Clock.strftime (SmokeTest.started E) in
    fst run = (Ended FrameLimit, Ok true) /\
    camera_reads l = 5%nat /\
    sleeps l = [2; 2; 2; 2] /\
    CameraRelease ∈ l /\
    (forall n p, (n, p) ∈ saved_files l <->
       exists i tk, SmokeTest.ticks E !! i = Some tk /\ (i < 5)%nat /\
         SmokeTest.read tk = Returns true /\ SmokeTest.imwrite tk = Returns true /\
         n = N.of_nat (i + 1) /\ p = Path.join d (SmokeTest.frame_filename i)) /\
    map SmokeTest.frame_filename (seq 0 5)
    = ["frame_001.jpg"; "frame_002.jpg"; "frame_003.jpg"; "frame_004.jpg";
       "frame_005.jpg"].
Proof.
  intros E w Hopen Hmk Hlen Hall run l d. subst run l.
  unfold SmokeTest.test_short_timelapse.
  rewrite (smoke_before_loop_ok E w Hopen Hmk). cbv zeta. fold d.
  set (w1 := set_dirs _ _).
  destruct (smoke_loop_effect d (SmokeTest.ticks E) O w1 ltac:(lia) ltac:(simpl; lia) Hall)
    as (w' & lc & Hloop & Htr & _ & Hr & Hs & Hf).
  rewrite Hloop. unfold SmokeTest.after_loop, bind, act, output, pure.
  cbv beta iota. simpl fst. simpl snd.
  assert (trace (emit (Output SmokeDone) (emit CameraRelease w'))
          = trace w ++ [VideoCapture 0; Mkdir d] ++ lc ++
            [CameraRelease; Output SmokeDone]) as Hall'
    by (simpl; rewrite Htr; subst w1; simpl; now rewrite <- !app_assoc).
  rewrite (events_since_app _ _ _ Hall').
  split; [reflexivity|].
  split; [rewrite !camera_reads_app, Hr; reflexivity|].
  split; [rewrite !sleeps_app, Hs; reflexivity|].
  split; [set_solver|].
  split; [|vm_compute; reflexivity].
  intros n p. rewrite !saved_files_app, !elem_of_app, Hf. simpl. split.
  - intros [H|[H|H]]; [inversion H|exact H|inversion H].
  - intros H. right. left. exact H.
Qed.

Lemma smoke_test_takes_five_frames_witness :
  let E := smoke_env [smoke_tick; smoke_tick_no_frame; smoke_tick; smoke_tick;
                      smoke_tick; smoke_tick_read_raises] in
  let run := SmokeTest.test_short_timelapse E initial_world in
  fst run = (Ended FrameLimit, Ok true) /\
  camera_reads (events_since initial_world (snd run)) = 5%nat /\
  saved_frames (trace (snd run)) = [1; 3; 4; 5]%N.
Proof.
  cbv zeta.
  destruct (smoke_test_takes_five_frames
              (smoke_env [smoke_tick; smoke_tick_no_frame; smoke_tick; smoke_tick;
                          smoke_tick; smoke_tick_read_raises]) initial_world
              eq_refl eq_refl)
    as (Hrun & Hreads & _).
  - simpl. lia.
  - simpl. repeat (apply Forall_cons; split;
                   [split; eexists; reflexivity|]). apply Forall_nil_2.
  - split; [exact Hrun|]. split; [exact Hreads|]. vm_compute. reflexivity.
Defined.

Lemma smoke_iteration_events (d : string) (i : nat) (tk : SmokeTest.tick) (w : world) :
  exists l, trace (snd (SmokeTest.iteration d i tk w)) = trace w ++ l /\
    Forall (fun e => capture_event e = true) l.
Proof.
  smoke_cases i tk;
    (eexists; split; [rewrite <- ?app_assoc; reflexivity|simpl; repeat constructor]).
Qed.

Lemma smoke_loop_raised (d : string) (ticks : list SmokeTest.tick) (i : nat)
    (w w' : world) (x : exn) :
  SmokeTest.capture_loop d i ticks w = Exited (Raised x) w' ->
  (exists tk, tk ∈ take (5 - i) ticks /\
     (SmokeTest.read tk = Raises x \/ SmokeTest.imwrite tk = Raises x)) /\
  exists l, trace w' = trace w ++ l /\ Forall (fun e => capture_event e = true) l.
Proof.
  revert i w. induction ticks as [|tk ticks IH]; intros i w;
    rewrite smoke_loop_unfold; unfold SmokeTest.total_frames;
    destruct (5 <=? i)%nat eqn:Hle; try discriminate.
  apply Nat.leb_gt in Hle.
  assert (5 - i = S (5 - S i))%nat as -> by lia. simpl take.
  destruct (smoke_iteration_events d i tk w) as (l1 & Htr1 & Hcap1).
  destruct (SmokeTest.iteration d i tk w) as [[[]|y] w1] eqn:Hit; simpl in Htr1.
  - intros H. destruct (IH _ _ H) as ((tk' & Hin & Hraise) & l2 & Htr2 & Hcap2).
    split; [exists tk'; split; [now right|exact Hraise]|].
    exists (l1 ++ l2). split; [now rewrite Htr2, Htr1, <- app_assoc|].
    now apply Forall_app.
  - intros [= <- <-]. split; [|now exists l1].
    exists tk. split; [now left|]. now apply smoke_iteration_raises in Hit.
Qed.

(** X9: [test_short_timelapse] has no handler around its loop: when a read
    or a write raises in one of the five iterations, the exception leaves the
    function at that point, the remaining iterations are not run and the
    camera is not released. *)
Theorem smoke_test_exception_skips_release :
  forall (E : SmokeTest.env) (w : world) (x : exn) (r : result bool) (w' : world),
    SmokeTest.test_short_timelapse E w = (Ended (Raised x), r, w') ->
    r = Raise x /\
    CameraRelease ∉ events_since w w' /\
    exists tk, tk ∈ take 5 (SmokeTest.ticks E) /\
      (SmokeTest.read tk = Raises x \/ SmokeTest.imwrite tk = Raises x).
Proof.
  intros E w x r w'. unfold SmokeTest.test_short_timelapse.
  destruct (SmokeTest.before_loop E w) as [[[d|]|?] w1] eqn:Hbefore; try discriminate.
  assert (exists pre, trace w1 = trace w ++ pre /\
            Forall (fun e => setup_event e = true) pre) as (pre & Htr1 & Hpre).
  { revert Hbefore. unfold SmokeTest.before_loop. unfold_prog.
    destruct (SmokeTest.camera_opened E) as [[|]|?], (SmokeTest.mkdir_result E) as [[]|?];
      simpl; intros [= <- <-];
      (eexists; split; [simpl; rewrite <- ?app_assoc; reflexivity|repeat constructor]). }
  destruct (SmokeTest.capture_loop d 0 (SmokeTest.ticks E) w1) as [w2|by_ w2] eqn:Hloop;
    [discriminate|].
  destruct by_ as [| | |y];
    try (unfold SmokeTest.after_loop, bind, act, output, pure; discriminate).
  intros [= -> <- <-].
  destruct (smoke_loop_raised _ _ _ _ _ _ Hloop) as (Htk & lc & Htr2 & Hcap).
  split; [reflexivity|]. split; [|exact Htk].
  assert (trace w2 = trace w ++ pre ++ lc) as Hall
    by (now rewrite Htr2, Htr1, <- app_assoc).
  rewrite (events_since_app _ _ _ Hall). intros [H|H]%elem_of_app.
  - rewrite Forall_forall in Hpre. apply Hpre in H. discriminate H.
  - rewrite Forall_forall in Hcap. apply Hcap in H. discriminate H.
Qed.

Lemma smoke_test_exception_skips_release_witness :
  let E := smoke_env [smoke_tick; smoke_tick_read_raises; smoke_tick] in
  let run := SmokeTest.test_short_timelapse E initial_world in
  fst run = (Ended (Raised CvError), Raise CvError) /\
  saved_frames (trace (snd run)) = [1%N] /\
  CameraRelease ∉ events_since initial_world (snd run).
Proof.
  cbv zeta.
  assert (SmokeTest.test_short_timelapse
            (smoke_env [smoke_tick; smoke_tick_read_raises; smoke_tick]) initial_world
          = (Ended (Raised CvError), Raise CvError,
             snd (SmokeTest.test_short_timelapse
                    (smoke_env [smoke_tick; smoke_tick_read_raises; smoke_tick])
                    initial_world))) as Hrun by (vm_compute; reflexivity).
  destruct (smoke_test_exception_skips_release _ _ _ _ _ Hrun) as (_ & Hno & _).
  split; [now rewrite Hrun|]. split; [vm_compute; reflexivity|exact Hno].
Defined.
(** ** The order of the file names *)

Lemma ascii_compare_refl (c : ascii) : Ascii.compare c c = Eq.
Proof. unfold Ascii.compare. apply N.compare_refl. Qed.

Lemma string_compare_refl (s : string) : String.compare s s = Eq.
Proof. induction s as [|c s IH]; simpl; [reflexivity|]. now rewrite ascii_compare_refl. Qed.

(** A common prefix does not take part in a comparison. *)
Lemma string_compare_app (p a b : string) :
  String.compare (p +:+ a) (p +:+ b) = String.compare a b.
Proof.
  induction p as [|c p IH]; [reflexivity|].
  rewrite !append_cons. simpl. now rewrite ascii_compare_refl.
Qed.

Lemma value_cons (c : ascii) (s : string) :
  Str.value (String c s)
  = (Str.digit_value c * 10 ^ N.of_nat (String.length s) + Str.value s)%N.
Proof.
  unfold Str.value at 1. simpl. rewrite value_go_shift. lia.
Qed.

Lemma value_bound (s : string) :
  Str.all_digits s = true -> (Str.value s < 10 ^ N.of_nat (String.length s))%N.
Proof.
  induction s as [|c s IH]; intros H.
  - unfold Str.value. simpl. lia.
  - simpl in H. apply andb_true_iff in H as (Hc & Hs). specialize (IH Hs).
    rewrite value_cons.
    unfold Str.is_digit in Hc. apply andb_true_iff in Hc as (H1 & H2).
    apply N.leb_le in H1, H2. unfold Str.digit_value.
    replace (N.of_nat (String.length (String c s)))
      with (N.succ (N.of_nat (String.length s))) by (simpl; lia).
    rewrite N.pow_succ_r'. nia.
Qed.

(** Numerals of the same length compare as the numbers they denote, whatever
    follows them. *)
Lemma digits_compare (a b s : string) :
  Str.all_digits a = true -> Str.all_digits b = true ->
  String.length a = String.length b ->
  String.compare (a +:+ s) (b +:+ s) = N.compare (Str.value a) (Str.value b).
Proof.
  revert b. induction a as [|c a IH]; intros [|c' b] Ha Hb Hlen; try discriminate Hlen.
  - simpl. rewrite string_compare_refl. reflexivity.
  - rewrite !append_cons. simpl String.compare.
    simpl in Ha, Hb, Hlen. injection Hlen as Hlen.
    apply andb_true_iff in Ha as (Hc & Ha). apply andb_true_iff in Hb as (Hc' & Hb).
    pose proof (value_bound a Ha) as Hva. pose proof (value_bound b Hb) as Hvb.
    rewrite !value_cons, <- Hlen in *.
    unfold Str.is_digit in Hc, Hc'.
    apply andb_true_iff in Hc as (H1 & H2). apply andb_true_iff in Hc' as (H1' & H2').
    apply N.leb_le in H1, H2, H1', H2'.
    unfold Ascii.compare, Str.digit_value.
    set (P := (10 ^ N.of_nat (String.length a))%N) in *.
    destruct (N.compare_spec (N_of_ascii c) (N_of_ascii c')) as [Heq|Hlt|Hgt].
    + rewrite Heq, (IH b Ha Hb Hlen).
      destruct (N.compare_spec (Str.value a) (Str.value b)) as [E|L|G];
        symmetry; [apply N.compare_eq_iff|apply N.compare_lt_iff|apply N.compare_gt_iff];
        nia.
    + symmetry. apply N.compare_lt_iff. nia.
    + symmetry. apply N.compare_gt_iff. nia.
Qed.

(** Below one million the names of the frames sort in the order of their
    numbers. *)
Lemma image_filename_compare (cfg : Config.t) (n m : N) :
  (n < 1000000)%N -> (m < 1000000)%N ->
  String.compare (image_filename cfg n) (image_filename cfg m) = N.compare n m.
Proof.
  intros Hn Hm. unfold image_filename. rewrite string_compare_app.
  change ("_" +:+ ?x) with (String "_" x). simpl String.compare.
  rewrite ?ascii_compare_refl. unfold Str.format_06d.
  rewrite digits_compare.
  - now rewrite !zero_padded_value.
  - apply zero_padded_digits.
  - apply zero_padded_digits.
  - rewrite !zero_padded_length; try lia; simpl; lia.
Qed.

Lemma string_le_compare (a b : string) :
  String.le a b <-> String.compare a b <> Gt.
Proof.
  unfold String.le, String.leb. destruct (String.compare a b); simpl; split;
    try discriminate; try easy.
Qed.
(** ** From the capture loop to video assembly *)

Lemma has_slash_app (a b : string) :
  has_slash (a +:+ b) = has_slash a || has_slash b.
Proof.
  induction a as [|c a IH]; [reflexivity|].
  rewrite append_cons. simpl. now rewrite IH, orb_assoc.
Qed.

Lemma digits_have_no_slash (s : string) :
  Str.all_digits s = true -> has_slash s = false.
Proof.
  induction s as [|c s IH]; [reflexivity|]. simpl.
  intros (Hc & Hs)%andb_true_iff. rewrite (IH Hs), orb_false_r.
  unfold Str.is_digit in Hc. apply andb_true_iff in Hc as (H1 & H2).
  apply N.leb_le in H1, H2. apply Ascii.eqb_neq. intros ->.
  vm_compute in H1. now apply H1.
Qed.

Lemma image_filename_no_slash (cfg : Config.t) (n : N) :
  has_slash (Config.filename_prefix cfg) = false ->
  has_slash (Config.image_format cfg) = false ->
  has_slash (image_filename cfg n) = false.
Proof.
  intros Hp Hf. unfold image_filename, Str.format_06d.
  rewrite !has_slash_app, Hp, Hf, (digits_have_no_slash _ (zero_padded_digits 6 n)).
  reflexivity.
Qed.

Lemma image_filename_not_empty (cfg : Config.t) (n : N) : image_filename cfg n <> "".
Proof.
  unfold image_filename. destruct (Config.filename_prefix cfg); discriminate.
Qed.

Lemma image_filename_extension (cfg : Config.t) (n : N) :
  Str.endswith (image_filename cfg n) ("." +:+ Config.image_format cfg) = true.
Proof.
  unfold image_filename. apply endswith_iff.
  exists (Config.filename_prefix cfg +:+ "_" +:+ Str.format_06d n).
  now rewrite !append_assoc.
Qed.

Lemma strip_prefix_app (p s : string) : strip_prefix p (p +:+ s) = Some s.
Proof.
  induction p as [|c p IH]; [reflexivity|].
  rewrite append_cons. simpl. now rewrite Ascii.eqb_refl.
Qed.

Lemma strip_prefix_inv (p s name : string) :
  strip_prefix p s = Some name -> s = p +:+ name.
Proof.
  revert s. induction p as [|c p IH]; intros s; simpl.
  - now intros [= ->].
  - destruct s as [|c' s]; [discriminate|].
    destruct (Ascii.eqb c c') eqn:Hc; [|discriminate].
    apply Ascii.eqb_eq in Hc as ->. intros H. rewrite append_cons.
    now rewrite (IH _ H).
Qed.

Lemma no_slash_startswith (name : string) :
  has_slash name = false -> Str.startswith name "/" = false.
Proof.
  unfold Str.startswith. destruct name as [|c name]; [reflexivity|]. simpl has_slash.
  intros (Hc & _)%orb_false_iff. rewrite prefix_cons.
  destruct (ascii_dec "/" c) as [<-|]; [discriminate Hc|reflexivity].
Qed.

(** A file saved under [os.path.join(d, name)] is listed in [d] as [name]. *)
Lemma entry_of_join (d name : string) :
  has_slash name = false -> name <> "" ->
  entry_of d (Path.join d name) = Some name.
Proof.
  intros Hs Hne. unfold entry_of, Path.join.
  rewrite (no_slash_startswith _ Hs).
  destruct (String.eqb d "" || Str.endswith d "/").
  - rewrite strip_prefix_app, Hs. apply String.eqb_neq in Hne. now rewrite Hne.
  - rewrite <- append_assoc, strip_prefix_app, Hs.
    apply String.eqb_neq in Hne. now rewrite Hne.
Qed.

Lemma entry_of_inj (d p q name : string) :
  entry_of d p = Some name -> entry_of d q = Some name -> p = q.
Proof.
  unfold entry_of.
  destruct (strip_prefix _ p) as [n1|] eqn:H1; [|discriminate].
  destruct (strip_prefix _ q) as [n2|] eqn:H2; [|discriminate].
  destruct (String.eqb n1 "" || has_slash n1); [discriminate|]. intros [= ->].
  destruct (String.eqb n2 "" || has_slash n2); [discriminate|]. intros [= ->].
  apply strip_prefix_inv in H1, H2. congruence.
Qed.

Lemma NoDup_omap_inj {A B} (f : A -> option B) (l : list A) :
  (forall x y z, f x = Some z -> f y = Some z -> x = y) ->
  NoDup l -> NoDup (omap f l).
Proof.
  intros Hinj. induction 1 as [|x l Hx Hl IH]; simpl; [constructor|].
  destruct (f x) as [z|] eqn:Hz; [|exact IH].
  constructor; [|exact IH].
  intros (y & Hy & Hfy)%list_elem_of_omap.
  now rewrite (Hinj _ _ _ Hz Hfy) in Hx.
Qed.

Lemma listing_NoDup (d : string) (w : world) : NoDup (listing d w).
Proof.
  unfold listing. apply NoDup_omap_inj; [apply entry_of_inj|apply NoDup_elements].
Qed.

Lemma listing_elem (d : string) (w : world) (name : string) :
  name ∈ listing d w <->
  exists p, (p ∈ files w \/ p ∈ dirs w) /\ entry_of d p = Some name.
Proof.
  unfold listing. rewrite list_elem_of_omap. split.
  - intros (p & Hp & He). exists p. split; [|exact He].
    apply elem_of_elements in Hp. set_solver.
  - intros (p & Hp & He). exists p. split; [|exact He].
    apply elem_of_elements. set_solver.
Qed.

Lemma cli_iteration_files (cfg : Config.t) (d : string) (tk : Camera.tick) (w : world) :
  preview_returns cfg tk ->
  exists saved : bool,
    frame_count (snd (Camera.iteration cfg d tk w))
    = (frame_count w + (if saved then 1 else 0))%N /\
    dirs (snd (Camera.iteration cfg d tk w)) = dirs w /\
    files (snd (Camera.iteration cfg d tk w))
    = (if saved then {[Path.join d (image_filename cfg (frame_count w))]} else ∅)
      ∪ files w /\
    saved_files (trace (snd (Camera.iteration cfg d tk w)))
    = saved_files (trace w) ++
      (if saved
       then [(frame_count w, Path.join d (image_filename cfg (frame_count w)))]
       else []).
Proof.
  intros [Hp|[k Hp]]; revert Hp; cli_cases cfg tk; intros Hp; try discriminate Hp;
    rewrite ?saved_files_app; simpl; rewrite ?app_nil_r;
    first [ exists true; split; [lia|split; [reflexivity|split; reflexivity]]
          | exists false; split; [lia|split; [reflexivity|split; [set_solver|]]];
            now rewrite app_nil_r ].
Qed.


Lemma cli_loop_files (cfg : Config.t) (d : string) (e : Z)
    (ticks : list Camera.tick) (w : world) :
  Forall (preview_returns cfg) ticks ->
  exists k : nat,
    frame_count (final (Camera.capture_loop cfg d e ticks w))
    = (frame_count w + N.of_nat k)%N /\
    dirs (final (Camera.capture_loop cfg d e ticks w)) = dirs w /\
    files (final (Camera.capture_loop cfg d e ticks w))
    = list_to_set (map (fun n => Path.join d (image_filename cfg n))
                     (count_from (frame_count w) k)) ∪ files w /\
    saved_files (trace (final (Camera.capture_loop cfg d e ticks w)))
    = saved_files (trace w) ++
      map (fun n => (n, Path.join d (image_filename cfg n)))
        (count_from (frame_count w) k).
Proof.
  intros Hall. revert w. induction Hall as [|tk ticks Htk Hall IH]; intros w; simpl.
  - exists O. destruct (is_recording w); simpl; rewrite app_nil_r;
      (split; [lia|split; [reflexivity|split; [set_solver|reflexivity]]]).
  - destruct (is_recording w); simpl;
      [|exists O; simpl; rewrite app_nil_r;
        split; [lia|split; [reflexivity|split; [set_solver|reflexivity]]]].
    destruct (negb _);
      [exists O; simpl; rewrite app_nil_r;
       split; [lia|split; [reflexivity|split; [set_solver|reflexivity]]]|].
    destruct (cli_iteration_files cfg d tk w Htk) as (saved & Hc & Hd & Hf & Hs).
    destruct (Camera.iteration cfg d tk w) as [[[]|x] w1]; simpl in Hc, Hd, Hf, Hs.
    + destruct (IH w1) as (k & Hck & Hdk & Hfk & Hsk).
      destruct saved.
      * exists (S k). rewrite Hck, Hdk, Hfk, Hsk, Hc, Hd, Hf, Hs. simpl.
        split; [lia|]. split; [reflexivity|]. split; [set_solver|].
        now rewrite <- app_assoc.
      * exists k. rewrite Hck, Hdk, Hfk, Hsk, Hc, Hd, Hf, Hs.
        replace (frame_count w + 0)%N with (frame_count w) by lia.
        split; [lia|]. split; [reflexivity|]. split; [set_solver|].
        now rewrite app_nil_r.
    + destruct saved.
      * exists 1%nat. simpl. rewrite Hc, Hd, Hf, Hs. split; [lia|].
        split; [reflexivity|]. split; [set_solver|reflexivity].
      * exists O. simpl. rewrite Hc, Hd, Hf, Hs. split; [lia|].
        split; [reflexivity|]. split; [set_solver|reflexivity].
Qed.
Lemma image_filename_le (cfg : Config.t) (n m : N) :
  (n <= m)%N -> (m < 1000000)%N ->
  String.le (image_filename cfg n) (image_filename cfg m).
Proof.
  intros Hnm Hm. apply string_le_compare.
  rewrite image_filename_compare by lia.
  intros H. apply N.compare_gt_iff in H. lia.
Qed.

Lemma image_filename_inj (cfg : Config.t) (n m : N) :
  (n < 1000000)%N -> (m < 1000000)%N ->
  image_filename cfg n = image_filename cfg m -> n = m.
Proof.
  intros Hn Hm H. apply N.compare_eq_iff.
  rewrite <- (image_filename_compare cfg n m Hn Hm), H.
  apply string_compare_refl.
Qed.

Lemma count_from_elem (n : N) (k : nat) (m : N) :
  m ∈ count_from n k <-> (n <= m < n + N.of_nat k)%N.
Proof.
  split; [apply count_from_bounds|].
  revert n. induction k as [|k IH]; intros n H; [lia|]. simpl.
  destruct (N.eq_dec m n) as [->|Hne]; [now left|]. right. apply IH. lia.
Qed.

Lemma sorted_names (cfg : Config.t) (k : nat) (n : N) :
  (n + N.of_nat k <= 1000000)%N ->
  Sorted String.le (map (image_filename cfg) (count_from n k)).
Proof.
  revert n. induction k as [|k IH]; intros n H; simpl; constructor.
  - apply IH. lia.
  - destruct k as [|k]; simpl; constructor. apply image_filename_le; lia.
Qed.

Lemma names_NoDup (cfg : Config.t) (k : nat) (n : N) :
  (n + N.of_nat k <= 1000000)%N ->
  NoDup (map (image_filename cfg) (count_from n k)).
Proof.
  intros H. apply NoDup_fmap_2_strong; [|apply count_from_NoDup].
  intros x y Hx Hy. apply count_from_bounds in Hx, Hy.
  apply image_filename_inj; lia.
Qed.

(** The files video assembly enumerates in a directory that holds the frames
    0 to [k - 1] of a session and no other file with the image extension:
    the names of the frames, in the order of their numbers, as long as there
    are no more than a million of them. *)
Lemma enumerated_in_capture_order (cfg : Config.t) (d : string) (w2 w3 : world)
    (k : nat) :
  has_slash (Config.filename_prefix cfg) = false ->
  has_slash (Config.image_format cfg) = false ->
  (N.of_nat k <= 1000000)%N ->
  image_files_of (Config.image_format cfg) (listing d w2) = [] ->
  dirs w3 = dirs w2 ->
  files w3 = list_to_set (map (fun n => Path.join d (image_filename cfg n))
                            (count_from 0 k)) ∪ files w2 ->
  image_files_of (Config.image_format cfg) (listing d w3)
  = map (image_filename cfg) (count_from 0 k).
Proof.
  intros Hp Hf Hk Hnone Hd Hfiles.
  apply (Sorted_unique String.le);
    [apply image_files_sorted|apply sorted_names; lia|].
  apply NoDup_Permutation.
  - rewrite image_files_permutation. apply NoDup_ListNoDup, List.NoDup_filter.
    apply NoDup_ListNoDup, listing_NoDup.
  - apply names_NoDup. lia.
  - intros name. rewrite image_files_elem, listing_elem, list_elem_of_fmap. split.
    + intros ((p & Hin & He) & Hext). rewrite Hfiles, Hd in Hin.
      assert (p ∈ list_to_set (C := gset string)
                    (map (fun n => Path.join d (image_filename cfg n)) (count_from 0 k))
              \/ (p ∈ files w2 \/ p ∈ dirs w2)) as [Hnew|Hold] by set_solver.
      * apply elem_of_list_to_set, list_elem_of_fmap in Hnew as (n & -> & Hn).
        exists n. split; [|exact Hn].
        rewrite entry_of_join in He;
          [now injection He|now apply image_filename_no_slash
          |apply image_filename_not_empty].
      * assert (name ∈ image_files_of (Config.image_format cfg) (listing d w2)) as Hcontra.
        { apply image_files_elem. split; [|exact Hext].
          apply listing_elem. now exists p. }
        rewrite Hnone in Hcontra. inversion Hcontra.
    + intros (n & -> & Hn). split; [|apply image_filename_extension].
      exists (Path.join d (image_filename cfg n)). split.
      * left. rewrite Hfiles. apply elem_of_union. left.
        apply elem_of_list_to_set, list_elem_of_fmap. now exists n.
      * apply entry_of_join;
          [now apply image_filename_no_slash|apply image_filename_not_empty].
Qed.
Lemma assembly_run_emit (cfg : Config.t) (v : video_env) (name d : string)
    (e : event) (w w' : world) (l : list event) :
  assembly_run cfg v name d (emit e w) w' l -> assembly_run cfg v name d w w' l.
Proof.
  intros [H1 H2 H3
         |first rest x H1 H2 H3 H4 H5
         |fs lw lf x H1 H2 H3 H4 H5 H6 H7
         |fs lf H1 H2 H3 H4 H5 H6 H7 H8
         |fs lf lr done H1 H2 H3 H4 H5 H6 H7 H8 H9 H10 H11].
  - now apply NoImages.
  - now apply (FirstImageFails _ _ _ _ _ _ _ first rest x).
  - now apply (FrameLoopFails _ _ _ _ _ _ _ fs lw lf x).
  - now apply (Encoded _ _ _ _ _ _ _ fs lf).
  - now apply (EncodedAndCleaned _ _ _ _ _ _ _ fs lf lr done).
Qed.


Lemma cli_after_loop_run (cfg : Config.t) (v : video_env) (d : string)
    (w w1 : world) (r : result bool) :
  Camera.after_loop cfg v d w = (r, w1) ->
  d ∈ dirs w ->
  if Config.create_video cfg && (0 <? frame_count w)%N then
    exists l,
      trace w1 = trace w ++ Output (RecordingDone (frame_count w)) :: l /\
      assembly_run cfg v (Camera.video_filename cfg) d w w1 l
  else w1 = emit (Output (RecordingDone (frame_count w))) w.
Proof.
  unfold Camera.after_loop, Camera.create_video.
  unfold bind at 1, gets at 1. unfold bind at 1, output at 1, act at 1.
  unfold bind at 1, when.
  destruct (Config.create_video cfg && (0 <? frame_count w)%N).
  - destruct (try_except _ _ _) as [r' w2] eqn:Hv. intros Hres Hd.
    assert (d ∈ dirs (emit (Output (RecordingDone (frame_count w))) w)) as Hd'
      by exact Hd.
    destruct (guarded_assemble_cases _ _ _ _ _ _ _ _ Hd' Hv)
      as (-> & _ & l & Htr & Hrun).
    injection Hres as <- <-. exists l. split.
    + rewrite Htr. simpl. now rewrite <- app_assoc.
    + now apply assembly_run_emit in Hrun.
  - unfold pure. now intros [= <- <-] _.
Qed.


Lemma cli_before_loop_state (cfg : Config.t) (E : Camera.env) (w w1 : world)
    (d : string) :
  Camera.before_loop cfg E w = (Ok d, w1) ->
  d = Path.join (Config.output_dir cfg) (session_dirname cfg (Camera.started E)) /\
  dirs w1 = {[d]} ∪ dirs w /\
  files w ⊆ files w1 /\ files w1 ⊆ {[Path.join d "config.json"]} ∪ files w /\
  frame_count w1 = 0%N.
Proof.
  unfold Camera.before_loop, Camera.create_output_directory, Camera.save_config.
  unfold_prog.
  destruct (Camera.mkdir_result E) as [[]|?], (Camera.config_saved E) as [[]|?],
    (Config.interval_seconds cfg =? 0);
    simpl; intros [= <- <-]; simpl; repeat split; set_solver.
Qed.
(** ** The video of a session *)

Lemma append_nil_r (s : string) : s +:+ "" = s.
Proof. induction s as [|c s IH]; [reflexivity|]. rewrite append_cons. now rewrite IH. Qed.

(** A directory is no entry of itself. *)
Lemma entry_of_self (d : string) : entry_of d d = None.
Proof.
  unfold entry_of.
  destruct (strip_prefix _ d) as [name|] eqn:H; [|reflexivity].
  apply strip_prefix_inv in H.
  destruct (String.eqb d "" || Str.endswith d "/").
  - assert (name = "") as ->; [|reflexivity].
    apply (f_equal String.length) in H. rewrite append_length in H.
    destruct name; [reflexivity|simpl in H; lia].
  - apply (f_equal String.length) in H. rewrite !append_length in H.
    simpl in H. lia.
Qed.

Lemma config_json_is_no_image (fmt : string) :
  fmt <> "json" -> Str.endswith "config.json" ("." +:+ fmt) = false.
Proof.
  intros Hne. destruct (Str.endswith "config.json" ("." +:+ fmt)) eqn:H; [|reflexivity].
  apply endswith_iff in H as (p & Hp). exfalso. apply Hne.
  change ("." +:+ fmt) with (String "." fmt) in Hp.
  do 6 (destruct p as [|? p]; [discriminate Hp|injection Hp as _ Hp]).
  destruct p as [|? p]; [now injection Hp as <-|injection Hp as _ Hp].
  do 4 (destruct p as [|? p]; [discriminate Hp|injection Hp as _ Hp]).
  destruct p; discriminate Hp.
Qed.

Lemma image_files_none (fmt : string) (names : list string) :
  image_files_of fmt names = [] <->
  forall name, name ∈ names -> Str.endswith name ("." +:+ fmt) = false.
Proof.
  split.
  - intros H name Hin. destruct (Str.endswith name ("." +:+ fmt)) eqn:He; [|reflexivity].
    assert (name ∈ image_files_of fmt names) as Hc by (now apply image_files_elem).
    rewrite H in Hc. inversion Hc.
  - intros H. destruct (image_files_of fmt names) as [|x l] eqn:Hl; [reflexivity|].
    assert (x ∈ image_files_of fmt names) as Hx by (rewrite Hl; now left).
    apply image_files_elem in Hx as (Hin & He). now rewrite (H x Hin) in He.
Qed.

(** Creating the session directory and saving the configuration adds no file
    that video assembly would enumerate, unless the image format is "json". *)
Lemma setup_adds_no_image (fmt d : string) (w wS : world) :
  fmt <> "json" ->
  image_files_of fmt (listing d w) = [] ->
  dirs wS = {[d]} ∪ dirs w ->
  files wS ⊆ {[Path.join d "config.json"]} ∪ files w ->
  image_files_of fmt (listing d wS) = [].
Proof.
  intros Hfmt Hnone Hd Hf. rewrite image_files_none in Hnone |- *.
  intros name (p & Hin & He)%listing_elem.
  rewrite Hd in Hin.
  assert (p = d \/ p = Path.join d "config.json" \/ (p ∈ files w \/ p ∈ dirs w))
    as [->|[->|Hold]] by set_solver.
  - now rewrite entry_of_self in He.
  - rewrite entry_of_join in He; [|reflexivity|discriminate].
    injection He as <-. now apply config_json_is_no_image.
  - apply Hnone, listing_elem. now exists p.
Qed.
Lemma setup_saves_no_file (l : list event) :
  Forall (fun e => setup_event e = true) l -> saved_files l = [].
Proof. apply omap_quiet. now intros []. Qed.

Lemma closing_saves_no_file (l : list event) :
  Forall (fun e => closing_event e = true) l -> saved_files l = [].
Proof. apply omap_quiet. now intros []. Qed.

Lemma setup_writes_no_frame (l : list event) :
  Forall (fun e => setup_event e = true) l -> written_frames l = [].
Proof. apply omap_quiet. now intros []. Qed.

Lemma capture_writes_no_frame (l : list event) :
  Forall (fun e => capture_event e = true) l -> written_frames l = [].
Proof. apply omap_quiet. now intros []. Qed.

Lemma map_snd_numbered {A} (f : N -> A) (l : list N) :
  map snd (map (fun n => (n, f n)) l) = map f l.
Proof. induction l as [|n l IH]; simpl; congruence. Qed.


(** A run of the command line whose loop ended by its condition and whose
    previews did not raise: the files the loop leaves behind and what follows
    the loop. *)
Lemma cli_finished_session (cfg : Config.t) (E : Camera.env) (w w' : world)
    (by_ : loop_exit) (r : result bool) :
  Camera.start_recording cfg E w = (Ended by_, r, w') ->
  (forall x, by_ <> Raised x) ->
  Forall (preview_returns cfg) (Camera.ticks E) ->
  let d := Path.join (Config.output_dir cfg) (session_dirname cfg (Camera.started E)) in
  exists (k : nat) (w2 w3 w4 : world) (pre lc post : list event),
    frame_count w' = N.of_nat k /\
    frame_count w3 = N.of_nat k /\
    dirs w2 = {[d]} ∪ dirs w /\
    files w ⊆ files w2 /\ files w2 ⊆ {[Path.join d "config.json"]} ∪ files w /\
    dirs w3 = dirs w2 /\
    files w3 = list_to_set (map (fun n => Path.join d (image_filename cfg n))
                              (count_from 0 k)) ∪ files w2 /\
    Forall (fun e => setup_event e = true) pre /\
    Forall (fun e => capture_event e = true) lc /\
    saved_files lc
    = map (fun n => (n, Path.join d (image_filename cfg n))) (count_from 0 k) /\
    Forall (fun e => closing_event e = true) post /\
    events_since w w'
    = pre ++ lc ++ post ++
      CameraRelease ::
      (if Config.preview_window cfg then [DestroyAllWindows] else []) ++
      [Output ResourcesReleased] /\
    files w' = files w4 /\ dirs w' = dirs w4 /\
    if Config.create_video cfg && (0 <? N.of_nat k)%N then
      exists l, post = Output (RecordingDone (N.of_nat k)) :: l /\
        assembly_run cfg (Camera.video E) (Camera.video_filename cfg) d w3 w4 l
    else post = [Output (RecordingDone (N.of_nat k))] /\
         files w4 = files w3 /\ dirs w4 = dirs w3.
Proof.
  intros Hrun Hby Hall d. revert Hrun. unfold Camera.start_recording.
  destruct (cli_initialize_events cfg (Camera.camera_opened E) w)
    as (pre1 & Htr1 & Hpre1 & (Hf1 & Hd1 & _ & _) & Hres1).
  destruct (Camera.initialize_camera cfg (Camera.camera_opened E) w) as [r1 w1].
  simpl in Htr1, Hf1, Hd1, Hres1. subst r1.
  destruct (Camera.camera_opened E) as [[|]|e0]; try discriminate.
  pose proof (cli_before_loop_events cfg E w1) as (pre2 & Htr2 & Hpre2 & _).
  destruct (Camera.before_loop cfg E w1) as [[d'|x1] w2] eqn:Hbefore;
    [|discriminate].
  simpl in Htr2.
  apply cli_before_loop_state in Hbefore as (Hd' & Hd2 & Hf2 & Hf2' & Hc2).
  fold d in Hd'. subst d'. rewrite Hd1 in Hd2. rewrite Hf1 in Hf2, Hf2'.
  set (e := Config.duration_minutes cfg * 60).
  destruct (cli_loop_events cfg d e (Camera.ticks E) w2) as (lc & Htr3 & Hlc).
  destruct (cli_loop_files cfg d e (Camera.ticks E) w2 Hall)
    as (k & Hc3 & Hd3 & Hf3 & Hs3).
  destruct (Camera.capture_loop cfg d e (Camera.ticks E) w2) as [w3|by' w3];
    [discriminate|].
  simpl in Htr3, Hc3, Hd3, Hf3, Hs3. rewrite Hc2 in Hc3, Hf3, Hs3.
  rewrite N.add_0_l in Hc3.
  rewrite Htr3, saved_files_app in Hs3. apply app_inv_head in Hs3.
  assert (d ∈ dirs w3) as Hin3 by (rewrite Hd3, Hd2; set_solver).
  destruct by' as [| | |x];
    [| | |destruct (try_finally _ _ w3); intros [= <- _]; now destruct (Hby x)].
  all: unfold try_finally;
       destruct (Camera.after_loop cfg (Camera.video E) d w3) as [ra wa] eqn:Hafter;
       pose proof (cli_after_loop_events _ _ _ _ _ _ Hafter)
         as (-> & (_ & Hca & _) & post & Htra & Hclosing);
       pose proof (cli_after_loop_run _ _ _ _ _ _ Hafter Hin3) as Hpost;
       unfold Camera.cleanup; unfold_prog;
       destruct (Config.preview_window cfg); simpl;
       intros [= <- <- <-];
       exists k, w2, w3, wa, (pre1 ++ pre2), lc, post;
       (split; [simpl; congruence|]); (split; [exact Hc3|]);
       (split; [exact Hd2|]); (split; [exact Hf2|]); (split; [exact Hf2'|]);
       (split; [exact Hd3|]); (split; [exact Hf3|]);
       (split; [now apply Forall_app|]); (split; [exact Hlc|]);
       (split; [exact Hs3|]); (split; [exact Hclosing|]);
       (split; [apply events_since_app; simpl;
                rewrite Htra, Htr3, Htr2, Htr1; simpl;
                now rewrite <- !app_assoc|]);
       (split; [reflexivity|]); (split; [reflexivity|]);
       rewrite Hc3 in Hpost;
       (destruct (Config.create_video cfg && (0 <? N.of_nat k)%N);
        [destruct Hpost as (l & Hl & Hassemble); exists l; split; [|exact Hassemble];
         rewrite Htra in Hl; now apply app_inv_head in Hl
        |subst wa; simpl in Htra;
         split; [now apply app_inv_head in Htra|split; reflexivity]]).
Qed.
Lemma cleanup_writes_no_frame (b : bool) :
  written_frames
    (CameraRelease :: (if b then [DestroyAllWindows] else []) ++ [Output ResourcesReleased])
  = [] /\
  saved_files
    (CameraRelease :: (if b then [DestroyAllWindows] else []) ++ [Output ResourcesReleased])
  = [].
Proof. now destruct b. Qed.

(** X11: the video of a command-line run holds the frames of the run in the
    order they were captured.  When no preview call raised, the loop ended by
    its condition, video creation is on, neither the file-name prefix nor the
    image format contains a slash, the format is not "json", the session
    directory held no file with the image extension before the run and no
    more than a million frames were saved, then the frames handed to the
    video writer are the files the loop saved, in capture order, up to the
    first failure of the encoder: all of them when nothing fails.  This holds
    whether or not the session's config.json could be written. *)
Theorem cli_video_holds_frames_in_capture_order :
  forall (cfg : Config.t) (E : Camera.env) (w w' : world) (by_ : loop_exit)
         (r : result bool),
    Camera.start_recording cfg E w = (Ended by_, r, w') ->
    (forall x, by_ <> Raised x) ->
    Forall (preview_returns cfg) (Camera.ticks E) ->
    Config.create_video cfg = true ->
    has_slash (Config.filename_prefix cfg) = false ->
    has_slash (Config.image_format cfg) = false ->
    Config.image_format cfg <> "json" ->
    let d := Path.join (Config.output_dir cfg) (session_dirname cfg (Camera.started E)) in
    image_files_of (Config.image_format cfg) (listing d w) = [] ->
    (frame_count w' <= 1000000)%N ->
    let l := events_since w w' in
    let names := map (image_filename cfg) (count_from 0 (N.to_nat (frame_count w'))) in
    map snd (saved_files l) = map (Path.join d) names /\
    written_frames l = map (Path.join d) (frames_written (Camera.video E) d names) /\
    (encoding_failure (Camera.video E) d names = None ->
     written_frames l = map snd (saved_files l)).
Proof.
  intros cfg E w w' by_ r Hrun Hby Hall Hcreate Hp Hf Hjson d Hnone Hmax l names.
  subst l names.
  destruct (cli_finished_session _ _ _ _ _ _ Hrun Hby Hall)
    as (k & w2 & w3 & w4 & pre & lc & post & Hc & Hc3 & Hd2 & _ & Hf2 & Hd3 & Hf3 &
        Hpre & Hlc & Hs & Hpost & Hl & _ & _ & Hafter).
  fold d in Hd2, Hf2, Hf3, Hs, Hl, Hafter.
  rewrite Hc, Nat2N.id. rewrite Hc in Hmax. rewrite Hl.
  rewrite !saved_files_app, !written_frames_app.
  rewrite (setup_saves_no_file _ Hpre), (closing_saves_no_file _ Hpost), Hs.
  rewrite (setup_writes_no_frame _ Hpre), (capture_writes_no_frame _ Hlc).
  destruct (cleanup_writes_no_frame (Config.preview_window cfg)) as (-> & ->).
  simpl. rewrite !app_nil_r, map_snd_numbered, map_map.
  assert (written_frames post
          = map (Path.join d)
              (frames_written (Camera.video E) d
                 (map (image_filename cfg) (count_from 0 k)))) as Hw.
  { rewrite Hcreate in Hafter. simpl in Hafter.
    destruct (0 <? N.of_nat k)%N eqn:Hk.
    - destruct Hafter as (l0 & -> & Hassemble).
      destruct (assembly_run_effect _ _ _ _ _ _ _ Hassemble) as (_ & Hwr & _).
      simpl. rewrite Hwr. f_equal. f_equal.
      apply (enumerated_in_capture_order cfg d w2 w3 k Hp Hf Hmax);
        [|exact Hd3|exact Hf3].
      now apply (setup_adds_no_image _ d w).
    - apply N.ltb_ge in Hk. assert (k = O) as -> by lia.
      destruct Hafter as (-> & _). reflexivity. }
  split; [reflexivity|]. split; [exact Hw|].
  intros Hok. rewrite Hw, (encoding_failure_none _ _ _ Hok). apply map_map.
Qed.

Lemma cli_video_holds_frames_in_capture_order_witness :
  let E := cli_env [cli_tick 0; cli_tick 5; cli_tick_esc 10; cli_tick 15] in
  let w' := snd (Camera.start_recording Camera.load_default_config E initial_world) in
  written_frames (events_since initial_world w')
  = ["./timelapse_output/timelapse_20250120_090507/timelapse_000000.jpg";
     "./timelapse_output/timelapse_20250120_090507/timelapse_000001.jpg";
     "./timelapse_output/timelapse_20250120_090507/timelapse_000002.jpg"] /\
  written_frames (events_since initial_world w')
  = map snd (saved_files (events_since initial_world w')).
Proof.
  cbv zeta.
  assert (Camera.start_recording Camera.load_default_config
            (cli_env [cli_tick 0; cli_tick 5; cli_tick_esc 10; cli_tick 15])
            initial_world
          = (Ended Cancelled, Ok true,
             snd (Camera.start_recording Camera.load_default_config
                    (cli_env [cli_tick 0; cli_tick 5; cli_tick_esc 10; cli_tick 15])
                    initial_world))) as Hrun by (vm_compute; reflexivity).
  destruct (cli_video_holds_frames_in_capture_order Camera.load_default_config
              _ _ _ _ _ Hrun)
    as (_ & Hwritten & Hsame).
  - intros x Hx. discriminate Hx.
  - simpl. repeat (apply Forall_cons; split; [right; eexists; reflexivity|]).
    apply Forall_nil_2.
  - reflexivity.
  - reflexivity.
  - reflexivity.
  - discriminate.
  - vm_compute. reflexivity.
  - vm_compute. discriminate.
  - split; [rewrite Hwritten; vm_compute; reflexivity|].
    apply Hsame. vm_compute. reflexivity.
Defined.




(** ** Runs that remove nothing *)

Lemma keeps_files_refl (w : world) : keeps_files w w.
Proof.
  exists []. rewrite app_nil_r. repeat split; try reflexivity.
  intros n p H. inversion H.
Qed.

Lemma keeps_files_trans (w1 w2 w3 : world) :
  keeps_files w1 w2 -> keeps_files w2 w3 -> keeps_files w1 w3.
Proof.
  intros (l1 & Ht1 & Hr1 & Hf1 & Hd1 & Hs1) (l2 & Ht2 & Hr2 & Hf2 & Hd2 & Hs2).
  exists (l1 ++ l2). split; [now rewrite Ht2, Ht1, <- app_assoc|].
  split; [now rewrite removals_app, Hr1, Hr2|].
  split; [set_solver|]. split; [set_solver|].
  intros n p. rewrite saved_files_app, elem_of_app. intros [H|H].
  - apply Hf2. now apply (Hs1 n).
  - now apply (Hs2 n).
Qed.

Lemma keeps_files_emit (e : event) (w : world) :
  removal e = None -> saved_file e = None -> keeps_files w (emit e w).
Proof.
  intros Hr Hs. exists [e]. split; [reflexivity|].
  unfold removals, saved_files. simpl. rewrite Hr, Hs.
  repeat split; try reflexivity. intros n p H. inversion H.
Qed.

Lemma keeping_pure {A} (a : A) : keeping (pure a).
Proof. intros w. apply keeps_files_refl. Qed.

Lemma keeping_raise {A} (e : exn) : keeping (@raise A e).
Proof. intros w. apply keeps_files_refl. Qed.

Lemma keeping_gets {A} (f : world -> A) : keeping (gets f).
Proof. intros w. apply keeps_files_refl. Qed.

Lemma keeping_bind {A B} (m : prog A) (f : A -> prog B) :
  keeping m -> (forall a, keeping (f a)) -> keeping (bind m f).
Proof.
  intros Hm Hf w. unfold bind. specialize (Hm w).
  destruct (m w) as [[a|e] w1]; simpl in *; [|exact Hm].
  apply (keeps_files_trans _ w1); [exact Hm|apply Hf].
Qed.

Lemma keeping_try_except {A} (body : prog A) (handler : exn -> prog A) :
  keeping body -> (forall e, keeping (handler e)) -> keeping (try_except body handler).
Proof.
  intros Hm Hf w. unfold try_except. specialize (Hm w).
  destruct (body w) as [[a|e] w1]; simpl in *; [exact Hm|].
  apply (keeps_files_trans _ w1); [exact Hm|apply Hf].
Qed.

Lemma keeping_try_finally {A} (body : prog A) (cleanup : prog unit) :
  keeping body -> keeping cleanup -> keeping (try_finally body cleanup).
Proof.
  intros Hm Hc w. unfold try_finally. specialize (Hm w).
  destruct (body w) as [[a|e] w1]; simpl in *; specialize (Hc w1);
    destruct (cleanup w1) as [[[]|e'] w2]; simpl in *;
    now apply (keeps_files_trans _ w1).
Qed.

Lemma keeping_when (b : bool) (p : prog unit) : keeping p -> keeping (when b p).
Proof. intros Hp. destruct b; [exact Hp|apply keeping_pure]. Qed.

Lemma keeping_act (e : event) :
  removal e = None -> saved_file e = None -> keeping (act e).
Proof. intros Hr Hs w. now apply keeps_files_emit. Qed.

Lemma keeping_output (m : message) : keeping (output m).
Proof. now apply keeping_act. Qed.

Lemma keeping_call {A} (e : event) (r : io A) :
  removal e = None -> saved_file e = None -> keeping (call e r).
Proof. intros Hr Hs w. unfold call. destruct r; now apply keeps_files_emit. Qed.

Lemma keeping_modify (f : world -> world) :
  (forall w, trace (f w) = trace w /\ files w ⊆ files (f w) /\ dirs (f w) = dirs w) ->
  keeping (modify f).
Proof.
  intros Hf w. destruct (Hf w) as (Ht & Hfi & Hd). exists []. simpl.
  rewrite app_nil_r. split; [exact Ht|]. split; [reflexivity|].
  split; [exact Hfi|]. split; [now rewrite Hd|]. intros n p H. inversion H.
Qed.

Lemma keeping_cv2_imwrite (n : N) (path : string) (params : list Z) (r : io bool) :
  keeping (cv2_imwrite n path params r).
Proof.
  intros w. unfold cv2_imwrite. exists [Imwrite n path params r].
  destruct r as [[|]|e]; simpl; (split; [reflexivity|]); (split; [reflexivity|]);
    (split; [set_solver|]); (split; [reflexivity|]); intros m p H.
  - apply list_elem_of_singleton in H. injection H as -> ->. set_solver.
  - inversion H.
  - inversion H.
Qed.

Lemma keeping_mkdir (path : string) (r : io unit) : keeping (mkdir path r).
Proof.
  intros w. unfold mkdir. exists [Mkdir path].
  destruct r as [[]|e]; simpl; (split; [reflexivity|]); (split; [reflexivity|]);
    (split; [reflexivity|]); (split; [set_solver|]); intros m p H; inversion H.
Qed.

Lemma keeping_floor_div (a b : Z) : keeping (floor_div a b).
Proof.
  unfold floor_div. destruct (b =? 0); [apply keeping_raise|apply keeping_pure].
Qed.

Lemma keeping_time_sleep (s : Z) : keeping (time_sleep s).
Proof.
  unfold time_sleep. apply keeping_bind; [now apply keeping_act|].
  intros _. destruct (s <? 0); [apply keeping_raise|apply keeping_pure].
Qed.

Lemma keeping_listdir (d : string) : keeping (listdir d).
Proof.
  intros w. unfold listdir. destruct (decide (d ∈ dirs w)); apply keeps_files_refl.
Qed.

Lemma keeping_open_writer (v : video_env) (path : string) (fps : Z) :
  keeping (open_writer v path fps).
Proof.
  intros w. unfold open_writer. exists [WriterOpen path fps].
  destruct (writer_opened v); simpl; (split; [reflexivity|]); (split; [reflexivity|]);
    (split; [set_solver|]); (split; [reflexivity|]); intros m p H; inversion H.
Qed.

Lemma keeping_set_recording (b : bool) : keeping (modify (set_recording b)).
Proof. apply keeping_modify. now intros w. Qed.

Lemma keeping_set_frame_count (g : world -> N) :
  keeping (modify (fun w => set_frame_count (g w) w)).
Proof. apply keeping_modify. now intros w. Qed.

Lemma keeping_add_file (path : string) :
  keeping (modify (fun w => set_files ({[path]} ∪ files w) w)).
Proof. apply keeping_modify. intros w. simpl. repeat split. set_solver. Qed.

Ltac keeping_step :=
  first
    [ apply keeping_pure | apply keeping_raise | apply keeping_gets
    | apply keeping_output | apply keeping_cv2_imwrite | apply keeping_mkdir
    | apply keeping_floor_div | apply keeping_time_sleep | apply keeping_listdir
    | apply keeping_open_writer | apply keeping_set_recording
    | apply (keeping_set_frame_count (fun _ => 0%N))
    | apply (keeping_set_frame_count (fun w => (frame_count w + 1)%N))
    | apply keeping_add_file
    | apply keeping_act; reflexivity
    | apply keeping_call; reflexivity
    | apply keeping_when
    | apply keeping_bind; [|intros ?]
    | apply keeping_try_except; [|intros ?]
    | apply keeping_try_finally
    | match goal with
      | |- keeping (if ?b then _ else _) => destruct b
      | |- keeping (match ?x with _ => _ end) => destruct x
      end ].

Ltac keeping_tac := repeat keeping_step.

Lemma keeping_write_frames (v : video_env) (every total : nat) (d : string)
    (i : nat) (fs : list string) :
  keeping (write_frames v every total d i fs).
Proof.
  revert i. induction fs as [|f fs IH]; intros i; simpl; [apply keeping_pure|].
  unfold cv2_imread, writer_write.
  apply keeping_bind; [now apply keeping_call|]. intros frame.
  apply keeping_bind; [now apply keeping_call|]. intros _.
  apply keeping_bind; [apply keeping_when, keeping_output|]. intros _. apply IH.
Qed.

(** Video assembly without clean-up removes nothing. *)
Lemma keeping_assemble (cfg : Config.t) (v : video_env) (every : nat)
    (name d : string) :
  Config.cleanup_images cfg = false -> keeping (assemble cfg v every name d).
Proof.
  intros Hclean. unfold assemble, cv2_imread, image_shape. rewrite Hclean.
  apply keeping_bind; [apply keeping_output|]. intros _.
  apply keeping_bind; [apply keeping_listdir|]. intros names.
  destruct (image_files_of _ names) as [|first rest]; [apply keeping_output|].
  apply keeping_bind; [now apply keeping_call|]. intros image.
  apply keeping_bind; [destruct image; keeping_tac|]. intros _.
  apply keeping_bind; [apply keeping_open_writer|]. intros _.
  apply keeping_bind; [apply keeping_write_frames|]. intros _.
  keeping_tac.
Qed.

Lemma keeping_cli_initialize (cfg : Config.t) (opened : io bool) :
  keeping (Camera.initialize_camera cfg opened).
Proof. unfold Camera.initialize_camera. keeping_tac. Qed.

Lemma keeping_cli_before_loop (cfg : Config.t) (E : Camera.env) :
  keeping (Camera.before_loop cfg E).
Proof.
  unfold Camera.before_loop, Camera.create_output_directory, Camera.save_config.
  keeping_tac.
Qed.

Lemma keeping_cli_iteration (cfg : Config.t) (d : string) (tk : Camera.tick) :
  keeping (Camera.iteration cfg d tk).
Proof.
  unfold Camera.iteration, Camera.capture_frame, Camera.signal_handler. keeping_tac.
Qed.

Lemma keeping_cli_loop (cfg : Config.t) (d : string) (e : Z)
    (ticks : list Camera.tick) (w : world) :
  keeps_files w (final (Camera.capture_loop cfg d e ticks w)).
Proof.
  revert w. induction ticks as [|tk ticks IH]; intros w; simpl.
  - destruct (negb _); apply keeps_files_refl.
  - destruct (negb (is_recording w)); [apply keeps_files_refl|].
    destruct (negb (_ <? _)); [apply keeps_files_refl|].
    pose proof (keeping_cli_iteration cfg d tk w) as H.
    destruct (Camera.iteration cfg d tk w) as [[[]|x] w1]; simpl in H; [|exact H].
    apply (keeps_files_trans _ w1); [exact H|apply IH].
Qed.

Lemma keeping_cli_after_loop (cfg : Config.t) (v : video_env) (d : string) :
  Config.cleanup_images cfg = false -> keeping (Camera.after_loop cfg v d).
Proof.
  intros Hclean. unfold Camera.after_loop, Camera.create_video.
  apply keeping_bind; [apply keeping_gets|]. intros frames.
  apply keeping_bind; [apply keeping_output|]. intros _.
  apply keeping_bind; [|intros _; apply keeping_pure].
  apply keeping_when, keeping_try_except; [now apply keeping_assemble|].
  intros e. apply keeping_output.
Qed.

Lemma keeping_cli_cleanup (cfg : Config.t) : keeping (Camera.cleanup cfg).
Proof. unfold Camera.cleanup. keeping_tac. Qed.

Lemma keeping_gui_before_loop (cfg : Config.t) (E : Gui.env) (b : bool) :
  keeping (Gui.before_loop cfg E b).
Proof. unfold Gui.before_loop, Gui.end_time_of. keeping_tac. Qed.

Lemma keeping_gui_iteration (cfg : Config.t) (d : string) (tk : Gui.tick) :
  keeping (Gui.iteration cfg d tk).
Proof. unfold Gui.iteration, Gui.gui_store. keeping_tac. Qed.

Lemma keeping_gui_loop (cfg : Config.t) (d : string) (e : option Z)
    (ticks : list Gui.tick) (w : world) :
  keeps_files w (final (Gui.capture_loop cfg d e ticks w)).
Proof.
  revert w. induction ticks as [|tk ticks IH]; intros w; simpl.
  - destruct (negb _); apply keeps_files_refl.
  - destruct (negb (is_recording w)); [apply keeps_files_refl|].
    destruct (negb _); [apply keeps_files_refl|].
    pose proof (keeping_gui_iteration cfg d tk w) as H.
    destruct (Gui.iteration cfg d tk w) as [[[]|x] w1]; simpl in H; [|exact H].
    apply (keeps_files_trans _ w1); [exact H|apply IH].
Qed.

Lemma keeping_gui_after_loop (cfg : Config.t) (v : video_env) (d : string) :
  Config.cleanup_images cfg = false ->
  keeping (try_except (Gui.after_loop cfg v d) Gui.on_error).
Proof.
  intros Hclean. unfold Gui.after_loop, Gui._create_video, Gui.on_error.
  apply keeping_try_except; [|intros e; apply keeping_output].
  apply keeping_bind; [apply keeping_gets|]. intros frames.
  apply keeping_bind; [apply keeping_output|]. intros _.
  apply keeping_when, keeping_try_except; [now apply keeping_assemble|].
  intros e. apply keeping_output.
Qed.

Lemma keeping_gui_release (b : bool) : keeping (Gui.release b).
Proof. unfold Gui.release. keeping_tac. Qed.

Lemma keeps_files_since (w w' : world) :
  keeps_files w w' ->
  removals (events_since w w') = [] /\
  files w ⊆ files w' /\ dirs w ⊆ dirs w' /\
  forall n p, (n, p) ∈ saved_files (events_since w w') -> p ∈ files w'.
Proof.
  intros (l & Ht & H). now rewrite (events_since_app _ _ _ Ht).
Qed.

(** X13: with clean-up off, a run removes nothing.  Whatever the camera, the
    file system, the codec and the user do, and however the run ends, a run of
    the command line or of the GUI worker whose [cleanup_images] is off
    attempts no removal, leaves every file and directory that existed before
    in place, and every image file it wrote successfully exists when it
    ends. *)
Theorem without_cleanup_nothing_is_removed :
  forall cfg : Config.t,
    Config.cleanup_images cfg = false ->
    (forall (E : Camera.env) (w : world),
       let w' := snd (Camera.start_recording cfg E w) in
       removals (events_since w w') = [] /\
       files w ⊆ files w' /\ dirs w ⊆ dirs w' /\
       forall n p, (n, p) ∈ saved_files (events_since w w') -> p ∈ files w') /\
    (forall (E : Gui.env) (w : world),
       let w' := snd (Gui._recording_worker cfg E w) in
       removals (events_since w w') = [] /\
       files w ⊆ files w' /\ dirs w ⊆ dirs w' /\
       forall n p, (n, p) ∈ saved_files (events_since w w') -> p ∈ files w').
Proof.
  intros cfg Hclean. split; intros E w; cbv zeta; apply keeps_files_since.
  - unfold Camera.start_recording.
    pose proof (keeping_cli_initialize cfg (Camera.camera_opened E) w) as H1.
    destruct (Camera.initialize_camera cfg (Camera.camera_opened E) w)
      as [[[|]|e1] w1]; simpl in H1; try exact H1.
    pose proof (keeping_cli_before_loop cfg E w1) as H2.
    destruct (Camera.before_loop cfg E w1) as [[d|e2] w2]; simpl in H2;
      [|now apply (keeps_files_trans _ w1)].
    pose proof (keeping_cli_loop cfg d (Config.duration_minutes cfg * 60)
                  (Camera.ticks E) w2) as H3.
    assert (keeps_files w w2) as H12 by now apply (keeps_files_trans _ w1).
    destruct (Camera.capture_loop cfg d _ (Camera.ticks E) w2) as [w3|by_ w3];
      simpl in H3; [now apply (keeps_files_trans _ w2)|].
    assert (keeps_files w w3) as H13 by now apply (keeps_files_trans _ w2).
    destruct by_ as [| | |x].
    1-3: pose proof (keeping_try_finally _ _
                       (keeping_cli_after_loop cfg (Camera.video E) d Hclean)
                       (keeping_cli_cleanup cfg) w3) as H4;
         destruct (try_finally _ _ w3) as [r4 w4]; simpl in *;
         now apply (keeps_files_trans _ w3).
    pose proof (keeping_try_finally _ _ (keeping_raise (A := bool) x)
                  (keeping_cli_cleanup cfg) w3) as H4.
    destruct (try_finally _ _ w3) as [r4 w4]; simpl in *.
    now apply (keeps_files_trans _ w3).
  - unfold Gui._recording_worker, Gui.open_camera.
    pose proof (keeping_call (VideoCapture (Config.camera_index cfg))
                  (Gui.camera_opened E) eq_refl eq_refl w) as H1.
    destruct (call _ (Gui.camera_opened E) w) as [[b|e1] w1]; simpl in H1.
    2:{ apply (keeps_files_trans _ w1); [exact H1|].
        apply keeping_try_finally; [apply keeping_output|apply keeping_gui_release]. }
    pose proof (keeping_gui_before_loop cfg E b w1) as H2.
    destruct (Gui.before_loop cfg E b w1) as [[[[d e]|]|e2] w2]; simpl in H2.
    2,3: apply (keeps_files_trans _ w2); [now apply (keeps_files_trans _ w1)|];
         apply keeping_try_finally;
         [first [apply keeping_pure|apply keeping_output]|apply keeping_gui_release].
    pose proof (keeping_gui_loop cfg d e (Gui.ticks E) w2) as H3.
    assert (keeps_files w w2) as H12 by now apply (keeps_files_trans _ w1).
    destruct (Gui.capture_loop cfg d e (Gui.ticks E) w2) as [w3|by_ w3];
      simpl in H3; [now apply (keeps_files_trans _ w2)|].
    assert (keeps_files w w3) as H13 by now apply (keeps_files_trans _ w2).
    destruct by_ as [| | |x]; cbv beta iota;
      (apply (keeps_files_trans _ w3); [exact H13|]);
      apply keeping_try_finally;
      first [now apply keeping_gui_after_loop | apply keeping_output
            | apply keeping_gui_release].
Qed.

Lemma without_cleanup_nothing_is_removed_witness :
  let E := cli_env [cli_tick 0; cli_tick_esc 5] in
  let w' := snd (Camera.start_recording Camera.load_default_config E
                   a_session_directory) in
  Config.cleanup_images Camera.load_default_config = false /\
  removals (events_since a_session_directory w') = [] /\
  files a_session_directory ⊆ files w'.
Proof.
  cbv zeta. split; [reflexivity|].
  destruct (without_cleanup_nothing_is_removed Camera.load_default_config eq_refl)
    as [Hcli _].
  destruct (Hcli (cli_env [cli_tick 0; cli_tick_esc 5]) a_session_directory)
    as (Hrm & Hfiles & _).
  split; [exact Hrm|exact Hfiles].
Defined.
(** ** The order in which video assembly takes the frames *)

Lemma names_sorted_on (cfg : Config.t) (l : list N) :
  Sorted N.le l -> Forall (fun n => (n < 1000000)%N) l ->
  Sorted String.le (map (image_filename cfg) l).
Proof.
  induction 1 as [|a l Hl IH Hhd]; intros Hall; simpl; constructor.
  - apply IH. now apply Forall_cons in Hall as (_ & Hall).
  - apply Forall_cons in Hall as (Ha & Hall).
    destruct Hhd as [|b l Hab]; simpl; constructor.
    apply Forall_cons in Hall as (Hb & _). now apply image_filename_le.
Qed.

Lemma million_sorts_first (cfg : Config.t) :
  String.compare (image_filename cfg 1000000) (image_filename cfg 999999) = Lt.
Proof.
  unfold image_filename. rewrite string_compare_app.
  change (Str.format_06d 1000000) with "1000000".
  change (Str.format_06d 999999) with "999999".
  reflexivity.
Qed.

(** X14: video assembly takes the frames in the order of their file names,
    which is the order of their numbers only below one million.  Sorting the
    names of any frames numbered below 1000000 gives the names of the frames
    sorted by number; but the name of frame 1000000 sorts before the name of
    frame 999999, so from the millionth frame on the video is out of capture
    order. *)
Theorem frame_names_sort_by_number_below_a_million :
  forall cfg : Config.t,
    (forall ns : list N,
       Forall (fun n => (n < 1000000)%N) ns ->
       sorted (map (image_filename cfg) ns)
       = map (image_filename cfg) (merge_sort N.le ns)) /\
    sorted [image_filename cfg 999999; image_filename cfg 1000000]
    = [image_filename cfg 1000000; image_filename cfg 999999].
Proof.
  intros cfg. split.
  - intros ns Hall. unfold sorted.
    apply (Sorted_unique String.le).
    + apply Sorted_merge_sort. apply _.
    + apply names_sorted_on; [apply Sorted_merge_sort; apply _|].
      now rewrite merge_sort_Permutation.
    + rewrite !merge_sort_Permutation. reflexivity.
  - unfold sorted. apply (Sorted_unique String.le).
    + apply Sorted_merge_sort. apply _.
    + repeat constructor. apply string_le_compare.
      now rewrite million_sorts_first.
    + rewrite merge_sort_Permutation. apply Permutation_swap.
Qed.

Lemma frame_names_sort_by_number_below_a_million_witness :
  sorted (map (image_filename Camera.load_default_config) [2; 10; 1]%N)
  = ["timelapse_000001.jpg"; "timelapse_000002.jpg"; "timelapse_000010.jpg"].
Proof.
  rewrite (proj1 (frame_names_sort_by_number_below_a_million
                    Camera.load_default_config) [2; 10; 1]%N).
  - vm_compute. reflexivity.
  - repeat (apply Forall_cons; split; [reflexivity|]). apply Forall_nil_2.
Defined.
(** ** The GUI's configuration files *)

Lemma resolution_is_no_key : GuiConfig.key_in_config "resolution" = false.
Proof. reflexivity. Qed.

(** The loop of [load_config] cannot fail: the only statements that subscript
    a value are behind a test no key passes. *)
Lemma apply_items_total (items : list (string * GuiConfig.value)) (cfg : GuiConfig.t) :
  GuiConfig.apply_items items cfg
  = (None,
     fold_left (fun c kv => if GuiConfig.key_in_config (fst kv)
                            then GuiConfig.set (fst kv) (snd kv) c else c)
       items cfg).
Proof.
  revert cfg. induction items as [|[key v] items IH]; intros cfg; [reflexivity|].
  simpl GuiConfig.apply_items. simpl fold_left.
  destruct (GuiConfig.key_in_config key) eqn:Hkey; [|apply IH].
  destruct (String.eqb_spec key "resolution") as [->|_]; [discriminate Hkey|apply IH].
Qed.

Lemma existsb_filter_key (key : string) (p : string -> bool) (l : list string) :
  existsb (String.eqb key) (List.filter p l) = p key && existsb (String.eqb key) l.
Proof.
  induction l as [|k l IH]; simpl; [now rewrite andb_false_r|].
  destruct (String.eqb_spec key k) as [->|Hne].
  - destruct (p k); simpl; [now rewrite String.eqb_refl|exact IH].
  - destruct (p k); simpl; [|exact IH].
    apply String.eqb_neq in Hne. now rewrite Hne.
Qed.

(** Loading the items [(k, cfg k)] for the keys [ks] sets the settings among
    [ks] to their values in [cfg]. *)
Lemma load_items_of_keys (cfg : GuiConfig.t) (ks : list string) (cur : GuiConfig.t)
    (key : string) :
  fold_left (fun c kv => if GuiConfig.key_in_config (fst kv)
                         then GuiConfig.set (fst kv) (snd kv) c else c)
    (map (fun k => (k, cfg k)) ks) cur key
  = if GuiConfig.key_in_config key && existsb (String.eqb key) ks
    then cfg key else cur key.
Proof.
  revert cur. induction ks as [|k ks IH]; intros cur.
  - simpl. now rewrite andb_false_r.
  - cbn [map fold_left fst snd existsb]. rewrite IH. unfold GuiConfig.set.
    destruct (String.eqb_spec key k) as [->|Hne].
    + rewrite orb_true_l, andb_true_r.
      destruct (GuiConfig.key_in_config k); simpl;
        destruct (existsb _ ks); try reflexivity; now rewrite String.eqb_refl.
    + rewrite orb_false_l.
      destruct (GuiConfig.key_in_config key && existsb (String.eqb key) ks);
        [reflexivity|].
      destruct (GuiConfig.key_in_config k); [|reflexivity].
      apply String.eqb_neq in Hne. now rewrite Hne.
Qed.

(** X15: what loading a configuration file restores in the GUI.  The file
    that [save_config] writes holds width and height under the key
    "resolution" and every other setting under its own key.  Loading that
    file succeeds and restores every setting except width and height:
    [load_config] skips the key "resolution" because it is no key of the
    configuration, so both keep the values they had before the load.  Loading
    the config.json that the recording worker writes into a session
    directory, which holds width and height as keys of their own, restores
    every setting.  Keys of a file that are no settings are ignored, and a
    load that fails changes no setting. *)
Theorem gui_load_config_skips_saved_resolution :
  forall (filename : string) (cfg cur : GuiConfig.t),
    filename <> "" ->
    let file := GuiConfig.Dict (GuiConfig.save_config_dict cfg) in
    let saved := GuiConfig.load_config filename (inr file) cur in
    let session := GuiConfig.load_config filename
                     (inr (GuiConfig.Dict (GuiConfig.session_config_dict cfg))) cur in
    GuiConfig.save_config filename None cfg
    = (GuiConfig.Succeeded, Some (filename, file)) /\
    (fst saved = GuiConfig.Succeeded /\
     forall key,
       snd saved key
       = if String.eqb key "width" || String.eqb key "height" then cur key
         else if GuiConfig.key_in_config key then cfg key else cur key) /\
    (fst session = GuiConfig.Succeeded /\
     forall key,
       snd session key = if GuiConfig.key_in_config key then cfg key else cur key) /\
    forall (file : GuiConfig.error + GuiConfig.value),
      (forall key, GuiConfig.key_in_config key = false ->
         snd (GuiConfig.load_config filename file cur) key = cur key) /\
      (forall e, fst (GuiConfig.load_config filename file cur) = GuiConfig.Failed e ->
         snd (GuiConfig.load_config filename file cur) = cur).
Proof.
  intros filename cfg cur Hname. cbv zeta. unfold GuiConfig.load_config.
  unfold GuiConfig.save_config.
  apply String.eqb_neq in Hname. rewrite Hname, !apply_items_total.
  split; [reflexivity|]. split; [|split].
  - split; [reflexivity|]. intros key. cbn [fst snd].
    unfold GuiConfig.save_config_dict. rewrite fold_left_app.
    cbn [fold_left fst snd]. rewrite resolution_is_no_key, load_items_of_keys.
    rewrite existsb_filter_key.
    change (existsb (String.eqb key) GuiConfig.keys) with (GuiConfig.key_in_config key).
    destruct (String.eqb key "width" || String.eqb key "height"),
      (GuiConfig.key_in_config key); reflexivity.
  - split; [reflexivity|]. intros key. cbn [fst snd].
    unfold GuiConfig.session_config_dict. rewrite load_items_of_keys.
    change (existsb (String.eqb key) GuiConfig.keys) with (GuiConfig.key_in_config key).
    now destruct (GuiConfig.key_in_config key).
  - intros file. destruct file as [e|v]; [split; [reflexivity|now intros e' _]|].
    destruct v as [| | | | | |items]; try (split; [reflexivity|now intros e' _]).
    rewrite apply_items_total. cbn [fst snd]. split; [|discriminate].
    intros key Hkey. revert cur.
    induction items as [|[k v] items IH]; intros cur; [reflexivity|].
    cbn [fold_left fst snd]. rewrite IH.
    destruct (GuiConfig.key_in_config k) eqn:Hk; [|reflexivity].
    unfold GuiConfig.set.
    destruct (String.eqb_spec key k) as [->|_]; [congruence|reflexivity].
Qed.

Lemma gui_load_config_skips_saved_resolution_witness :
  let cfg := GuiConfig.set "width" (GuiConfig.Int 640)
               (GuiConfig.set "image_quality" (GuiConfig.Int 80) GuiConfig.initial) in
  let saved := GuiConfig.load_config "settings.json"
                 (inr (GuiConfig.Dict (GuiConfig.save_config_dict cfg)))
                 GuiConfig.initial in
  let session := GuiConfig.load_config "settings.json"
                   (inr (GuiConfig.Dict (GuiConfig.session_config_dict cfg)))
                   GuiConfig.initial in
  (snd saved "image_quality" = GuiConfig.Int 80 /\
   snd saved "width" = GuiConfig.Int 1920) /\
  (snd session "image_quality" = GuiConfig.Int 80 /\
   snd session "width" = GuiConfig.Int 640).
Proof.
  cbv zeta.
  destruct (gui_load_config_skips_saved_resolution "settings.json"
              (GuiConfig.set "width" (GuiConfig.Int 640)
                 (GuiConfig.set "image_quality" (GuiConfig.Int 80) GuiConfig.initial))
              GuiConfig.initial)
    as (_ & (_ & Hsaved) & (_ & Hsession) & _); [discriminate|].
  split; split.
  - rewrite (Hsaved "image_quality"). vm_compute. reflexivity.
  - rewrite (Hsaved "width"). vm_compute. reflexivity.
  - rewrite (Hsession "image_quality"). vm_compute. reflexivity.
  - rewrite (Hsession "width"). vm_compute. reflexivity.
Defined.
(** ** The command line: [main] *)

(** What [start_recording] returns, by what the environment does. *)
Lemma cli_run_result (cfg : Config.t) (E : Camera.env) (w w' : world)
    (s : session) (r : result bool) :
  Camera.start_recording cfg E w = (s, r, w') ->
  match Camera.camera_opened E with
  | Returns true =>
      match Camera.mkdir_result E with
      | Raises e => s = NotStarted /\ r = Raise e
      | Returns _ =>
          if Config.interval_seconds cfg =? 0
          then s = NotStarted /\ r = Raise ZeroDivisionError
          else (s = Recording /\ r = Ok true) \/
               (exists by_, s = Ended by_ /\ (by_ = Cancelled \/ by_ = TimeLimit) /\
                  r = Ok true) \/
               (s = Ended (Raised ValueError) /\ r = Raise ValueError /\
                Config.interval_seconds cfg < 0)
      end
  | _ => s = NotStarted /\ r = Ok false
  end.
Proof.
  intros Hrun.
  pose proof (cli_session_structure _ _ _ _ _ _ Hrun) as Hshape.
  revert Hrun Hshape. unfold Camera.start_recording, cli_session_loop.
  destruct (cli_initialize_events cfg (Camera.camera_opened E) w)
    as (pre1 & _ & _ & _ & Hres1).
  destruct (Camera.initialize_camera cfg (Camera.camera_opened E) w) as [r1 w1].
  simpl in Hres1. subst r1.
  destruct (Camera.camera_opened E) as [[|]|e0];
    try (intros [= <- <- <-] _; now split).
  pose proof (cli_before_loop_events cfg E w1) as (pre2 & _ & _ & Hbefore).
  destruct (Camera.before_loop cfg E w1) as [r2 w2]. simpl in Hbefore.
  destruct (Camera.mkdir_result E) as [[]|e1].
  2:{ destruct Hbefore as (-> & _). intros [= <- <- <-] _. now split. }
  destruct Hbefore as (_ & _ & _ & _ & -> & _).
  destruct (Config.interval_seconds cfg =? 0) eqn:Hz.
  { intros [= <- <- <-] _. now split. }
  destruct (Camera.capture_loop cfg _ _ _ w2) as [w3|by_ w3] eqn:Hloop.
  - intros [= <- <- <-] _. now left.
  - intros _ (-> & d & w2' & pre & post & Hst & _ & _ & _ & _ & _ & _ & _ & _ & _ & _ &
              _ & _ & _ & ->).
    right. symmetry in Hst. apply cli_loop_exit in Hst as [(-> & _)|[(-> & _)|(-> & Hneg)]].
    + left. exists Cancelled. auto.
    + left. exists TimeLimit. auto.
    + right. auto.
Qed.
Lemma apply_args_interval (a : Cli.args) (cfg : Config.t) :
  Config.interval_seconds (Cli.apply_args a cfg)
  = match Cli.interval a with
    | Some v => if v =? 0 then Config.interval_seconds cfg else v
    | None => Config.interval_seconds cfg
    end.
Proof.
  unfold Cli.apply_args, Cli.if_number, Cli.if_text.
  destruct (Cli.interval a) as [v|]; [destruct (v =? 0)|];
    destruct (Cli.duration a) as [v1|]; try destruct (v1 =? 0);
    destruct (Cli.width a) as [v2|]; try destruct (v2 =? 0);
    destruct (Cli.height a) as [v3|]; try destruct (v3 =? 0);
    destruct (Cli.output a) as [s1|]; try destruct (String.eqb s1 "");
    destruct (Cli.format a) as [s2|]; try destruct (String.eqb s2 "");
    destruct (Cli.quality a) as [v4|]; try destruct (v4 =? 0);
    destruct (Cli.no_video a), (Cli.no_preview a); reflexivity.
Qed.

Lemma new_camera_returns (f : option string) (E : Cli.env) (w : world) :
  exists cfg w1, Cli.new_camera f E w = (Ok cfg, w1) /\
    (f = None -> cfg = Camera.load_default_config /\ w1 = w).
Proof.
  unfold Cli.new_camera. destruct f as [f|]; [|now eexists _, _].
  destruct (negb (String.eqb f "") && Cli.config_exists E).
  - unfold Camera.load_config. unfold_prog.
    destruct (Cli.config_loaded E); simpl; eexists _, _; (split; [reflexivity|discriminate]).
  - eexists _, _. split; [reflexivity|discriminate].
Qed.

(** The interval after the dialogue: the one typed, if one was typed. *)
Lemma interactive_interval (d : Cli.dialogue) (cfg c : Config.t) :
  Cli.interactive_config d cfg = inr c ->
  Config.interval_seconds c
  = match Cli.interval_answer d with
    | Cli.Number v => v
    | _ => Config.interval_seconds cfg
    end.
Proof.
  unfold Cli.interactive_config, Cli.and_then, Cli.ask, Cli.ask_text. cbv zeta.
  destruct (Cli.camera_index_answer d); try discriminate;
    destruct (Cli.interval_answer d); try discriminate;
    destruct (Cli.duration_answer d); try discriminate;
    destruct (Cli.width_answer d); try discriminate;
    destruct (Cli.height_answer d); try discriminate;
    destruct (Cli.quality_answer d); try discriminate;
    destruct (String.eqb (Cli.output_dir_answer d) "");
    destruct (String.eqb (Cli.image_format_answer d) "");
    destruct (String.eqb (Cli.create_video_answer d) "");
    simpl;
    repeat match goal with
           | |- context [if ?b then _ else _] => destruct b; simpl
           end;
    try destruct (Cli.fps_answer d); try discriminate;
    now intros [= <-].
Qed.


(** X17: a zero on the command line is ignored, a zero typed at the prompt is
    not.  Without a configuration file and without the dialogue, the
    recording runs with the default configuration changed by the arguments,
    and its interval is the argument of [--interval] unless that is absent or
    0, when it is the default 5: the interval cannot be 0, and the run fails
    with [ZeroDivisionError] only if creating the directory raises it.  With
    the dialogue, an interval of 0 typed at the prompt is stored, and when no
    answer is rejected the recording stops before its loop: with an open
    camera and a directory that could be created, [main] reports the
    [ZeroDivisionError] and exits with status 1. *)
Theorem command_line_zero_is_ignored_typed_zero_is_not :
  forall (a : Cli.args) (E : Cli.env) (w : world),
    Cli.config a = None ->
    let o := Cli.main a E w in
    (Cli.interactive a = false ->
     Cli.used o = Some (Cli.apply_args a Camera.load_default_config) /\
     Config.interval_seconds (Cli.apply_args a Camera.load_default_config)
     = match Cli.interval a with
       | Some v => if v =? 0 then 5 else v
       | None => 5
       end /\
     Config.interval_seconds (Cli.apply_args a Camera.load_default_config) <> 0 /\
     (Cli.reported o = Cli.RunError ZeroDivisionError ->
      Camera.mkdir_result (Cli.camera E) = Raises ZeroDivisionError)) /\
    (Cli.interactive a = true ->
     Cli.interval_answer (Cli.typed E) = Cli.Number 0 ->
     forall cfg, Cli.used o = Some cfg ->
       Config.interval_seconds cfg = 0 /\
       Cli.ended o = NotStarted /\
       Cli.status o = 1 /\
       (Camera.camera_opened (Cli.camera E) = Returns true ->
        (exists u, Camera.mkdir_result (Cli.camera E) = Returns u) ->
        Cli.reported o = Cli.RunError ZeroDivisionError)).
Proof.
  intros a E w Hconfig. cbv zeta. unfold Cli.main.
  destruct (new_camera_returns (Cli.config a) E w) as (cfg0 & w1 & -> & Hdefault).
  destruct (Hdefault Hconfig) as (-> & ->). clear Hdefault.
  assert (Config.interval_seconds (Cli.apply_args a Camera.load_default_config)
          = match Cli.interval a with
            | Some v => if v =? 0 then 5 else v
            | None => 5
            end) as Hinterval by (now rewrite apply_args_interval).
  assert (Config.interval_seconds (Cli.apply_args a Camera.load_default_config) <> 0)
    as Hnz.
  { rewrite Hinterval. destruct (Cli.interval a) as [v|]; [|discriminate].
    destruct (v =? 0) eqn:Hv; [discriminate|now apply Z.eqb_neq]. }
  split.
  - intros ->.
    set (cfg := Cli.apply_args a Camera.load_default_config) in *.
    destruct (Camera.start_recording cfg (Cli.camera E) w) as [[s r] w2] eqn:Hrun.
    pose proof (cli_run_result _ _ _ _ _ _ Hrun) as Hres.
    apply Z.eqb_neq in Hnz. rewrite Hnz in Hres. apply Z.eqb_neq in Hnz.
    assert (r = Raise ZeroDivisionError ->
            Camera.mkdir_result (Cli.camera E) = Raises ZeroDivisionError) as Hraise.
    { intros ->. destruct (Camera.camera_opened (Cli.camera E)) as [[|]|e0];
        try (now destruct Hres).
      destruct (Camera.mkdir_result (Cli.camera E)) as [u|e1];
        [|now destruct Hres as (_ & [= ->])].
      destruct Hres as [(_ & [=])|[(by_ & _ & _ & [=])|(_ & [=] & _)]]. }
    destruct r as [[|]|e]; simpl; (split; [reflexivity|]);
      (split; [exact Hinterval|]); (split; [exact Hnz|]); try discriminate.
    intros [= ->]. now apply Hraise.
  - intros -> Hzero cfg.
    destruct (Cli.interactive_config (Cli.typed E) _) as [e|c] eqn:Hdialogue; simpl;
      [discriminate|].
    pose proof (interactive_interval _ _ _ Hdialogue) as Hkept.
    rewrite Hzero in Hkept.
    destruct (Camera.start_recording c (Cli.camera E) w) as [[s r] w2] eqn:Hrun.
    pose proof (cli_run_result _ _ _ _ _ _ Hrun) as Hres.
    rewrite Hkept in Hres. simpl in Hres.
    destruct (Camera.camera_opened (Cli.camera E)) as [[|]|e0].
    2,3: destruct Hres as (-> & ->); simpl; intros [= <-];
         (split; [exact Hkept|]); (split; [reflexivity|]); (split; [reflexivity|]);
         discriminate.
    destruct (Camera.mkdir_result (Cli.camera E)) as [u|e1];
      destruct Hres as (-> & ->); simpl; intros [= <-];
      (split; [exact Hkept|]); (split; [reflexivity|]); (split; [reflexivity|]).
    + reflexivity.
    + intros _ (u & [=]).
Qed.


Lemma command_line_zero_is_ignored_typed_zero_is_not_witness :
  (let o := Cli.main (args_interval 0) (main_env (typed_interval 0) [cli_tick 0])
              initial_world in
   Cli.used o = Some (Cli.apply_args (args_interval 0) Camera.load_default_config) /\
   Config.interval_seconds (Cli.apply_args (args_interval 0) Camera.load_default_config)
   = 5) /\
  (let o := Cli.main args_interactive (main_env (typed_interval 0) [cli_tick 0])
              initial_world in
   Cli.status o = 1 /\ Cli.reported o = Cli.RunError ZeroDivisionError).
Proof.
  cbv zeta. split.
  - destruct (proj1 (command_line_zero_is_ignored_typed_zero_is_not (args_interval 0)
                       (main_env (typed_interval 0) [cli_tick 0]) initial_world
                       eq_refl) eq_refl) as (Hused & Hinterval & _).
    split; [exact Hused|exact Hinterval].
  - destruct (proj2 (command_line_zero_is_ignored_typed_zero_is_not args_interactive
                       (main_env (typed_interval 0) [cli_tick 0]) initial_world
                       eq_refl) eq_refl eq_refl
                (Setting.interval_seconds 0 Camera.load_default_config))
      as (_ & _ & Hstatus & Hreport).
    + vm_compute. reflexivity.
    + split; [exact Hstatus|]. apply Hreport; [reflexivity|now exists tt].
Defined.
(** ** The GUI's record button *)




(** ** The test script *)

(** X19: what the test script's camera test tells.  [test_camera_basic]
    returns [True] exactly when the camera opened, a frame was read and
    neither creating the directory nor writing the image raised: the result of
    [cv2.imwrite] is not looked at, so the test succeeds and reports the path
    of the saved image also when nothing was written.  Whenever it returns
    with a camera that was opened, releasing the camera is the last thing it
    does; when an exception leaves it, the camera is not released.  [main]
    runs the time-lapse test only after the camera test returned [True] and
    the answer is one of y, yes, 是, 好; it then opens the camera again after
    the first test has released it, and lets an exception of either test
    through. *)
Theorem test_script_camera_test :
  forall (E : TestScript.env) (w : world),
    let B := TestScript.basic E in
    let run := BasicTest.test_camera_basic B w in
    let l := events_since w (snd run) in
    let script := TestScript.main E w in
    ((exists lines, fst run = Ok (true, lines)) <->
     BasicTest.camera_opened B = Returns true /\ BasicTest.read B = Returns true /\
     (exists u, BasicTest.mkdir_result B = Returns u) /\
     (exists b, BasicTest.imwrite B = Returns b)) /\
    (forall lines, fst run = Ok (true, lines) ->
       BasicTest.ImageSaved (BasicTest.test_image (BasicTest.now B)) ∈ lines /\
       (BasicTest.imwrite B = Returns false -> saved_files l = []) /\
       last l = Some CameraRelease) /\
    (forall lines, fst run = Ok (false, lines) ->
       match BasicTest.camera_opened B with
       | Returns true => last l = Some CameraRelease
       | _ => CameraRelease ∉ l
       end) /\
    (forall e, fst run = Raise e -> CameraRelease ∉ l /\ fst script = TestScript.Uncaught e) /\
    (forall lines, fst run = Ok (false, lines) ->
       script = (TestScript.BasicTestFailed, snd run)) /\
    (forall lines, fst run = Ok (true, lines) ->
       if TestScript.accepted (TestScript.choice E)
       then
         let second := SmokeTest.test_short_timelapse (TestScript.timelapse E) (snd run) in
         snd script = snd second /\
         fst script = match snd (fst second) with
                      | Ok r => TestScript.TimelapseReturned r
                      | Raise e => TestScript.Uncaught e
                      end
       else script = (TestScript.Skipped, snd run)).
Proof.
  intros E w. cbv zeta. unfold TestScript.main.
  destruct (TestScript.accepted (TestScript.choice E)).
  all: unfold BasicTest.test_camera_basic; unfold_prog.
  all: destruct (BasicTest.camera_opened (TestScript.basic E)) as [[|]|e0];
    destruct (BasicTest.read (TestScript.basic E)) as [[|]|e1];
    destruct (BasicTest.mkdir_result (TestScript.basic E)) as [[]|e2];
    destruct (BasicTest.imwrite (TestScript.basic E)) as [[|]|e3]; simpl.
  all: repeat (erewrite events_since_app
                 by (simpl; rewrite <- ?app_assoc; reflexivity)).
  all: repeat match goal with
         | |- _ /\ _ => split
         | |- _ <-> _ => split
         end.
  all: try (intros (lines & [=]); repeat split; eauto; fail).
  all: try (intros (H1 & H2 & (u & H3) & (b & H4)); discriminate).
  all: try (intros _; eexists; reflexivity).
  all: try (intros lines [= <-]).
  all: try (intros lines [=]; fail).
  all: try (intros e [=]; fail).
  all: try (intros e [= <-]).
  all: try reflexivity.
  all: try (split; [|split]).
  all: try reflexivity.
  all: try (intros [=]; fail).
  all: try set_solver.
  all: try (intros H; repeat (apply elem_of_cons in H as [H|H]; [discriminate H|]);
            inversion H).
  all: try (destruct (SmokeTest.test_short_timelapse _ _) as [[s2 [r2|x2]] w2];
            split; reflexivity).
Qed.
(** ** A clean-up that fails *)

(** The clean-up loop, when a removal raises: the files in front of that
    removal are gone, the others are as they were. *)
Lemma remove_images_failure (v : video_env) (d : string) (fs : list string)
    (w w' : world) (e : exn) :
  remove_images v d fs w = (Raise e, w') ->
  exists (done : list string) (f : string) (rest : list string) (l : list event),
    fs = done ++ f :: rest /\
    trace w' = trace w ++ l /\
    Forall (fun e => removal_event e = true) l /\
    removals l = map (Path.join d) (done ++ [f]) /\
    files w' = files w ∖ list_to_set (map (Path.join d) done).
Proof.
  revert w. induction fs as [|f fs IH]; intros w; simpl.
  - unfold_prog. discriminate.
  - unfold_prog. destruct (decide (Path.join d f ∈ files w)) as [Hin|Hin]; simpl.
    + destruct (remove_result v (Path.join d f)) as [[]|e1]; simpl.
      * intros H. destruct (IH _ H) as (done & f' & rest & l & -> & Htr & Hall & Hrm & Hf).
        simpl in Htr, Hf.
        exists (f :: done), f', rest, (Remove (Path.join d f) :: l).
        split; [reflexivity|]. split; [now rewrite Htr, <- app_assoc|].
        split; [now constructor|]. split; [simpl; now rewrite Hrm|].
        rewrite Hf. simpl. set_solver.
      * intros [= <- <-]. exists [], f, fs, [Remove (Path.join d f)]. simpl.
        split; [reflexivity|]. split; [reflexivity|].
        split; [repeat constructor|]. split; [reflexivity|]. set_solver.
    + intros [= <- <-]. exists [], f, fs, [Remove (Path.join d f)]. simpl.
      split; [reflexivity|]. split; [reflexivity|].
      split; [repeat constructor|]. split; [reflexivity|]. set_solver.
Qed.

Lemma assemble_cleanup_failure (cfg : Config.t) (v : video_env) (every : nat)
    (name d : string) (w w' : world) (r : result unit) (e : exn) :
  d ∈ dirs w ->
  try_except (assemble cfg v every name d) (fun e => output (VideoFailed e)) w = (r, w') ->
  let l := events_since w w' in
  let fs := image_files_of (Config.image_format cfg) (listing d w) in
  (exists p, Output (VideoCreated p) ∈ l) ->
  Output (VideoFailed e) ∈ l ->
  Config.cleanup_images cfg = true /\
  written_frames l = map (Path.join d) fs /\
  Output (VideoCreated (Path.join d name)) ∈ l /\
  last l = Some (Output (VideoFailed e)) /\
  Output ImagesCleaned ∉ l /\
  exists (done : list string) (f : string) (rest : list string),
    fs = done ++ f :: rest /\
    removals l = map (Path.join d) (done ++ [f]) /\
    files w'
    = ((if writer_opened v then {[Path.join d name]} else ∅) ∪ files w)
      ∖ list_to_set (map (Path.join d) done).
Proof.
  intros Hd. unfold try_except. rewrite (assemble_unfold _ _ _ _ _ _ Hd). cbv zeta.
  destruct (image_files_of _ _) as [|first rest] eqn:Hfs.
  { intros [= <- <-] (p & Hp) _. exfalso. revert Hp.
    erewrite events_since_app by (simpl; rewrite <- ?app_assoc; reflexivity).
    intros Hp. repeat (apply elem_of_cons in Hp as [Hp|Hp]; [discriminate Hp|]).
    inversion Hp. }
  destruct (imread_result v (Path.join d first)) as [[|]|e0] eqn:Hfirst.
  2,3: unfold output, act; intros [= <- <-] (p & Hp) _; exfalso; revert Hp;
       erewrite events_since_app by (simpl; rewrite <- ?app_assoc; reflexivity);
       intros Hp; repeat (apply elem_of_cons in Hp as [Hp|Hp]; [discriminate Hp|]);
       inversion Hp.
  match goal with |- context [write_frames ?a ?b ?c ?e ?f ?g ?h] =>
    destruct (write_frames a b c e f g h) as [[[]|e1] w4] eqn:Hwf end.
  2:{ unfold output, act. intros [= <- <-] (p & Hp) _. exfalso. revert Hp.
      apply write_frames_effect in Hwf as (_ & l & Htr & Hall & _).
      erewrite (events_since_app _ _
                  ([Output CreatingVideo; Imread (Path.join d first);
                    WriterOpen (Path.join d name) (Config.video_fps cfg)] ++
                   l ++ [Output (VideoFailed e1)]))
        by (simpl; rewrite Htr; destruct (writer_opened v); simpl;
            now rewrite <- !app_assoc).
      destruct (frame_events_quiet _ Hall) as (_ & _ & _ & Hquiet).
      rewrite !elem_of_app. intros [Hp|[Hp|Hp]].
      - repeat (apply elem_of_cons in Hp as [Hp|Hp]; [discriminate Hp|]). inversion Hp.
      - now apply (Hquiet (VideoCreated p)).
      - apply list_elem_of_singleton in Hp. discriminate Hp. }
  apply write_frames_effect in Hwf as ((Hf & _) & l & Htr & Hall & Hwr & Hff).
  destruct (first_failure v d (first :: rest)) as [[ev e']|] eqn:Hg;
    [destruct Hff as (Hff & _); discriminate Hff|].
  rewrite (first_failure_none _ _ _ Hg) in Hwr.
  destruct (frame_events_quiet _ Hall) as (Hlrm & _ & _ & Hquiet).
  destruct (Config.cleanup_images cfg) eqn:Hclean.
  2:{ intros [= <- <-] _ He. exfalso. revert He.
      erewrite (events_since_app _ _
                  ([Output CreatingVideo; Imread (Path.join d first);
                    WriterOpen (Path.join d name) (Config.video_fps cfg)] ++ l ++
                   [WriterRelease; Output (VideoCreated (Path.join d name))]))
        by (simpl; rewrite Htr; destruct (writer_opened v); simpl;
            now rewrite <- !app_assoc).
      rewrite !elem_of_app. intros [Hp|[Hp|Hp]].
      - repeat (apply elem_of_cons in Hp as [Hp|Hp]; [discriminate Hp|]). inversion Hp.
      - now apply (Hquiet (VideoFailed e)).
      - repeat (apply elem_of_cons in Hp as [Hp|Hp]; [discriminate Hp|]). inversion Hp. }
  match goal with |- context [remove_images ?a ?b ?c ?e] =>
    destruct (remove_images a b c e) as [[[]|e2] w6] eqn:Hrem end.
  - intros [= <- <-] _ He. exfalso. revert He.
    apply remove_images_effect in Hrem as (_ & (l' & Htr' & Hall' & _) & _).
    destruct (removal_events_quiet _ Hall') as (_ & _ & _ & Hquiet').
    erewrite (events_since_app _ _
                ([Output CreatingVideo; Imread (Path.join d first);
                  WriterOpen (Path.join d name) (Config.video_fps cfg)] ++ l ++
                 [WriterRelease; Output (VideoCreated (Path.join d name));
                  Output CleaningImages] ++ l' ++ [Output ImagesCleaned]))
      by (simpl; rewrite Htr'; simpl; rewrite Htr; destruct (writer_opened v);
          simpl; now rewrite <- !app_assoc).
    rewrite !elem_of_app. intros [Hp|[Hp|[Hp|[Hp|Hp]]]].
    + repeat (apply elem_of_cons in Hp as [Hp|Hp]; [discriminate Hp|]). inversion Hp.
    + now apply (Hquiet (VideoFailed e)).
    + repeat (apply elem_of_cons in Hp as [Hp|Hp]; [discriminate Hp|]). inversion Hp.
    + now apply (Hquiet' (VideoFailed e)).
    + apply list_elem_of_singleton in Hp. discriminate Hp.
  - unfold output, act. intros [= <- <-] _.
    apply remove_images_failure in Hrem
      as (done & f & rest' & l' & Hsplit & Htr' & Hall' & Hrm' & Hfiles').
    destruct (removal_events_quiet _ Hall') as (Hlw' & _ & _ & Hquiet').
    erewrite (events_since_app _ _
                ([Output CreatingVideo; Imread (Path.join d first);
                  WriterOpen (Path.join d name) (Config.video_fps cfg)] ++ l ++
                 [WriterRelease; Output (VideoCreated (Path.join d name));
                  Output CleaningImages] ++ l' ++ [Output (VideoFailed e2)]))
      by (simpl; rewrite Htr'; simpl; rewrite Htr; destruct (writer_opened v);
          simpl; now rewrite <- !app_assoc).
    intros He.
    assert (e2 = e) as ->.
    { revert He. rewrite !elem_of_app. intros [Hp|[Hp|[Hp|[Hp|Hp]]]].
      - repeat (apply elem_of_cons in Hp as [Hp|Hp]; [discriminate Hp|]). inversion Hp.
      - now destruct (Hquiet (VideoFailed e)).
      - repeat (apply elem_of_cons in Hp as [Hp|Hp]; [discriminate Hp|]). inversion Hp.
      - now destruct (Hquiet' (VideoFailed e)).
      - apply list_elem_of_singleton in Hp. now injection Hp as ->. }
    split; [reflexivity|]. split.
    { rewrite !written_frames_app, Hwr, Hlw'. simpl. now rewrite app_nil_r. }
    split.
    { rewrite !elem_of_app. right. right. left. set_solver. }
    split.
    { rewrite !app_assoc. apply last_snoc. }
    split.
    { rewrite !elem_of_app. intros [Hp|[Hp|[Hp|[Hp|Hp]]]].
      - repeat (apply elem_of_cons in Hp as [Hp|Hp]; [discriminate Hp|]). inversion Hp.
      - now apply (Hquiet ImagesCleaned).
      - repeat (apply elem_of_cons in Hp as [Hp|Hp]; [discriminate Hp|]). inversion Hp.
      - now apply (Hquiet' ImagesCleaned).
      - apply list_elem_of_singleton in Hp. discriminate Hp. }
    exists done, f, rest'. split; [exact Hsplit|]. split.
    { rewrite !removals_app, Hlrm, Hrm'. simpl. now rewrite app_nil_r. }
    simpl. rewrite Hfiles'. simpl. rewrite Hf.
    destruct (writer_opened v); simpl; set_solver.
Qed.

(** X20: a clean-up that fails is reported as a failed video.  When a run of
    video assembly (of either front-end) has announced the video and then
    reports a failure with exception [e], clean-up is on, every enumerated
    image was handed to the writer, and [e] was raised by the removal of one
    of the images: the report of the failure is the last event, the message
    that the images were cleaned is not printed, the removals attempted are
    those of the images up to that one, in order, and the files afterwards are
    the video (if the writer was opened) and the earlier files less the
    images in front of the failing one, so that image and all later ones are
    kept. *)
Theorem failed_cleanup_is_reported_as_failed_video :
  forall (cfg : Config.t) (v : video_env) (d : string) (w : world) run name (e : exn),
    d ∈ dirs w ->
    (run = Camera.create_video cfg v d w /\ name = Camera.video_filename cfg) \/
    (run = Gui._create_video cfg v d w /\ name = Gui.video_filename cfg) ->
    let l := events_since w (snd run) in
    let fs := image_files_of (Config.image_format cfg) (listing d w) in
    (exists p, Output (VideoCreated p) ∈ l) ->
    Output (VideoFailed e) ∈ l ->
    Config.cleanup_images cfg = true /\
    written_frames l = map (Path.join d) fs /\
    Output (VideoCreated (Path.join d name)) ∈ l /\
    last l = Some (Output (VideoFailed e)) /\
    Output ImagesCleaned ∉ l /\
    exists (done : list string) (f : string) (rest : list string),
      fs = done ++ f :: rest /\
      removals l = map (Path.join d) (done ++ [f]) /\
      files (snd run)
      = ((if writer_opened v then {[Path.join d name]} else ∅) ∪ files w)
        ∖ list_to_set (map (Path.join d) done).
Proof.
  intros cfg v d w run name e Hd Hrun.
  destruct run as [r w']. simpl.
  destruct Hrun as [[Hrun ->]|[Hrun ->]]; symmetry in Hrun.
  - exact (assemble_cleanup_failure cfg v 1 _ d w w' r e Hd Hrun).
  - exact (assemble_cleanup_failure cfg v 5 _ d w w' r e Hd Hrun).
Qed.

Lemma failed_cleanup_is_reported_as_failed_video_witness :
  let cfg := Gui.default_config in
  let run := Gui._create_video cfg second_image_locked "out" a_session_directory in
  let l := events_since a_session_directory (snd run) in
  Output (VideoCreated "out/timelapse_timelapse.mp4") ∈ l /\
  last l = Some (Output (VideoFailed OSError)) /\
  written_frames l = ["out/timelapse_000000.jpg"; "out/timelapse_000001.jpg"].
Proof.
  cbv zeta.
  assert ("out" ∈ dirs a_session_directory) as Hd
    by (refine (bool_decide_unpack _ _); vm_compute; exact I).
  assert (events_since a_session_directory
            (snd (Gui._create_video Gui.default_config second_image_locked "out"
                    a_session_directory))
          = [Output CreatingVideo; Imread "out/timelapse_000000.jpg";
             WriterOpen "out/timelapse_timelapse.mp4" 30;
             Imread "out/timelapse_000000.jpg"; WriterWrite "out/timelapse_000000.jpg";
             Output (VideoProgress 1 2);
             Imread "out/timelapse_000001.jpg"; WriterWrite "out/timelapse_000001.jpg";
             WriterRelease; Output (VideoCreated "out/timelapse_timelapse.mp4");
             Output CleaningImages; Remove "out/timelapse_000000.jpg";
             Remove "out/timelapse_000001.jpg"; Output (VideoFailed OSError)]) as Hl
    by (vm_compute; reflexivity).
  destruct (failed_cleanup_is_reported_as_failed_video Gui.default_config
              second_image_locked "out" a_session_directory _ _ OSError Hd
              (or_intror (conj eq_refl eq_refl)))
    as (_ & Hwritten & Hcreated & Hlast & _).
  - exists "out/timelapse_timelapse.mp4". rewrite Hl. repeat constructor.
  - rewrite Hl. repeat constructor.
  - split; [exact Hcreated|]. split; [exact Hlast|].
    rewrite Hwritten. vm_compute. reflexivity.
Defined.
(** ** The dialogue of the command line *)







